(** * LawVista backend: the retrieval-augmented streaming pipeline

    A shallow embedding of [utils/service.js] (credential rotation, provider
    failover, relevance filtering, the streaming generator) and of the
    [updateChat] controller, followed by the properties of the specification
    that concern them.

    Conventions of the embedding.
    - A JavaScript string is a [string] whose characters are its code units,
      read as Latin-1 (code units below 256).
    - [undefined] / [null] is [None]; [a || b] on strings is [orElse].
    - A JavaScript number that carries a relevance score is a binary64
      [float]; a usage counter is an integer [Z].
    - A [Map] whose iteration order is observed is an association list kept
      in insertion order; a [Map] used as a dictionary is a [gmap].
    - Calls that leave the process (vector index, PDF download, LLM
      providers) are answered by an [Env] of oracles; each may throw.
    - Effects on the response, the database and the outside world are
      appended to a trace in program order. *)

From Stdlib Require Import ZArith List String Ascii Bool Floats.
From stdpp Require Import gmap strings list.

Set Warnings "-inexact-float".
Local Open Scope string_scope.
Local Open Scope list_scope.

(* ================================================================== *)
(** * JavaScript string primitives used by the source *)
(* ================================================================== *)

Module JS.

(** [WhiteSpace] and [LineTerminator] code units below 256: TAB, LF, VT,
    FF, CR, SP and NBSP.  This is the set used by [trim] and by [\s]. *)
Definition isWhiteSpace (c : ascii) : bool :=
  let n := nat_of_ascii c in
  ((9 <=? n)%nat && (n <=? 13)%nat) || (n =? 32)%nat || (n =? 160)%nat.

(** [\w] without the unicode flag: [A-Za-z0-9_]. *)
Definition isWordChar (c : ascii) : bool :=
  let n := nat_of_ascii c in
  ((65 <=? n)%nat && (n <=? 90)%nat)
  || ((97 <=? n)%nat && (n <=? 122)%nat)
  || ((48 <=? n)%nat && (n <=? 57)%nat)
  || (n =? 95)%nat.

(** Lower-casing of one Latin-1 code unit: A-Z, and the accented capitals
    U+00C0..U+00DE except the multiplication sign U+00D7. *)
Definition lowerChar (c : ascii) : ascii :=
  let n := nat_of_ascii c in
  if ((65 <=? n)%nat && (n <=? 90)%nat)
     || ((192 <=? n)%nat && (n <=? 222)%nat && negb (n =? 215)%nat)
  then ascii_of_nat (n + 32) else c.

Fixpoint mapChars (f : ascii -> ascii) (s : string) : string :=
  match s with
  | EmptyString => EmptyString
  | String c r => String (f c) (mapChars f r)
  end.

Fixpoint filterChars (keep : ascii -> bool) (s : string) : string :=
  match s with
  | EmptyString => EmptyString
  | String c r => if keep c then String c (filterChars keep r) else filterChars keep r
  end.

(** [s.toLowerCase()] *)
Definition toLowerCase (s : string) : string := mapChars lowerChar s.

Fixpoint trimStart (s : string) : string :=
  match s with
  | EmptyString => EmptyString
  | String c r => if isWhiteSpace c then trimStart r else s
  end.

(** Removes the trailing white space: a character is dropped when it is
    white space and nothing but white space follows it. *)
Fixpoint trimEnd (s : string) : string :=
  match s with
  | EmptyString => EmptyString
  | String c r =>
      match trimEnd r with
      | EmptyString => if isWhiteSpace c then EmptyString else String c EmptyString
      | r' => String c r'
      end
  end.

(** [s.trim()] *)
Definition trim (s : string) : string := trimEnd (trimStart s).

(** [s.replace(/\s+/g, ' ')]: every maximal run of white space becomes one
    space.  [inRun] tells whether the previous character was white space. *)
Fixpoint collapseFrom (inRun : bool) (s : string) : string :=
  match s with
  | EmptyString => EmptyString
  | String c r =>
      if isWhiteSpace c
      then (if inRun then collapseFrom true r else String " " (collapseFrom true r))
      else String c (collapseFrom false r)
  end.

Definition collapseWhiteSpace (s : string) : string := collapseFrom false s.

(** [s.slice(0, n)] for [n >= 0]. *)
Fixpoint sliceTo (n : nat) (s : string) : string :=
  match n, s with
  | S k, String c r => String c (sliceTo k r)
  | _, _ => EmptyString
  end.

(** [hay.includes(needle)] *)
Fixpoint includes (needle hay : string) : bool :=
  String.prefix needle hay
  || match hay with
     | EmptyString => false
     | String _ r => includes needle r
     end.

(** Truthiness of an optional string: [undefined], [null] and the empty
    string are falsy. *)
Definition truthy (o : option string) : bool :=
  match o with
  | Some s => negb (String.eqb s "")
  | None => false
  end.

(** [a || b] where [b] is a string. *)
Definition orElse (a : option string) (b : string) : string :=
  match a with
  | Some s => if String.eqb s "" then b else s
  | None => b
  end.

(** [a || b] where both sides may be undefined. *)
Definition orOpt (a b : option string) : option string :=
  if truthy a then a else b.

(** [xs.includes(x)] on an array of strings. *)
Definition arrayIncludes (xs : list string) (x : string) : bool :=
  existsb (String.eqb x) xs.

(** [xs.slice(0, -1)] *)
Definition dropLast {A} (xs : list A) : list A := firstn (length xs - 1) xs.

(** An insertion-ordered [Map] with string keys.  [mapSet] is [Map.set]:
    an existing key keeps its place and takes the new value, a new key is
    appended. *)
Fixpoint mapSet {V} (k : string) (v : V) (m : list (string * V)) : list (string * V) :=
  match m with
  | [] => [(k, v)]
  | (k', v') :: rest =>
      if String.eqb k' k then (k', v) :: rest else (k', v') :: mapSet k v rest
  end.

(** [new Map(entries)] *)
Definition newMap {V} (entries : list (string * V)) : list (string * V) :=
  fold_left (fun m kv => mapSet (fst kv) (snd kv) m) entries [].

(** [[...m.values()]] *)
Definition mapValues {V} (m : list (string * V)) : list V := map snd m.

End JS.

(* ================================================================== *)
(** * Errors and provider answers *)
(* ================================================================== *)

(** A thrown value, as far as the source inspects it: [error.message] and
    [error.status]. *)
Record JsError := mkError {
  message : option string;
  status : option Z
}.

(** The answer of one awaited call: a value or a thrown error. *)
Inductive Outcome (A : Type) :=
| Returned (a : A)
| Thrown (e : JsError).
Arguments Returned {A} a.
Arguments Thrown {A} e.

(* ================================================================== *)
(** * Credential rotation: [getNextGroqApiKey], [markGroqKeyFailed] *)
(* ================================================================== *)

Module Rotator.

(** An API key as the code handles it; [None] is [undefined]
    ([GROQ_API_KEYS[0]] of an empty pool). *)
Abbreviation ApiKey := (option string).

(** The module-level state: the cyclic pointer, the failure counters, and
    the callbacks registered with [setTimeout] (due time in ms, key). *)
Record State := mkState {
  currentGroqKeyIndex : nat;
  keyFailureCounts : gmap (option string) nat;
  pendingResets : list (N * option string)
}.

Definition initial : State := mkState 0 ∅ [].

(** [keyFailureCounts.get(key) || 0] *)
Definition failuresOf (counts : gmap (option string) nat) (key : ApiKey) : nat :=
  default 0 (counts !! key).

(** The [for] loop of [getNextGroqApiKey], over the offsets [i] still to
    visit: the first offset whose key has fewer than 3 failures gives the
    slot and the key. *)
Fixpoint scanKeys (pool : list string) (st : State) (offsets : list nat)
  : option (nat * ApiKey) :=
  match offsets with
  | [] => None
  | i :: rest =>
      let index := ((currentGroqKeyIndex st + i) mod length pool)%nat in
      let key := pool !! index in
      if (failuresOf (keyFailureCounts st) key <? 3)%nat
      then Some (index, key)
      else scanKeys pool st rest
  end.

(** [getNextGroqApiKey()] *)
Definition getNextGroqApiKey (pool : list string) (st : State) : State * ApiKey :=
  match scanKeys pool st (seq 0 (length pool)) with
  | Some (index, key) =>
      (mkState ((index + 1) mod length pool)%nat (keyFailureCounts st) (pendingResets st),
       key)
  | None =>
      (mkState 0 ∅ (pendingResets st), pool !! 0%nat)
  end.

(** [markGroqKeyFailed(apiKey)] called at time [now] (milliseconds): the
    counter of the key goes up by one and a reset is scheduled 60 s later. *)
Definition markGroqKeyFailed (now : N) (apiKey : ApiKey) (st : State) : State :=
  let failures := failuresOf (keyFailureCounts st) apiKey in
  mkState (currentGroqKeyIndex st)
          (<[apiKey := (failures + 1)%nat]> (keyFailureCounts st))
          (pendingResets st ++ [((now + 60000)%N, apiKey)]).

(** The timer callbacks that are due at [now] run ([keyFailureCounts.delete])
    and leave the list of pending ones. *)
Definition runTimers (now : N) (st : State) : State :=
  let due := List.filter (fun t => (fst t <=? now)%N) (pendingResets st) in
  let later := List.filter (fun t => negb (fst t <=? now)%N) (pendingResets st) in
  mkState (currentGroqKeyIndex st)
          (fold_left (fun m t => delete (snd t) m) due (keyFailureCounts st))
          later.

End Rotator.

(* ================================================================== *)
(** * Provider failover: [invokeLLMWithFallback] *)
(* ================================================================== *)

Module Gateway.
Import Rotator.

(** What the callers read of a provider's answer: [response.content]. *)
Record Response := mkResponse { content : string }.

(** The configuration and the two providers.  An awaited provider call
    answers after some milliseconds with a response or a thrown error; the
    primary backend is asked with the attempt number and the key in use. *)
Record Env := mkEnv {
  OPENAI_API_KEY : option string;
  GROQ_API_KEYS : list string;
  openaiInvoke : string -> N * Outcome Response;
  groqInvoke : nat -> ApiKey -> string -> N * Outcome Response
}.

(** The calls made by one run, in program order. *)
Inductive Call :=
| OpenAICall (result : Outcome Response)
| GroqCall (attempt : nat) (apiKey : ApiKey) (result : Outcome Response)
| KeyMarkedFailed (apiKey : ApiKey).

Record World := mkWorld {
  rotator : Rotator.State;
  clock : N;
  calls : list Call
}.

Definition record (c : Call) (w : World) : World :=
  mkWorld (rotator w) (clock w) (calls w ++ [c]).

(** An [await] that lasts [d] milliseconds: the clock advances and the
    timers that came due have run when the caller resumes. *)
Definition elapse (d : N) (w : World) : World :=
  let now := (clock w + d)%N in
  mkWorld (runTimers now (rotator w)) now (calls w).

(** [error.message?.includes('rate') || error.status === 429] *)
Definition rateLimited (e : JsError) : bool :=
  match message e with
  | Some m => JS.includes "rate" m
  | None => false
  end
  || match status e with
     | Some c => (c =? 429)%Z
     | None => false
     end.

(** [createGroqLLM()]: takes the next key from the rotator. *)
Definition createGroqLLM (env : Env) (w : World) : World * ApiKey :=
  let (st, apiKey) := getNextGroqApiKey (GROQ_API_KEYS env) (rotator w) in
  (mkWorld st (clock w) (calls w), apiKey).

(** [await openaiLLM.invoke(prompt)] *)
Definition callOpenAI (env : Env) (prompt : string) (w : World)
  : World * Outcome Response :=
  let (d, result) := openaiInvoke env prompt in
  (record (OpenAICall result) (elapse d w), result).

(** The rotation loop, with [remaining] iterations left and [attempt] the
    loop counter.  The result is the response returned from inside the loop,
    or [lastError] when the loop is left by exhaustion or by [break]. *)
Fixpoint groqLoop (env : Env) (prompt : string) (remaining attempt : nat)
  (lastError : option JsError) (w : World) : World * (Response + option JsError) :=
  match remaining with
  | O => (w, inr lastError)
  | S remaining' =>
      let (w1, apiKey) := createGroqLLM env w in
      let (d, result) := groqInvoke env attempt apiKey prompt in
      let w2 := record (GroqCall attempt apiKey result) (elapse d w1) in
      match result with
      | Returned response => (w2, inl response)
      | Thrown error =>
          let w3 :=
            record (KeyMarkedFailed apiKey)
                   (mkWorld (markGroqKeyFailed (clock w2) apiKey (rotator w2))
                            (clock w2) (calls w2)) in
          if rateLimited error
          then groqLoop env prompt remaining' (S attempt) (Some error) w3
          else (w3, inr (Some error))
      end
  end.

(** [throw lastError || new Error("All LLM providers failed")] *)
Definition finalError (lastError : option JsError) : JsError :=
  match lastError with
  | Some e => e
  | None => mkError (Some "All LLM providers failed") None
  end.

(** [invokeLLMWithFallback(prompt, preferOpenAI)] *)
Definition invokeLLMWithFallback (env : Env) (prompt : string) (preferOpenAI : bool)
  (w : World) : World * Outcome Response :=
  let (w1, early) :=
    if preferOpenAI && JS.truthy (OPENAI_API_KEY env)
    then
      match callOpenAI env prompt w with
      | (w', Returned response) => (w', Some response)
      | (w', Thrown _) => (w', None)
      end
    else (w, None) in
  match early with
  | Some response => (w1, Returned response)
  | None =>
      match groqLoop env prompt (length (GROQ_API_KEYS env)) 0 None w1 with
      | (w2, inl response) => (w2, Returned response)
      | (w2, inr lastError) =>
          if JS.truthy (OPENAI_API_KEY env) && negb preferOpenAI
          then
            match callOpenAI env prompt w2 with
            | (w3, Returned response) => (w3, Returned response)
            | (w3, Thrown _) => (w3, Thrown (finalError lastError))
            end
          else (w2, Thrown (finalError lastError))
      end
  end.

End Gateway.

(* ================================================================== *)
(** * The streaming pipeline and the chat controller *)
(* ================================================================== *)

Module Pipeline.
Import Rotator.

(** ** Data *)

(** [doc.metadata], the fields the code reads ([m] in the source). *)
Record Metadata := mkMetadata {
  m_case_title : option string;
  m_court : option string;
  m_source_url : option string;
  m_r2_url : option string;
  m_text_snippet : option string;
  m_source : option string
}.

Record Document := mkDocument {
  page_content : option string;
  metadata : Metadata
}.

(** One citation as sent to the client and stored with the assistant turn. *)
Record Source := mkSource {
  case_title : string;
  source_url : string;
  score : float
}.

Inductive Message :=
| SystemMessage (content : string)
| HumanMessage (content : string).

(** One entry of [formattedHistory]. *)
Record HistoryEntry := mkEntry {
  role : string;
  content : string
}.

(** [{ answer, sources }] *)
Record StreamResult := mkResult {
  answer : string;
  sources : list Source
}.

(** The payload of an [error] event: a JSON string or [{message: ...}]. *)
Inductive ErrorData :=
| ErrorText (s : string)
| ErrorObject (msg : string).

(** The events of the stream, [event: <name>\ndata: <json>\n\n], with the
    payload before its JSON encoding. *)
Inductive SseEvent :=
| SourcesEvent (cited : list Source)
| ChunkEvent (data : string)
| EndEvent
| ErrorEvent (data : ErrorData).

(** [chat.chatHistory[i].ai] *)
Record Ai := mkAi {
  text : string;
  ai_sources : list Source
}.

(** One element of [chat.chatHistory]. *)
Record Turn := mkTurn {
  user : option string;
  ai : option Ai;
  timestamp : N
}.

(** A [Chats] document; its [chatId] is the key it is stored under. *)
Record Chat := mkChat {
  owner : string;
  ispinned : bool;
  chatHistory : list Turn
}.

(** A [User] document, as far as the controller reads it. *)
Record User := mkUser {
  uses : Z
}.

(** [req.params.chatId], [req.body.userMessage], [req.user._id]. *)
Record Request := mkRequest {
  chatId : string;
  userMessage : option string;
  userId : string
}.

(** The body of [res.status(..).json(..)]. *)
Record JsonBody := mkBody {
  body_message : string;
  success : option bool
}.

(** What the process does to the database, the response and the outside
    world, in program order. *)
Inductive Effect :=
| DbCreateChat (id : string) (chatOwner : string)
| DbSaveUser (id : string) (count : Z)
| DbSaveChat (id : string) (history : list Turn)
| SetHeader (name value : string)
| FlushHeaders
| SendJson (code : nat) (body : JsonBody)
| Write (ev : SseEvent)
| EndResponse
| Search (query : string) (k : nat)
| FetchPdf (url : string)
| LlmStream (apiKey : ApiKey) (messages : list Message).

(** The oracles of one request. [llmStream] gives the tokens the provider
    yields and the error that interrupts the stream, if any (an error with
    no token is a failure of [llm.stream] itself); [downloadPdfText] is
    [axios.get] followed by [pdf], giving [pdfData.text]. *)
Record Env := mkEnv {
  GROQ_API_KEYS : list string;
  similaritySearchWithScore : string -> nat -> Outcome (list (Document * float));
  downloadPdfText : string -> Outcome (option string);
  llmStream : ApiKey -> list Message -> list string * option JsError;
  userTurnTime : N;
  assistantTurnTime : N
}.

(** The process and its database. *)
Record Server := mkServer {
  rotator : Rotator.State;
  vectorStoreInstance : bool;
  chats : gmap string Chat;
  users : gmap string User;
  trace : list Effect
}.

(** ** Computations: state passing with exceptions *)

Definition M (A : Type) : Type := Server -> Server * Outcome A.

Definition ret {A} (a : A) : M A := fun s => (s, Returned a).

Definition throw {A} (e : JsError) : M A := fun s => (s, Thrown e).

Definition bind {A B} (m : M A) (k : A -> M B) : M B :=
  fun s =>
    match m s with
    | (s', Returned a) => k a s'
    | (s', Thrown e) => (s', Thrown e)
    end.

(** [try { m } catch (e) { handler e }] *)
Definition tryCatch {A} (m : M A) (handler : JsError -> M A) : M A :=
  fun s =>
    match m s with
    | (s', Returned a) => (s', Returned a)
    | (s', Thrown e) => handler e s'
    end.

Notation "'let*' x ':=' m 'in' k" := (bind m (fun x => k))
  (at level 10, x name, m at level 100, k at level 200).
Notation "m ';;' k" := (bind m (fun _ => k))
  (at level 100, k at level 200, right associativity).

Definition emit (e : Effect) : M unit :=
  fun s => (mkServer (rotator s) (vectorStoreInstance s) (chats s) (users s) (trace s ++ [e]),
            Returned tt).

(** [res.write(...)] *)
Definition write (ev : SseEvent) : M unit := emit (Write ev).

Fixpoint writeAll (evs : list SseEvent) : M unit :=
  match evs with
  | [] => ret tt
  | ev :: rest => write ev ;; writeAll rest
  end.

(** [res.headersSent]: the headers went out with [flushHeaders] or with a
    JSON response. *)
Definition commits (e : Effect) : bool :=
  match e with
  | FlushHeaders | SendJson _ _ => true
  | _ => false
  end.

Definition headersSent : M bool :=
  fun s => (s, Returned (existsb commits (trace s))).

(** ** [getResources] *)

(** [createGroqLLM()]: the key of the client it builds. *)
Definition createGroqLLM (env : Env) : M ApiKey :=
  fun s =>
    let (st, apiKey) := getNextGroqApiKey (GROQ_API_KEYS env) (rotator s) in
    (mkServer st (vectorStoreInstance s) (chats s) (users s) (trace s), Returned apiKey).

(** [getResources()]: the vector store is built once and cached; a client
    for the primary backend is built on every call.  Building these objects
    sends nothing over the network; with the configuration in place it
    returns normally.  The result is the key of the client built. *)
Definition getResources (env : Env) : M ApiKey :=
  fun s =>
    if vectorStoreInstance s
    then createGroqLLM env s
    else createGroqLLM env
           (mkServer (rotator s) true (chats s) (users s) (trace s)).

(** ** [fetchPdfText] *)

Definition fetchPdfText (env : Env) (pdfUrl : option string) (maxChars : N)
  : M (option string) :=
  match pdfUrl with
  | None => ret None
  | Some url =>
      if String.eqb url "" || String.eqb url "#" then ret None
      else
        emit (FetchPdf url) ;;
        match downloadPdfText env url with
        | Returned (Some raw) =>
            let text := JS.trim (JS.collapseWhiteSpace raw) in
            if negb (String.eqb text "") && (100 <? String.length text)%nat
            then ret (Some (JS.sliceTo (N.to_nat maxChars) text))
            else ret None
        | Returned None => ret None
        | Thrown _ => ret None
        end
  end.

(** ** Retrieval: filter, citations, context *)

(** The relevance bar of the chat pipeline. *)
Definition relevanceBar : float := 0.6%float.

(** [results.filter(([doc, score]) => score >= 0.6)] *)
Definition validDocsOf (results : list (Document * float)) : list (Document * float) :=
  List.filter (fun r => PrimFloat.leb relevanceBar (snd r)) results.

(** The object built for one valid document in [uniqueSources]. *)
Definition toSource (r : Document * float) : Source :=
  let m := metadata (fst r) in
  mkSource (JS.orElse (m_case_title m) "Unknown Case")
           (JS.orElse (JS.orOpt (m_r2_url m) (m_source_url m)) "#")
           (snd r).

(** [[...new Map(items.map(item => [item.case_title, item])).values()]] *)
Definition dedupByTitle (items : list Source) : list Source :=
  JS.mapValues (JS.newMap (map (fun item => (case_title item, item)) items)).

Definition uniqueSourcesOf (validDocs : list (Document * float)) : list Source :=
  dedupByTitle (map toSource validDocs).

Definition nl : string := String "010"%char "".

(** [{ doc, score, fullText }] with a fetched text or the snippet. *)
Definition snippetOf (doc : Document) : string :=
  JS.orElse (JS.orOpt (page_content doc) (m_text_snippet (metadata doc))) "".

Definition enrich (env : Env) (r : Document * float) : M (Document * string) :=
  let m := metadata (fst r) in
  let pdfUrl := JS.orOpt (m_source_url m) (m_r2_url m) in
  let* fullText := fetchPdfText env pdfUrl 8000%N in
  ret (fst r, if JS.truthy fullText then default "" fullText else snippetOf (fst r)).

Fixpoint enrichAll (env : Env) (rs : list (Document * float)) : M (list (Document * string)) :=
  match rs with
  | [] => ret []
  | r :: rest =>
      let* d := enrich env r in
      let* ds := enrichAll env rest in
      ret (d :: ds)
  end.

Definition renderCase (d : Document * string) : string :=
  let m := metadata (fst d) in
  "CASE: " +:+ JS.orElse (m_case_title m) "Unknown Case" +:+ nl
  +:+ "COURT: " +:+ JS.orElse (m_court m) "Unknown" +:+ nl +:+ nl +:+ snd d.

Definition contextOf (allDocs : list (Document * string)) : string :=
  String.concat (nl +:+ nl +:+ "---" +:+ nl +:+ nl) (map renderCase allDocs).

Definition dquote : string := String "034"%char "".

Definition systemPrompt (contextText : string) : string :=
  "You are an expert Indian Legal Advisor." +:+ nl +:+ nl
  +:+ "RELEVANT CASES FROM DATABASE:" +:+ nl
  +:+ contextText +:+ nl +:+ nl
  +:+ "INSTRUCTIONS:" +:+ nl
  +:+ "1. The above contains excerpts from relevant legal cases found in our database." +:+ nl
  +:+ "2. Use this information to answer the user's question. Cite the case names provided." +:+ nl
  +:+ "3. If the excerpts are brief, supplement with your knowledge of the case if you recognize it, but prioritize the provided information." +:+ nl
  +:+ "4. If " +:+ dquote +:+ "NO SPECIFIC CASE FILES FOUND" +:+ dquote
  +:+ " appears above, use your general knowledge of Indian Law." +:+ nl
  +:+ "5. Be helpful and thorough in your response." +:+ nl
  +:+ "6. Dont say words like using common knowledge etc or i am an ai language model. Just answer the question directly." +:+ nl.

Definition toMessage (h : HistoryEntry) : Message :=
  if String.eqb (role h) "user" then HumanMessage (content h) else SystemMessage (content h).

Definition messagesOf (contextText : string) (chatHistory : list HistoryEntry)
  (userInput : string) : list Message :=
  SystemMessage (systemPrompt contextText)
  :: map toMessage chatHistory ++ [HumanMessage userInput].

(** ** [streamLegalAssistantResponse] *)

Definition greetings : list string :=
  ["hi"; "hello"; "hey"; "greetings"; "good morning"; "good evening"; "thanks"; "thank you"].

(** [/[?!.]/] *)
Definition isStripped (c : ascii) : bool :=
  Ascii.eqb c "?" || Ascii.eqb c "!" || Ascii.eqb c ".".

(** [userInput.toLowerCase().trim().replace(/[?!.]/g, "")] *)
Definition cleanInputOf (userInput : string) : string :=
  JS.filterChars (fun c => negb (isStripped c)) (JS.trim (JS.toLowerCase userInput)).

(** [greetings.includes(cleanInput) || cleanInput.length < 3] *)
Definition isGreeting (userInput : string) : bool :=
  let cleanInput := cleanInputOf userInput in
  JS.arrayIncludes greetings cleanInput || (String.length cleanInput <? 3)%nat.

Definition greetingText : string :=
  "Hello! I am your legal assistant. How can I help you with Indian Commercial Law today?".

(** [userInput.replace(/[^\w\s]/gi, '')] *)
Definition cleanQueryOf (userInput : string) : string :=
  JS.filterChars (fun c => JS.isWordChar c || JS.isWhiteSpace c) userInput.

(** [await vectorStore.similaritySearchWithScore(cleanQuery, 4)] *)
Definition search (env : Env) (query : string) (k : nat)
  : M (list (Document * float)) :=
  emit (Search query k) ;;
  match similaritySearchWithScore env query k with
  | Returned results => ret results
  | Thrown e => throw e
  end.

(** [llm.stream(messages)] and the [for await] loop: every token is added
    to [fullAnswer] and written as a [chunk] event; an error of the provider
    interrupts the loop. *)
Definition generate (env : Env) (apiKey : ApiKey) (messages : list Message) : M string :=
  emit (LlmStream apiKey messages) ;;
  let (tokens, failure) := llmStream env apiKey messages in
  writeAll (map ChunkEvent tokens) ;;
  match failure with
  | Some e => throw e
  | None => ret (String.concat "" tokens)
  end.

(** The [if (validDocs.length > 0) ... else ...] of step C: the citations
    and the context text. *)
Definition gatherEvidence (env : Env) (validDocs : list (Document * float))
  : M (list Source * string) :=
  if (0 <? length validDocs)%nat
  then
    let* enrichedDocs := enrichAll env (firstn 2 validDocs) in
    let remainingDocs := map (fun r => (fst r, snippetOf (fst r))) (skipn 2 validDocs) in
    let allDocs := (enrichedDocs ++ remainingDocs)%list in
    ret (uniqueSourcesOf validDocs, contextOf allDocs)
  else ret ([], "NO SPECIFIC CASE FILES FOUND.").

(** The body of the [try] block. *)
Definition streamBody (env : Env) (userInput : string) (chatHistory : list HistoryEntry)
  : M StreamResult :=
  let* llm := getResources env in
  if isGreeting userInput
  then
    write (SourcesEvent []) ;;
    write (ChunkEvent greetingText) ;;
    write EndEvent ;;
    ret (mkResult "Greeting" [])
  else
    let* results := search env (cleanQueryOf userInput) 4 in
    let validDocs := validDocsOf results in
    let* evidence := gatherEvidence env validDocs in
    let uniqueSources := fst evidence in
    let contextText := snd evidence in
    write (SourcesEvent uniqueSources) ;;
    let* fullAnswer := generate env llm (messagesOf contextText chatHistory userInput) in
    write EndEvent ;;
    ret (mkResult fullAnswer uniqueSources).

Definition streamLegalAssistantResponse (env : Env) (userInput : string)
  (chatHistory : list HistoryEntry) : M StreamResult :=
  tryCatch (streamBody env userInput chatHistory)
           (fun e => write (ErrorEvent (ErrorText "Internal Server Error")) ;; throw e).

(** ** [updateChat] *)

(** [res.status(code).json(body)] *)
Definition sendJson (code : nat) (body : JsonBody) : M unit := emit (SendJson code body).

(** [await Chats.findOne({ chatId })] *)
Definition findOneChat (id : string) : M (option Chat) :=
  fun s => (s, Returned (chats s !! id)).

(** [await Chats.create({ chatId, user })] *)
Definition createChat (id : string) (chatOwner : string) : M Chat :=
  fun s =>
    let chat := mkChat chatOwner false [] in
    (mkServer (rotator s) (vectorStoreInstance s) (<[id := chat]> (chats s)) (users s)
              (trace s ++ [DbCreateChat id chatOwner]),
     Returned chat).

(** [await chat.save()] *)
Definition saveChat (id : string) (chat : Chat) : M unit :=
  fun s =>
    (mkServer (rotator s) (vectorStoreInstance s) (<[id := chat]> (chats s)) (users s)
              (trace s ++ [DbSaveChat id (chatHistory chat)]),
     Returned tt).

(** [await User.findById(req.user._id)] *)
Definition findUserById (id : string) : M (option User) :=
  fun s => (s, Returned (users s !! id)).

(** [await user.save()] *)
Definition saveUser (id : string) (u : User) : M unit :=
  fun s =>
    (mkServer (rotator s) (vectorStoreInstance s) (chats s) (<[id := u]> (users s))
              (trace s ++ [DbSaveUser id (uses u)]),
     Returned tt).

(** [chat.chatHistory.push(msg)] *)
Definition push (chat : Chat) (msg : Turn) : Chat :=
  mkChat (owner chat) (ispinned chat) (chatHistory chat ++ [msg]).

(** The callback of [flatMap] in [formattedHistory]. *)
Definition historyOf (msg : Turn) : list HistoryEntry :=
  ((if JS.truthy (user msg) then [mkEntry "user" (default "" (user msg))] else [])
   ++ match ai msg with
      | Some a => if String.eqb (text a) "" then [] else [mkEntry "assistant" (text a)]
      | None => []
      end)%list.

Definition formattedHistoryOf (history : list Turn) : list HistoryEntry :=
  flat_map historyOf (JS.dropLast history).

(** Reading a property of [null]. *)
Definition typeError : JsError :=
  mkError (Some "Cannot read properties of null (reading 'uses')") None.

(** The part of the [try] block after the pre-SSE validation: the headers
    go out, the usage is counted, the user turn is stored, the answer is
    streamed and the assistant turn is stored. *)
Definition streamTurn (env : Env) (req : Request) (message : string)
  (chat : Chat) (u : User) : M unit :=
  emit (SetHeader "Content-Type" "text/event-stream") ;;
  emit (SetHeader "Cache-Control" "no-cache") ;;
  emit (SetHeader "Connection" "keep-alive") ;;
  emit FlushHeaders ;;
  let u := mkUser (uses u + 1) in
  saveUser (userId req) u ;;
  let userMsg := mkTurn (Some message) None (userTurnTime env) in
  let chat := push chat userMsg in
  saveChat (chatId req) chat ;;
  let formattedHistory := formattedHistoryOf (chatHistory chat) in
  let* r := streamLegalAssistantResponse env message formattedHistory in
  let newMessage :=
    mkTurn None (Some (mkAi (answer r) (sources r))) (assistantTurnTime env) in
  let chat := push chat newMessage in
  saveChat (chatId req) chat ;;
  emit EndResponse.

(** The [try] block of [updateChat]. *)
Definition updateChatBody (env : Env) (req : Request) : M unit :=
  if negb (JS.truthy (userMessage req))
  then sendJson 400 (mkBody "User message is required" None)
  else
    let message := default "" (userMessage req) in
    let* found := findOneChat (chatId req) in
    let* chat :=
      match found with
      | Some c => ret c
      | None => createChat (chatId req) (userId req)
      end in
    if negb (String.eqb (userId req) (owner chat))
    then sendJson 401 (mkBody "Unauthorized" None)
    else
      let* found := findUserById (userId req) in
      match found with
      | None => throw typeError
      | Some u =>
          if (10 <=? uses u)%Z
          then sendJson 403 (mkBody "User has exceeded the maximum number of uses"
                                    (Some false))
          else streamTurn env req message chat u
      end.

(** [updateChat(req, res)] *)
Definition updateChat (env : Env) (req : Request) : M unit :=
  tryCatch (updateChatBody env req)
           (fun _ =>
              let* sent := headersSent in
              if negb sent
              then sendJson 500 (mkBody "Internal Server Error" None)
              else
                write (ErrorEvent (ErrorObject "An error occurred.")) ;;
                emit EndResponse).

(** ** Readings of a trace *)

(** The events written to the response, in order. *)
Definition written (t : list Effect) : list SseEvent :=
  flat_map (fun e => match e with Write ev => [ev] | _ => [] end) t.

(** The number of calls to the similarity-search service. *)
Definition searchCalls (t : list Effect) : nat :=
  length (List.filter (fun e => match e with Search _ _ => true | _ => false end) t).

End Pipeline.

(* ================================================================== *)
(** * The relevance filter of [summarizeLegalDocument] *)
(* ================================================================== *)

Module Summarize.
Import Pipeline.

(** [.filter(([_, score]) => score < 0.35 || score >= 0.5)] *)
Definition keeps (score : float) : bool :=
  PrimFloat.ltb score 0.35%float || PrimFloat.leb 0.5%float score.

(** The object built by [.map(([doc, score]) => ...)]. *)
Definition toSource (r : Document * float) : Source :=
  let m := metadata (fst r) in
  mkSource (JS.orElse (JS.orOpt (m_case_title m) (m_source m)) "Unknown Case")
           (JS.orElse (JS.orOpt (m_r2_url m) (JS.orOpt (m_source_url m) (m_source m))) "#")
           (snd r).

(** [sources] and [uniqueSources] of [summarizeLegalDocument]. *)
Definition uniqueSourcesOf (similarDocs : list (Document * float)) : list Source :=
  dedupByTitle (map toSource (List.filter (fun r => keeps (snd r)) similarDocs)).

End Summarize.

(* ================================================================== *)
(** * Threshold directions *)
(* ================================================================== *)

Module Directions.

(** A filter on scores has one threshold in the higher-is-better direction
    when, with a score it keeps, it keeps every score at least as high; in
    the lower-is-better direction when it keeps every score at most as
    high. *)
Definition higherIsBetter (keep : float -> bool) : Prop :=
  forall s s', keep s = true -> PrimFloat.leb s s' = true -> keep s' = true.

Definition lowerIsBetter (keep : float -> bool) : Prop :=
  forall s s', keep s = true -> PrimFloat.leb s' s = true -> keep s' = true.

(** The specification's rule for one filtering decision: a single
    threshold direction, never the two mixed. *)
Definition singleDirection (keep : float -> bool) : Prop :=
  higherIsBetter keep \/ lowerIsBetter keep.

End Directions.

(* ================================================================== *)
(** * Readings of a failover log *)
(* ================================================================== *)

Module FailoverLog.
Import Rotator Gateway.

(** The answers of the primary backend, in order of attempt. *)
Definition groqResults (log : list Call) : list (Outcome Response) :=
  flat_map (fun c => match c with GroqCall _ _ r => [r] | _ => [] end) log.

(** The keys the primary backend was tried with, in order of attempt. *)
Definition groqKeys (log : list Call) : list ApiKey :=
  flat_map (fun c => match c with GroqCall _ k _ => [k] | _ => [] end) log.

(** The answers of both backends, in order of call. *)
Definition providerResults (log : list Call) : list (Outcome Response) :=
  flat_map (fun c =>
              match c with
              | GroqCall _ _ r => [r]
              | OpenAICall r => [r]
              | KeyMarkedFailed _ => []
              end) log.

Definition failed (r : Outcome Response) : Prop :=
  match r with
  | Thrown _ => True
  | Returned _ => False
  end.

(** The last error among [rs], or [init] when none of them failed. *)
Definition lastErrorFrom (init : option JsError) (rs : list (Outcome Response))
  : option JsError :=
  fold_left (fun acc r => match r with Thrown e => Some e | Returned _ => acc end) rs init.

(** The last error thrown by the primary backend. *)
Definition lastGroqError (log : list Call) : option JsError :=
  lastErrorFrom None (groqResults log).

(** The last error thrown by any backend: the last observed error. *)
Definition lastObservedError (log : list Call) : option JsError :=
  lastErrorFrom None (providerResults log).

(** Every failure of the primary backend is followed at once by the report
    of the key it was tried with, and nothing else is reported. *)
Fixpoint failuresReported (log : list Call) : bool :=
  match log with
  | [] => true
  | GroqCall _ k (Thrown _) :: rest =>
      match rest with
      | KeyMarkedFailed k' :: rest' => bool_decide (k = k') && failuresReported rest'
      | _ => false
      end
  | KeyMarkedFailed _ :: _ => false
  | _ :: rest => failuresReported rest
  end.

(** The logs the rotation loop can write when it starts with [remaining]
    iterations and [lastError], with what the loop yields. *)
Inductive LoopLog : nat -> option JsError -> list Call -> Response + option JsError -> Prop :=
| loop_exhausted lastError :
    LoopLog 0 lastError [] (inr lastError)
| loop_success remaining lastError attempt k response :
    LoopLog (S remaining) lastError [GroqCall attempt k (Returned response)] (inl response)
| loop_break remaining lastError attempt k e :
    rateLimited e = false ->
    LoopLog (S remaining) lastError
            [GroqCall attempt k (Thrown e); KeyMarkedFailed k] (inr (Some e))
| loop_continue remaining lastError attempt k e log res :
    rateLimited e = true ->
    LoopLog remaining (Some e) log res ->
    LoopLog (S remaining) lastError
            (GroqCall attempt k (Thrown e) :: KeyMarkedFailed k :: log) res.

End FailoverLog.

(* ================================================================== *)
(** * Readings of a citation list *)
(* ================================================================== *)

Module Citations.
Import Pipeline.

Definition sameTitle (t : string) (c : Source) : bool := String.eqb (case_title c) t.

(** The deduplication as the specification words it: by title, first seen
    wins.  An item is kept when no earlier item has its title. *)
Fixpoint dedupFirstSeenWins (items : list Source) : list Source :=
  match items with
  | [] => []
  | item :: rest =>
      item :: List.filter (fun c => negb (sameTitle (case_title item) c))
                          (dedupFirstSeenWins rest)
  end.

(** The first and the last item that carry a title. *)
Definition firstWithTitle (t : string) (items : list Source) : option Source :=
  List.find (sameTitle t) items.

Definition lastWithTitle (t : string) (items : list Source) : option Source :=
  List.find (sameTitle t) (rev items).

(** The entries [dedupByTitle] builds its map from. *)
Definition entriesOf (items : list Source) : list (string * Source) :=
  map (fun item => (case_title item, item)) items.

(** The score meets the relevance bar of the chat pipeline. *)
Definition meetsBar (c : Source) : Prop :=
  PrimFloat.leb relevanceBar (score c) = true.

End Citations.

(* ================================================================== *)
(** * Runs of the pipeline *)
(* ================================================================== *)

Module Runs.
Import Rotator Pipeline.

(** The server after further effects. *)
Definition addTrace (s : Server) (new : list Effect) : Server :=
  mkServer (rotator s) (vectorStoreInstance s) (chats s) (users s) (trace s ++ new).

(** A request is handled with a response of its own, on which nothing has
    been done yet. *)
Definition handle (env : Env) (req : Request) (s : Server) : Server * Outcome unit :=
  updateChat env req
    (mkServer (rotator s) (vectorStoreInstance s) (chats s) (users s) []).

Definition isFetch (e : Effect) : Prop :=
  match e with
  | FetchPdf _ => True
  | _ => False
  end.

(** Retrieval and generation, as opposed to validation and persistence. *)
Definition isPipelineEffect (e : Effect) : bool :=
  match e with
  | Search _ _ | FetchPdf _ | LlmStream _ _ | Write _ => true
  | _ => false
  end.

Definition isUserSave (e : Effect) : bool :=
  match e with
  | DbSaveUser _ _ => true
  | _ => false
  end.

Definition isChatSave (e : Effect) : bool :=
  match e with
  | DbSaveChat _ _ => true
  | _ => false
  end.

(** The effects and the outcome of [streamLegalAssistantResponse] for a
    client [llm], case by case. *)
Inductive StreamRun (env : Env) (userInput : string) (chatHistory : list HistoryEntry)
  (llm : ApiKey) : list Effect -> Outcome StreamResult -> Prop :=
| run_greeting :
    isGreeting userInput = true ->
    StreamRun env userInput chatHistory llm
      [Write (SourcesEvent []); Write (ChunkEvent greetingText); Write EndEvent]
      (Returned (mkResult "Greeting" []))
| run_search_failed e :
    isGreeting userInput = false ->
    similaritySearchWithScore env (cleanQueryOf userInput) 4 = Thrown e ->
    StreamRun env userInput chatHistory llm
      [Search (cleanQueryOf userInput) 4;
       Write (ErrorEvent (ErrorText "Internal Server Error"))]
      (Thrown e)
| run_generated results fetches contextText tokens :
    isGreeting userInput = false ->
    similaritySearchWithScore env (cleanQueryOf userInput) 4 = Returned results ->
    Forall isFetch fetches ->
    llmStream env llm (messagesOf contextText chatHistory userInput) = (tokens, None) ->
    StreamRun env userInput chatHistory llm
      (Search (cleanQueryOf userInput) 4 :: fetches
       ++ Write (SourcesEvent (uniqueSourcesOf (validDocsOf results)))
       :: LlmStream llm (messagesOf contextText chatHistory userInput)
       :: map (fun t => Write (ChunkEvent t)) tokens
       ++ [Write EndEvent])
      (Returned (mkResult (String.concat "" tokens)
                          (uniqueSourcesOf (validDocsOf results))))
| run_generation_failed results fetches contextText tokens e :
    isGreeting userInput = false ->
    similaritySearchWithScore env (cleanQueryOf userInput) 4 = Returned results ->
    Forall isFetch fetches ->
    llmStream env llm (messagesOf contextText chatHistory userInput) = (tokens, Some e) ->
    StreamRun env userInput chatHistory llm
      (Search (cleanQueryOf userInput) 4 :: fetches
       ++ Write (SourcesEvent (uniqueSourcesOf (validDocsOf results)))
       :: LlmStream llm (messagesOf contextText chatHistory userInput)
       :: map (fun t => Write (ChunkEvent t)) tokens
       ++ [Write (ErrorEvent (ErrorText "Internal Server Error"))])
      (Thrown e).

(** ** Requests that pass the pre-SSE validation *)

(** The conversation the request works on: the stored one, or the one
    created for the requesting user. *)
Definition chatOf (s : Server) (req : Request) : Chat :=
  default (mkChat (userId req) false []) (chats s !! chatId req).

(** The ownership check passes: an existing conversation belongs to the
    requesting user (a new one is created for that user). *)
Definition ownershipPasses (s : Server) (req : Request) : Prop :=
  owner (chatOf s req) = userId req.

(** The request carries the message [message], passes the ownership check,
    and its user [u] is below the usage ceiling. *)
Definition passesValidation (s : Server) (req : Request) (message : string) (u : User)
  : Prop :=
  userMessage req = Some message
  /\ message <> ""
  /\ ownershipPasses s req
  /\ users s !! userId req = Some u
  /\ (uses u < 10)%Z.

Definition userTurnOf (env : Env) (message : string) : Turn :=
  mkTurn (Some message) None (userTurnTime env).

Definition assistantTurnOf (env : Env) (r : StreamResult) : Turn :=
  mkTurn None (Some (mkAi (answer r) (sources r))) (assistantTurnTime env).

(** The effects of [streamTurn] up to the call of the streaming function. *)
Definition headerEffects (env : Env) (req : Request) (u : User) (chat : Chat)
  (message : string) : list Effect :=
  [SetHeader "Content-Type" "text/event-stream";
   SetHeader "Cache-Control" "no-cache";
   SetHeader "Connection" "keep-alive";
   FlushHeaders;
   DbSaveUser (userId req) (uses u + 1);
   DbSaveChat (chatId req) (chatHistory chat ++ [userTurnOf env message])].

(** The effects of a validated request up to the call of the streaming
    function. *)
Definition preamble (env : Env) (s : Server) (req : Request) (message : string) (u : User)
  : list Effect :=
  match chats s !! chatId req with
  | Some _ => []
  | None => [DbCreateChat (chatId req) (userId req)]
  end
  ++ headerEffects env req u (chatOf s req) message.

(** The citations attached to the last turn of a stored conversation, when
    that turn is an assistant turn. *)
Definition assistantSourcesOf (s : Server) (id : string) : option (list Source) :=
  match chats s !! id with
  | Some chat =>
      match last (chatHistory chat) with
      | Some turn => option_map ai_sources (ai turn)
      | None => None
      end
  | None => None
  end.

Definition isErrorEvent (ev : SseEvent) : bool :=
  match ev with
  | ErrorEvent _ => true
  | _ => false
  end.

(** No error event was written: the request did not fail. *)
Definition nonErroring (t : list Effect) : Prop :=
  forallb (fun ev => negb (isErrorEvent ev)) (written t) = true.

(** The body of the quota denial. *)
Definition quotaDenial : JsonBody :=
  mkBody "User has exceeded the maximum number of uses" (Some false).

(** The conversation as stored with [history]. *)
Definition storedChat (s : Server) (req : Request) (history : list Turn) : Chat :=
  mkChat (owner (chatOf s req)) (ispinned (chatOf s req)) history.

End Runs.

(* ================================================================== *)
(** * Concrete inputs *)
(* ================================================================== *)

Module Examples.

(** A pool of three keys whose second key has failed three times, with the
    pointer on that key. *)
Definition pool3 : list string := ["a"; "b"; "c"].

Definition rotatorAtB : Rotator.State :=
  Rotator.mkState 1 (<[Some "b" := 3%nat]> ∅) [].

(** Two keys, the first in cooldown; both backends are configured and both
    fail: the primary with a rate-limit error, the secondary otherwise. *)
Definition groqFailure : JsError := mkError (Some "rate limit reached") (Some 429%Z).

Definition openaiFailure : JsError := mkError (Some "insufficient quota") (Some 401%Z).

Definition failingEnv : Gateway.Env :=
  Gateway.mkEnv (Some "sk-openai") ["a"; "b"]
                (fun _ => (10%N, Thrown openaiFailure))
                (fun _ _ _ => (10%N, Thrown groqFailure)).

(** Two retrieved candidates with the same title, both above the bar. *)
Definition sameTitleResults : list (Pipeline.Document * float) :=
  [(Pipeline.mkDocument (Some "first excerpt")
      (Pipeline.mkMetadata (Some "A v. B") (Some "SC") (Some "https://x/1.pdf")
                           None None None),
    0.9%float);
   (Pipeline.mkDocument (Some "second excerpt")
      (Pipeline.mkMetadata (Some "A v. B") (Some "HC") (Some "https://x/2.pdf")
                           None None None),
    0.7%float)].

(** A candidate below the bar of the chat pipeline. *)
Definition weakResult : Pipeline.Document * float :=
  (Pipeline.mkDocument (Some "unrelated excerpt")
     (Pipeline.mkMetadata (Some "C v. D") None None None None None),
   0.41%float).

(** The vector index answers with three candidates, the PDF store is down,
    and the provider yields two tokens. *)
Definition chatEnv : Pipeline.Env :=
  Pipeline.mkEnv ["k1"; "k2"]
    (fun _ _ => Returned (sameTitleResults ++ [weakResult]))
    (fun _ => Thrown (mkError (Some "timeout") None))
    (fun _ _ => (["Section 302 "; "punishes murder."], None))
    1000 2000.

(** The same, with a provider that fails after its first token. *)
Definition failingChatEnv : Pipeline.Env :=
  Pipeline.mkEnv ["k1"; "k2"]
    (fun _ _ => Returned (sameTitleResults ++ [weakResult]))
    (fun _ => Thrown (mkError (Some "timeout") None))
    (fun _ _ => (["Section 302 "], Some (mkError (Some "rate limit") (Some 429%Z))))
    1000 2000.

(** A user with nine uses, a user with ten, and no conversation yet. *)
Definition server0 : Pipeline.Server :=
  Pipeline.mkServer Rotator.initial false ∅
    (<["u9" := Pipeline.mkUser 9]> (<["u10" := Pipeline.mkUser 10]> ∅)) [].

Definition question (uid : string) : Pipeline.Request :=
  Pipeline.mkRequest "chat-1" (Some "What is Section 302 IPC?") uid.

Definition hello : Pipeline.Request :=
  Pipeline.mkRequest "chat-1" (Some "Hello!") "u9".

Definition coolingWorld : Gateway.World :=
  Gateway.mkWorld (Rotator.mkState 0 (<[Some "a" := 3%nat]> ∅) [(50000%N, Some "a")]) 0 [].

End Examples.

(* ================================================================== *)
(** * Successive selections *)
(* ================================================================== *)

Module Rotation.
Import Rotator.

(** [n] calls of [getNextGroqApiKey] in a row: the final state and the keys
    returned, in order. *)
Fixpoint selectMany (pool : list string) (n : nat) (st : State) : State * list ApiKey :=
  match n with
  | O => (st, [])
  | S n' =>
      let (st1, key) := getNextGroqApiKey pool st in
      let (st2, keys) := selectMany pool n' st1 in
      (st2, key :: keys)
  end.

(** No key of the pool has reached the failure limit. *)
Definition healthy (pool : list string) (st : State) : Prop :=
  forall k, k ∈ pool -> (failuresOf (keyFailureCounts st) (Some k) < 3)%nat.

End Rotation.

(* ================================================================== *)
(** * Further readings of a failover log *)
(* ================================================================== *)

Module FailoverCounts.
Import Gateway.

Definition isOpenAICall (c : Call) : bool :=
  match c with
  | OpenAICall _ => true
  | _ => false
  end.

(** The number of calls to the secondary backend. *)
Definition openaiCalls (log : list Call) : nat :=
  length (List.filter isOpenAICall log).

End FailoverCounts.

(* ================================================================== *)
(** * The failover among other requests *)
(* ================================================================== *)

(** The rotator is module-level state, and every provider call is awaited:
    while one run of the failover waits, other requests run and use the
    same rotator.  This module is the failover of [Gateway] with what the
    other requests do during each await made explicit. *)
Module Shared.
Import Rotator Gateway.

(** What another request does to the rotator: it takes the next key
    ([createGroqLLM], called by [getResources] and by every attempt of
    another run), or it reports a failed key ([markGroqKeyFailed]). *)
Inductive Action :=
| Selects
| Reports (apiKey : ApiKey).

Definition act (pool : list string) (now : N) (a : Action) (st : State) : State :=
  match a with
  | Selects => fst (getNextGroqApiKey pool st)
  | Reports apiKey => markGroqKeyFailed now apiKey st
  end.

(** The actions of the other requests during one await that begins at
    [start], each with its moment in milliseconds after [start]; the timers
    that have come due run before each of them. *)
Fixpoint interleave (pool : list string) (start : N) (others : list (N * Action))
  (st : State) : State :=
  match others with
  | [] => st
  | (t, a) :: rest =>
      interleave pool start rest (act pool (start + t)%N a (runTimers (start + t)%N st))
  end.

(** An [await] that lasts [d] milliseconds, during which the other requests
    do [others]. *)
Definition elapseAmong (pool : list string) (others : list (N * Action)) (d : N)
  (w : World) : World :=
  let now := (clock w + d)%N in
  mkWorld (runTimers now (interleave pool (clock w) others (rotator w))) now (calls w).

(** The awaits of one run. *)
Inductive Await :=
| FirstOpenAI
| Attempt (attempt : nat)
| LastOpenAI.

(** [await openaiLLM.invoke(prompt)] *)
Definition callOpenAI (env : Env) (prompt : string) (others : list (N * Action))
  (w : World) : World * Outcome Response :=
  let (d, result) := openaiInvoke env prompt in
  (record (OpenAICall result) (elapseAmong (GROQ_API_KEYS env) others d w), result).

(** The rotation loop. *)
Fixpoint groqLoop (env : Env) (prompt : string) (others : Await -> list (N * Action))
  (remaining attempt : nat) (lastError : option JsError) (w : World)
  : World * (Response + option JsError) :=
  match remaining with
  | O => (w, inr lastError)
  | S remaining' =>
      let (w1, apiKey) := createGroqLLM env w in
      let (d, result) := groqInvoke env attempt apiKey prompt in
      let w2 :=
        record (GroqCall attempt apiKey result)
               (elapseAmong (GROQ_API_KEYS env) (others (Attempt attempt)) d w1) in
      match result with
      | Returned response => (w2, inl response)
      | Thrown error =>
          let w3 :=
            record (KeyMarkedFailed apiKey)
                   (mkWorld (markGroqKeyFailed (clock w2) apiKey (rotator w2))
                            (clock w2) (calls w2)) in
          if rateLimited error
          then groqLoop env prompt others remaining' (S attempt) (Some error) w3
          else (w3, inr (Some error))
      end
  end.

(** [invokeLLMWithFallback(prompt, preferOpenAI)] *)
Definition invokeLLMWithFallback (env : Env) (prompt : string) (preferOpenAI : bool)
  (others : Await -> list (N * Action)) (w : World) : World * Outcome Response :=
  let (w1, early) :=
    if preferOpenAI && JS.truthy (OPENAI_API_KEY env)
    then
      match callOpenAI env prompt (others FirstOpenAI) w with
      | (w', Returned response) => (w', Some response)
      | (w', Thrown _) => (w', None)
      end
    else (w, None) in
  match early with
  | Some response => (w1, Returned response)
  | None =>
      match groqLoop env prompt others (length (GROQ_API_KEYS env)) 0 None w1 with
      | (w2, inl response) => (w2, Returned response)
      | (w2, inr lastError) =>
          if JS.truthy (OPENAI_API_KEY env) && negb preferOpenAI
          then
            match callOpenAI env prompt (others LastOpenAI) w2 with
            | (w3, Returned response) => (w3, Returned response)
            | (w3, Thrown _) => (w3, Thrown (finalError lastError))
            end
          else (w2, Thrown (finalError lastError))
      end
  end.

(** No other request touches the rotator during the awaits of the run. *)
Definition undisturbed (others : Await -> list (N * Action)) : Prop :=
  forall a, others a = [].

End Shared.

(* ================================================================== *)
(** * Text cleaning: [cleanLegalDocument] *)
(* ================================================================== *)

Module Text.

(** [s.split(sep)] for a separator of one character. *)
Fixpoint splitOn (sep : ascii) (s : string) : list string :=
  match s with
  | EmptyString => [EmptyString]
  | String c r =>
      if Ascii.eqb c sep then EmptyString :: splitOn sep r
      else
        match splitOn sep r with
        | w :: ws => String c w :: ws
        | [] => [String c EmptyString]
        end
  end.

(** [s.split(/\s+/)]: the pieces between the maximal runs of white space;
    a run at the start or at the end leaves an empty piece there.  [inRun]
    tells whether the previous character was white space. *)
Fixpoint splitRuns (inRun : bool) (s : string) : list string :=
  match s with
  | EmptyString => [EmptyString]
  | String c r =>
      if JS.isWhiteSpace c
      then (if inRun then splitRuns true r else EmptyString :: splitRuns true r)
      else
        match splitRuns false r with
        | w :: ws => String c w :: ws
        | [] => [String c EmptyString]
        end
  end.

Definition splitWhiteSpace (s : string) : list string := splitRuns false s.

(** [\d] *)
Definition isDigit (c : ascii) : bool :=
  let n := nat_of_ascii c in (48 <=? n)%nat && (n <=? 57)%nat.

Fixpoint allDigits (s : string) : bool :=
  match s with
  | EmptyString => true
  | String c r => isDigit c && allDigits r
  end.

(** [s.match(/^\d+$/)] is not null. *)
Definition isNumber (s : string) : bool :=
  negb (String.eqb s "") && allDigits s.

(** The filter of [cleanLegalDocument]: a line is dropped when, trimmed,
    it is a number. *)
Definition isPageNumberLine (line : string) : bool := isNumber (JS.trim line).

(** [cleanLegalDocument(text)] *)
Definition cleanLegalDocument (text : option string) : string :=
  match text with
  | None => ""
  | Some text =>
      if String.eqb text "" then ""
      else
        let lines := splitOn "010"%char text in
        let mainContent := List.filter (fun line => negb (isPageNumberLine line)) lines in
        let cleaned := String.concat Pipeline.nl mainContent in
        let cleaned := JS.trim (JS.collapseWhiteSpace cleaned) in
        JS.sliceTo (N.to_nat 15000) cleaned
  end.

(** A string is single-spaced from a position when every white-space
    character after it is a space that follows a character that is not
    white space; [afterSpace] tells whether the position follows a space. *)
Fixpoint singleSpacedFrom (afterSpace : bool) (s : string) : bool :=
  match s with
  | EmptyString => true
  | String c r =>
      if JS.isWhiteSpace c
      then Ascii.eqb c " " && negb afterSpace && singleSpacedFrom true r
      else singleSpacedFrom false r
  end.

(** Single-spaced and not starting with white space. *)
Definition singleSpaced (s : string) : bool := singleSpacedFrom true s.

End Text.

(* ================================================================== *)
(** * Summarization: [extractLegalStatutes], [summarizeLegalDocument],
      [summarizeDocument] *)
(* ================================================================== *)

Module Summary.
Import Rotator.

(** The object of statutes: names with their explanations. *)
Abbreviation Statutes := (list (string * string)).

(** The providers of the failover, the vector index (an awaited call that
    answers after some milliseconds), and the decoding of a provider's
    answer into statutes ([JSON.parse] with its line-by-line fallback), a
    function of the answer's text that may throw. *)
Record Env := mkEnv {
  providers : Gateway.Env;
  similaritySearchWithScore :
    string -> nat -> N * Outcome (list (Pipeline.Document * float));
  decodeStatutes : string -> Outcome Statutes
}.

(** The process: the state of the failover, the cached vector store and the
    searches made, in order. *)
Record State := mkState {
  world : Gateway.World;
  vectorStoreInstance : bool;
  searches : list (string * nat)
}.

Definition nl : string := Pipeline.nl.
Definition dquote : string := Pipeline.dquote.

Definition extractionPrompt (truncatedText : string) : string :=
  "You are an expert Indian legal analyst. Analyze this legal document and extract ALL applicable Indian laws, acts, sections, and legal provisions mentioned or relevant to the case."
  +:+ nl
  +:+ nl
  +:+ "For each statute/law found, provide:"
  +:+ nl
  +:+ "1. The official name (e.g., "
  +:+ dquote
  +:+ "Section 302 IPC"
  +:+ dquote
  +:+ ", "
  +:+ dquote
  +:+ "Contract Act, 1872"
  +:+ dquote
  +:+ ")"
  +:+ nl
  +:+ "2. A clear 2-3 sentence explanation of what it means and how it applies"
  +:+ nl
  +:+ nl
  +:+ "DOCUMENT:"
  +:+ nl
  +:+ truncatedText
  +:+ nl
  +:+ nl
  +:+ "IMPORTANT: Return your response as valid JSON only, no other text. Format:"
  +:+ nl
  +:+ "{"
  +:+ nl
  +:+ "  "
  +:+ dquote
  +:+ "Section 302 IPC"
  +:+ dquote
  +:+ ": "
  +:+ dquote
  +:+ "This section deals with punishment for murder under the Indian Penal Code. It prescribes either death penalty or life imprisonment along with fine for those convicted of murder."
  +:+ dquote
  +:+ ","
  +:+ nl
  +:+ "  "
  +:+ dquote
  +:+ "Section 34 IPC"
  +:+ dquote
  +:+ ": "
  +:+ dquote
  +:+ "This section addresses acts done by several persons in furtherance of common intention. When a criminal act is done by several persons, each person is liable as if the act was done by them alone."
  +:+ dquote
  +:+ nl
  +:+ "}"
  +:+ nl
  +:+ nl
  +:+ "If no specific statutes are found, return: {}".

Definition summaryPrompt (cleanedText : string) : string :=
  "You are an expert legal assistant specializing in summarizing legal documents."
  +:+ nl
  +:+ "Just give the summary, and don't write statements like "
  +:+ dquote
  +:+ "Here is a concise and coherent summary"
  +:+ dquote
  +:+ " or "
  +:+ dquote
  +:+ "The summary is as follows:"
  +:+ dquote
  +:+ "."
  +:+ nl
  +:+ nl
  +:+ "Summarize this legal document in about 500 words, focusing on the key facts, arguments, and conclusions:"
  +:+ nl
  +:+ nl
  +:+ cleanedText.

(** [inputText.split(/\s+/).slice(0, n).join(" ")] *)
Definition firstWords (n : N) (inputText : string) : string :=
  String.concat " " (firstn (N.to_nat n) (Text.splitWhiteSpace inputText)).

(** [extractLegalStatutes(inputText)]: one call of the failover, preferring
    the secondary backend; whatever is thrown inside is answered with the
    empty object. *)
Definition extractLegalStatutes (env : Env) (inputText : string) (st : State)
  : State * Statutes :=
  let truncatedText := firstWords 4000 inputText in
  match Gateway.invokeLLMWithFallback (providers env) (extractionPrompt truncatedText)
          true (world st) with
  | (w, Returned response) =>
      (mkState w (vectorStoreInstance st) (searches st),
       match decodeStatutes env (Gateway.content response) with
       | Returned parsed => parsed
       | Thrown _ => []
       end)
  | (w, Thrown _) => (mkState w (vectorStoreInstance st) (searches st), [])
  end.

(** [getResources()] as [summarizeLegalDocument] uses it: the store is
    cached and a client is built with the next key. *)
Definition getResources (env : Env) (st : State) : State :=
  let (w, _) := Gateway.createGroqLLM (providers env) (world st) in
  mkState w true (searches st).

(** [{ summary, sources, legalStatutes }] *)
Record Result := mkResult {
  summary : string;
  sources : list Pipeline.Source;
  legalStatutes : Statutes
}.

Definition emptyInput : JsError := mkError (Some "Input text is empty") None.

(** [summarizeLegalDocument(inputText)] *)
Definition summarizeLegalDocument (env : Env) (inputText : string) (st : State)
  : State * Outcome Result :=
  let cleanedText := Text.cleanLegalDocument (Some inputText) in
  if String.eqb cleanedText "" then (st, Thrown emptyInput)
  else
    match Gateway.invokeLLMWithFallback (providers env) (summaryPrompt cleanedText)
            false (world st) with
    | (w, Thrown e) => (mkState w (vectorStoreInstance st) (searches st), Thrown e)
    | (w, Returned summaryResponse) =>
        let st1 := getResources env (mkState w (vectorStoreInstance st) (searches st)) in
        let query := Gateway.content summaryResponse in
        let (d, found) := similaritySearchWithScore env query 5 in
        let st2 := mkState (Gateway.elapse d (world st1)) (vectorStoreInstance st1)
                           (searches st1 ++ [(query, 5%nat)]) in
        match found with
        | Thrown e => (st2, Thrown e)
        | Returned similarDocs =>
            let uniqueSources := Summarize.uniqueSourcesOf similarDocs in
            let (st3, statutes) := extractLegalStatutes env inputText st2 in
            (st3, Returned (mkResult query uniqueSources statutes))
        end
    end.

(** [data] of the success response. *)
Record SummaryData := mkData {
  summary_text : string;
  paths : list Pipeline.Source;
  data_legalStatutes : Statutes
}.

(** [res.status(code).json({ message, success, data })] *)
Record Reply := mkReply {
  code : nat;
  reply_message : string;
  reply_success : bool;
  data : option SummaryData
}.

(** The [catch] block of [summarizeDocument]; [error.message.includes] of a
    missing message throws. *)
Definition errorReply (error : JsError) : Outcome Reply :=
  match message error with
  | None =>
      Thrown (mkError (Some "Cannot read properties of undefined (reading 'includes')")
                      None)
  | Some m =>
      let errorMessage :=
        if JS.includes "empty" m then "Input text is empty after preprocessing"
        else if JS.includes "Failed to generate" m
             then "Failed to generate summary. Please try again."
             else "Internal Server Error" in
      Returned (mkReply 500 errorMessage false None)
  end.

(** [summarizeDocument(req, res)] with [req.body.input_text]. *)
Definition summarizeDocument (env : Env) (input_text : option string) (st : State)
  : State * Outcome Reply :=
  match input_text with
  | None => (st, Returned (mkReply 400 "Input text is required" false None))
  | Some text =>
      if String.eqb text "" || (String.length (JS.trim text) =? 0)%nat
      then (st, Returned (mkReply 400 "Input text is required" false None))
      else
        let wordCount := N.of_nat (length (Text.splitWhiteSpace text)) in
        let text := if (10000 <? wordCount)%N then firstWords 10000 text else text in
        match summarizeLegalDocument env text st with
        | (st', Returned r) =>
            (st', Returned (mkReply 200 "Document summarized successfully" true
                              (Some (mkData (summary r) (sources r) (legalStatutes r)))))
        | (st', Thrown error) => (st', errorReply error)
        end
  end.

(** The request carries no text: [input_text] is missing, empty or white
    space only. *)
Definition blank (input_text : option string) : Prop :=
  match input_text with
  | None => True
  | Some text => JS.trim text = ""
  end.

(** The messages of the failure replies. *)
Definition failureMessages : list string :=
  ["Input text is empty after preprocessing";
   "Failed to generate summary. Please try again.";
   "Internal Server Error"].

End Summary.

(* ================================================================== *)
(** * The effects of the streaming function, as a function of its inputs *)
(* ================================================================== *)

Module Evidence.
Import Rotator Pipeline.

(** [m.source_url || m.r2_url], the URL handed to [fetchPdfText]. *)
Definition pdfUrlOf (r : Document * float) : option string :=
  JS.orOpt (m_source_url (metadata (fst r))) (m_r2_url (metadata (fst r))).

(** The download [fetchPdfText] starts for a URL: none for a missing or
    empty URL and for ["#"]. *)
Definition downloads (pdfUrl : option string) : list Effect :=
  match pdfUrl with
  | None => []
  | Some url => if String.eqb url "" || String.eqb url "#" then [] else [FetchPdf url]
  end.

(** What [fetchPdfText] returns. *)
Definition fetchedText (env : Env) (pdfUrl : option string) (maxChars : N) : option string :=
  match pdfUrl with
  | None => None
  | Some url =>
      if String.eqb url "" || String.eqb url "#" then None
      else
        match downloadPdfText env url with
        | Returned (Some raw) =>
            let text := JS.trim (JS.collapseWhiteSpace raw) in
            if negb (String.eqb text "") && (100 <? String.length text)%nat
            then Some (JS.sliceTo (N.to_nat maxChars) text)
            else None
        | _ => None
        end
  end.

(** What [enrich] returns. *)
Definition enriched (env : Env) (r : Document * float) : Document * string :=
  let fullText := fetchedText env (pdfUrlOf r) 8000 in
  (fst r, if JS.truthy fullText then default "" fullText else snippetOf (fst r)).

(** The context text of step C. *)
Definition contextFor (env : Env) (validDocs : list (Document * float)) : string :=
  match validDocs with
  | [] => "NO SPECIFIC CASE FILES FOUND."
  | _ =>
      contextOf (map (enriched env) (firstn 2 validDocs)
                 ++ map (fun r => (fst r, snippetOf (fst r))) (skipn 2 validDocs))
  end.

(** The effects and the outcome of the body of the streaming function once
    the client [llm] is built. *)
Definition streamEffects (env : Env) (llm : ApiKey) (userInput : string)
  (chatHistory : list HistoryEntry) : list Effect * Outcome StreamResult :=
  if isGreeting userInput
  then ([Write (SourcesEvent []); Write (ChunkEvent greetingText); Write EndEvent],
        Returned (mkResult "Greeting" []))
  else
    match similaritySearchWithScore env (cleanQueryOf userInput) 4 with
    | Thrown e =>
        ([Search (cleanQueryOf userInput) 4;
          Write (ErrorEvent (ErrorText "Internal Server Error"))],
         Thrown e)
    | Returned results =>
        let validDocs := validDocsOf results in
        let cited := uniqueSourcesOf validDocs in
        let messages := messagesOf (contextFor env validDocs) chatHistory userInput in
        (Search (cleanQueryOf userInput) 4
         :: flat_map (fun r => downloads (pdfUrlOf r)) (firstn 2 validDocs)
         ++ Write (SourcesEvent cited)
         :: LlmStream llm messages
         :: map (fun t => Write (ChunkEvent t)) (fst (llmStream env llm messages))
         ++ [match snd (llmStream env llm messages) with
             | None => Write EndEvent
             | Some _ => Write (ErrorEvent (ErrorText "Internal Server Error"))
             end],
         match snd (llmStream env llm messages) with
         | None => Returned (mkResult (String.concat "" (fst (llmStream env llm messages)))
                                      cited)
         | Some e => Thrown e
         end)
    end.

(** The numbers of PDF downloads and of generation calls in a trace. *)
Definition fetchCalls (t : list Effect) : nat :=
  length (List.filter (fun e => match e with FetchPdf _ => true | _ => false end) t).

Definition llmCalls (t : list Effect) : nat :=
  length (List.filter (fun e => match e with LlmStream _ _ => true | _ => false end) t).

End Evidence.

(* ================================================================== *)
(** * Strings as code units *)
(* ================================================================== *)

Module CodeUnits.

(** A JavaScript string is a sequence of 16-bit code units.  The strings of
    this embedding are those whose code units are all below 256: [latin1]
    reads such a sequence as a [string], and gives nothing for a sequence
    with a code unit from 256 on. *)
Fixpoint latin1 (units : list N) : option string :=
  match units with
  | [] => Some EmptyString
  | u :: rest =>
      if (u <? 256)%N
      then option_map (String (ascii_of_N u)) (latin1 rest)
      else None
  end.

End CodeUnits.

(* ================================================================== *)
(** * The response of one request of [updateChat] *)
(* ================================================================== *)

Module Replies.
Import Rotator Pipeline Runs.

(** The effects on the response object [res]. *)
Definition isResponseEffect (e : Effect) : bool :=
  match e with
  | SetHeader _ _ | FlushHeaders | SendJson _ _ | Write _ | EndResponse => true
  | _ => false
  end.

(** What is done on the response of a request, in order. *)
Definition responseOf (t : list Effect) : list Effect := List.filter isResponseEffect t.

(** The opening of an event stream. *)
Definition sseHeaders : list Effect :=
  [SetHeader "Content-Type" "text/event-stream";
   SetHeader "Cache-Control" "no-cache";
   SetHeader "Connection" "keep-alive";
   FlushHeaders].

(** The conversations after the pre-SSE validation has looked the
    conversation up: a missing one has been created for the requesting
    user. *)
Definition chatsAfterLookup (s : Server) (req : Request) : gmap string Chat :=
  match chats s !! chatId req with
  | Some _ => chats s
  | None => <[chatId req := mkChat (userId req) false []]> (chats s)
  end.

End Replies.

(* ================================================================== *)
(** * The other chat controllers: [createChat], [getChat], [deleteChat] *)
(* ================================================================== *)

Module ChatApi.
Import Pipeline.

(** The conversation inside [chatdemo]. *)
Record DemoData := mkDemoData {
  d_id : string;
  d_user : string;
  d_chatId : string;
  d_ispinned : bool;
  d_chatHistory : list Turn;
  d_v : Z
}.

(** The module-level object [chatdemo]; [demo_chatId] is the property
    [chatdemo.chatId], which the object does not have at the start. *)
Record ChatDemo := mkChatDemo {
  demo_message : string;
  demo_success : bool;
  demo_data : DemoData;
  demo_chatId : option string
}.

Definition chatdemo : ChatDemo :=
  mkChatDemo "Chat found" true
    (mkDemoData "675a37c3bb028b270debe3cd" "67598849e330532b239f4a29"
                "8826a73a-cd85-4013-af22-1ac23fb4aab7" false [] 0)
    None.

(** The [data] of a reply: a stored conversation with its [chatId], or the
    demo object. *)
Inductive Payload :=
| StoredChat (id : string) (c : Chat)
| DemoObject (d : ChatDemo).

(** [res.status(code).json({ message, success, data })] *)
Record Reply := mkReply {
  code : nat;
  reply_message : string;
  reply_success : bool;
  data : option Payload
}.

Definition internalError : Reply := mkReply 500 "Internal Server Error" false None.

(** The process as these controllers see it: the database and [chatdemo]. *)
Record State := mkState {
  server : Server;
  demo : ChatDemo
}.

Definition withChats (st : State) (cs : gmap string Chat) : State :=
  mkState (mkServer (rotator (server st)) (vectorStoreInstance (server st)) cs
                    (users (server st)) (trace (server st)))
          (demo st).

(** A query of the database rejects with [dbError] when there is one. *)
Definition findOne (dbError : option JsError) (id : string) (st : State)
  : Outcome (option Chat) :=
  match dbError with
  | Some e => Thrown e
  | None => Returned (chats (server st) !! id)
  end.

Definition validationError : JsError :=
  mkError (Some "Chats validation failed: user: Path `user` is required.") None.

Definition duplicateKey : JsError :=
  mkError (Some "E11000 duplicate key error") None.

(** [Chats.create(doc)] under the schema of the model: [user] and [chatId]
    are required, [chatId] is unique, [ispinned] is false by default. *)
Definition create (id : option string) (user : option string) (st : State)
  : State * Outcome Chat :=
  match id, user with
  | Some id, Some u =>
      match chats (server st) !! id with
      | Some _ => (st, Thrown duplicateKey)
      | None =>
          let chat := mkChat u false [] in
          (withChats st (<[id := chat]> (chats (server st))), Returned chat)
      end
  | _, _ => (st, Thrown validationError)
  end.

(** [createChat(req, res)] for a body with the string [chatId]. *)
Definition createChat (dbError : option JsError) (chatId : string) (st : State)
  : State * Reply :=
  match findOne dbError chatId st with
  | Thrown _ => (st, internalError)
  | Returned (Some _) => (st, mkReply 400 "Chat already exists" false None)
  | Returned None =>
      match create (Some chatId) None st with
      | (st', Returned chat) =>
          (st', mkReply 201 "Chat created" true (Some (StoredChat chatId chat)))
      | (st', Thrown _) => (st', internalError)
      end
  end.

(** [getChat(req, res)] *)
Definition getChat (dbError : option JsError) (chatId : string) (st : State)
  : State * Reply :=
  match findOne dbError chatId st with
  | Thrown _ => (st, internalError)
  | Returned (Some chat) =>
      (st, mkReply 200 "Chat found" true (Some (StoredChat chatId chat)))
  | Returned None =>
      let d := mkChatDemo (demo_message (demo st)) (demo_success (demo st))
                          (demo_data (demo st)) (Some chatId) in
      (mkState (server st) d, mkReply 200 "Chat not found" true (Some (DemoObject d)))
  end.

(** [deleteChat(req, res)]; the [catch] block is empty, so that a rejected
    query leaves the request without a reply. *)
Definition deleteChat (dbError : option JsError) (chatId : string) (st : State)
  : State * option Reply :=
  match findOne dbError chatId st with
  | Thrown _ => (st, None)
  | Returned (Some chat) =>
      (withChats st (delete chatId (chats (server st))),
       Some (mkReply 200 "Chat deleted" true (Some (StoredChat chatId chat))))
  | Returned None => (st, Some (mkReply 404 "Chat not found" false None))
  end.

(** A state reached from the start of the process: [chatdemo] has its
    initial properties, but for [chatId]. *)
Definition reachable (st : State) : Prop :=
  exists id, demo st = mkChatDemo "Chat found" true (demo_data chatdemo) id.

End ChatApi.

(* ================================================================== *)
(** * The earlier streaming function: the simulated stream *)
(* ================================================================== *)

Module Legacy.

(** [answer.split(' ')] *)
Definition wordsOf (answer : string) : list string := Text.splitOn " "%char answer.

(** The chunk written at index [i]:
    [words.slice(i, i + 3).join(' ') + (i + 3 < words.length ? ' ' : '')]. *)
Definition chunkAt (words : list string) (i : nat) : string :=
  String.concat " " (firstn 3 (skipn i words))
  +:+ (if (i + 3 <? length words)%nat then " " else "").

(** [for (let i = 0; i < words.length; i += chunkSize)], with the number of
    iterations bounded by [fuel]. *)
Fixpoint chunkLoop (fuel : nat) (i : nat) (words : list string) : list string :=
  match fuel with
  | O => []
  | S fuel' =>
      if (i <? length words)%nat
      then chunkAt words i :: chunkLoop fuel' (i + 3) words
      else []
  end.

(** The chunks written for an answer; the loop ends within as many
    iterations as there are words. *)
Definition chunksOf (answer : string) : list string :=
  chunkLoop (length (wordsOf answer)) 0 (wordsOf answer).

End Legacy.

(* ================================================================== *)
(** * Further concrete inputs *)
(* ================================================================== *)

Module Scenarios.

(** No credential for the primary backend and no key for the secondary. *)
Definition noProviderEnv : Gateway.Env :=
  Gateway.mkEnv None []
                (fun _ => (10%N, Thrown Examples.openaiFailure))
                (fun _ _ _ => (10%N, Thrown Examples.groqFailure)).

(** A two-key pool with nothing failed yet. *)
Definition freshWorld : Gateway.World := Gateway.mkWorld Rotator.initial 0 [].

(** A summarization set-up: the primary backend answers the summary prompt
    and fails on every other prompt, the secondary backend fails, the
    vector index returns the three example candidates. *)
Definition summaryEnv : Summary.Env :=
  Summary.mkEnv
    (Gateway.mkEnv (Some "sk-openai") ["a"; "b"]
       (fun _ => (10%N, Thrown Examples.openaiFailure))
       (fun _ _ prompt =>
          if String.prefix "You are an expert legal assistant" prompt
          then (10%N, Returned (Gateway.mkResponse "The court held for the buyer."))
          else (10%N, Thrown Examples.groqFailure)))
    (fun _ _ => (5%N, Returned (Examples.sameTitleResults ++ [Examples.weakResult])))
    (fun _ => Returned []).

Definition summaryState : Summary.State := Summary.mkState freshWorld false [].

(** A document that consists of page numbers. *)
Definition pageNumbers : string := "12" +:+ Pipeline.nl +:+ " 34 ".

(** The vector index finds nothing above the bar; the provider yields one
    token. *)
Definition weakEnv : Pipeline.Env :=
  Pipeline.mkEnv ["k1"; "k2"]
    (fun _ _ => Returned [Examples.weakResult])
    (fun _ => Thrown (mkError (Some "timeout") None))
    (fun _ _ => (["In general, "], None))
    1000 2000.

(** During the first attempt of a run, five milliseconds into the await,
    another request takes a key from the rotator. *)
Definition oneSelection (a : Shared.Await) : list (N * Shared.Action) :=
  match a with
  | Shared.Attempt 0 => [(5%N, Shared.Selects)]
  | _ => []
  end.

End Scenarios.

(* ================================================================== *)
(** * Credential selection *)
(* ================================================================== *)

Section RotatorFacts.
Import Rotator.

Variable pool : list string.
Variable st : State.

Lemma scanKeys_Some offsets index key :
  scanKeys pool st offsets = Some (index, key) ->
  key = pool !! index
  /\ (failuresOf (keyFailureCounts st) key < 3)%nat
  /\ exists i, i ∈ offsets /\ index = ((currentGroqKeyIndex st + i) mod length pool)%nat.
Proof.
  induction offsets as [|i rest IH]; simpl; [discriminate|].
  destruct (Nat.ltb_spec
              (failuresOf (keyFailureCounts st)
                 (pool !! ((currentGroqKeyIndex st + i) mod length pool)%nat)) 3)
    as [Hlt|Hge].
  - intros [= <- <-]. repeat split; [exact Hlt|].
    exists i. split; [left | reflexivity].
  - intros H. destruct (IH H) as (Hk & Hf & j & Hj & Hidx).
    repeat split; [exact Hk | exact Hf |].
    exists j. split; [right; exact Hj | exact Hidx].
Qed.

Lemma scanKeys_None offsets :
  scanKeys pool st offsets = None ->
  forall i, i ∈ offsets ->
    (3 <= failuresOf (keyFailureCounts st)
            (pool !! ((currentGroqKeyIndex st + i) mod length pool)%nat))%nat.
Proof.
  induction offsets as [|j rest IH]; simpl; intros H i Hi.
  - inversion Hi.
  - destruct (Nat.ltb_spec
                (failuresOf (keyFailureCounts st)
                   (pool !! ((currentGroqKeyIndex st + j) mod length pool)%nat)) 3)
      as [Hlt|Hge]; [discriminate|].
    apply elem_of_cons in Hi as [->|Hi]; [exact Hge | exact (IH H i Hi)].
Qed.

(** Every slot of the pool is visited by one offset of the loop. *)
Lemma offset_reaches (cur j : nat) :
  (j < length pool)%nat ->
  exists i, (i < length pool)%nat /\ ((cur + i) mod length pool)%nat = j.
Proof.
  intros Hj. set (n := length pool) in *.
  assert (Hn : n <> 0%nat) by lia.
  exists ((j + (n - cur mod n)) mod n)%nat. split.
  - apply Nat.mod_upper_bound; exact Hn.
  - rewrite Nat.Div0.add_mod_idemp_r.
    rewrite <- Nat.Div0.add_mod_idemp_l.
    pose proof (Nat.mod_upper_bound cur n Hn) as Hc.
    replace (cur mod n + (j + (n - cur mod n)))%nat with (j + 1 * n)%nat by lia.
    rewrite Nat.Div0.mod_add. apply Nat.mod_small; exact Hj.
Qed.

Lemma scanKeys_exhausted :
  scanKeys pool st (seq 0 (length pool)) = None ->
  forall k, k ∈ pool -> (3 <= failuresOf (keyFailureCounts st) (Some k))%nat.
Proof.
  intros Hnone k Hk.
  apply list_elem_of_lookup in Hk as [j Hj].
  pose proof (lookup_lt_Some _ _ _ Hj) as Hlt.
  destruct (offset_reaches (currentGroqKeyIndex st) j Hlt) as (i & Hi & Hidx).
  pose proof (scanKeys_None _ Hnone i) as H.
  rewrite Hidx, Hj in H. apply H.
  apply elem_of_seq. lia.
Qed.

End RotatorFacts.

Section CooldownFacts.
Import Rotator.

(** A reported failure raises the counter of its key by one. *)
Lemma markGroqKeyFailed_counts now key st :
  failuresOf (keyFailureCounts (markGroqKeyFailed now key st)) key
  = S (failuresOf (keyFailureCounts st) key).
Proof.
  unfold markGroqKeyFailed, failuresOf. simpl.
  rewrite lookup_insert_eq. simpl. lia.
Qed.

Lemma markGroqKeyFailed_other now key key' st :
  key <> key' ->
  failuresOf (keyFailureCounts (markGroqKeyFailed now key st)) key'
  = failuresOf (keyFailureCounts st) key'.
Proof.
  intros Hne. unfold markGroqKeyFailed, failuresOf. simpl.
  rewrite lookup_insert_ne by exact Hne. reflexivity.
Qed.

Lemma fold_delete_lookup (due : list (N * option string)) :
  forall (counts : gmap (option string) nat) key,
    (exists t, t ∈ due /\ snd t = key) ->
    fold_left (fun m t => delete (snd t) m) due counts !! key = None.
Proof.
  induction due as [|t due IH]; intros counts key (t0 & Hin & Hkey).
  - inversion Hin.
  - simpl. apply elem_of_cons in Hin as [->|Hin].
    + clear IH. subst key. generalize (delete (snd t) counts), (lookup_delete_eq counts (snd t)).
      induction due as [|t' due IH]; intros m Hm; simpl; [exact Hm|].
      apply IH. destruct (decide (snd t' = snd t)) as [->|Hne].
      * apply lookup_delete_eq.
      * rewrite lookup_delete_ne by exact Hne. exact Hm.
    + apply IH. exists t0. split; assumption.
Qed.

(** Sixty seconds after a reported failure the counter of its key is back
    to zero. *)
Lemma runTimers_resets now later key st :
  (now + 60000 <= later)%N ->
  failuresOf (keyFailureCounts (runTimers later (markGroqKeyFailed now key st))) key = 0%nat.
Proof.
  intros Hlater. unfold runTimers, failuresOf. cbn [keyFailureCounts].
  rewrite fold_delete_lookup; [reflexivity|].
  exists ((now + 60000)%N, key). split; [|reflexivity].
  apply list_elem_of_In, filter_In. split.
  - unfold markGroqKeyFailed. simpl. apply in_or_app. right. left. reflexivity.
  - simpl. apply N.leb_le. exact Hlater.
Qed.

End CooldownFacts.

(** C6.  For a pool of at least one credential, [getNextGroqApiKey] returns
    a credential of the pool.  Its recorded failure count is below 3, unless
    every credential of the pool has a count of 3 or more: then the returned
    credential is the first of the pool and all counters have been cleared. *)
Theorem getNextGroqApiKey_skips_failed_keys (pool : list string) (st : Rotator.State) :
  (1 <= length pool)%nat ->
  exists k,
    snd (Rotator.getNextGroqApiKey pool st) = Some k
    /\ k ∈ pool
    /\ ((Rotator.failuresOf (Rotator.keyFailureCounts st) (Some k) < 3)%nat
        \/ ((forall k', k' ∈ pool ->
               (3 <= Rotator.failuresOf (Rotator.keyFailureCounts st) (Some k'))%nat)
            /\ Rotator.keyFailureCounts (fst (Rotator.getNextGroqApiKey pool st)) = ∅
            /\ pool !! 0%nat = Some k)).
Proof.
  intros Hn. unfold Rotator.getNextGroqApiKey.
  destruct (Rotator.scanKeys pool st (seq 0 (length pool))) as [[index key]|] eqn:Hscan.
  - destruct (scanKeys_Some _ _ _ _ _ Hscan) as (Hkey & Hf & i & _ & Hidx).
    assert (Hlt : (index < length pool)%nat).
    { subst index. apply Nat.mod_upper_bound. lia. }
    destruct (lookup_lt_is_Some_2 pool index Hlt) as [k Hk].
    exists k. simpl. rewrite Hkey, Hk. split; [reflexivity|]. split.
    + apply list_elem_of_lookup. exists index. exact Hk.
    + left. rewrite <- Hk, <- Hkey. exact Hf.
  - destruct pool as [|k0 rest] eqn:Hpool; [simpl in Hn; lia|].
    exists k0. simpl. split; [reflexivity|]. split; [left|].
    right. split; [|split; reflexivity].
    rewrite <- Hpool in Hscan |- *. exact (scanKeys_exhausted pool st Hscan).
Qed.

Lemma getNextGroqApiKey_skips_failed_keys_witness :
  exists k,
    snd (Rotator.getNextGroqApiKey Examples.pool3 Examples.rotatorAtB) = Some k
    /\ k ∈ Examples.pool3
    /\ ((Rotator.failuresOf (Rotator.keyFailureCounts Examples.rotatorAtB) (Some k) < 3)%nat
        \/ ((forall k', k' ∈ Examples.pool3 ->
               (3 <= Rotator.failuresOf (Rotator.keyFailureCounts Examples.rotatorAtB)
                       (Some k'))%nat)
            /\ Rotator.keyFailureCounts
                 (fst (Rotator.getNextGroqApiKey Examples.pool3 Examples.rotatorAtB)) = ∅
            /\ Examples.pool3 !! 0%nat = Some k)).
Proof.
  apply (getNextGroqApiKey_skips_failed_keys Examples.pool3 Examples.rotatorAtB).
  simpl. lia.
Defined.

(* ================================================================== *)
(** * Provider failover *)
(* ================================================================== *)

Section FailoverFacts.
Import Rotator Gateway FailoverLog.

Variable env : Gateway.Env.
Variable prompt : string.

Lemma createGroqLLM_calls w : calls (fst (createGroqLLM env w)) = calls w.
Proof.
  unfold createGroqLLM.
  destruct (getNextGroqApiKey (Gateway.GROQ_API_KEYS env) (Gateway.rotator w)); reflexivity.
Qed.

(** The loop writes a log of the shape [LoopLog]. *)
Lemma groqLoop_log remaining :
  forall attempt lastError w,
  exists log,
    calls (fst (groqLoop env prompt remaining attempt lastError w)) = calls w ++ log
    /\ LoopLog remaining lastError log
               (snd (groqLoop env prompt remaining attempt lastError w)).
Proof.
  induction remaining as [|n IH]; intros attempt lastError w; simpl.
  - exists []. split; [symmetry; apply app_nil_r | constructor].
  - pose proof (createGroqLLM_calls w) as Hc.
    destruct (createGroqLLM env w) as [w1 apiKey]. simpl in Hc.
    destruct (groqInvoke env attempt apiKey prompt) as [d [response|e]].
    + exists [GroqCall attempt apiKey (Returned response)]. simpl.
      rewrite Hc. split; [reflexivity | constructor].
    + destruct (rateLimited e) eqn:Hrate.
      * match goal with
        | |- context [groqLoop env prompt n (S attempt) (Some e) ?w3] =>
            destruct (IH (S attempt) (Some e) w3) as (log & Hlog & Hshape)
        end.
        exists (GroqCall attempt apiKey (Thrown e) :: KeyMarkedFailed apiKey :: log).
        split.
        -- rewrite Hlog. simpl. rewrite Hc, <- !app_assoc. reflexivity.
        -- constructor; assumption.
      * exists [GroqCall attempt apiKey (Thrown e); KeyMarkedFailed apiKey]. simpl.
        split.
        -- rewrite Hc, <- !app_assoc. reflexivity.
        -- constructor; assumption.
Qed.

End FailoverFacts.

Section LoopLogFacts.
Import Rotator Gateway FailoverLog.

Lemma LoopLog_bound n lastError log res :
  LoopLog n lastError log res -> (length (groqResults log) <= n)%nat.
Proof. induction 1; simpl in *; lia. Qed.

Lemma LoopLog_nonempty n lastError log res :
  LoopLog (S n) lastError log res -> (1 <= length (groqResults log))%nat.
Proof. inversion 1; simpl; lia. Qed.

Lemma LoopLog_reported n lastError log res tail :
  LoopLog n lastError log res ->
  failuresReported (log ++ tail) = failuresReported tail.
Proof.
  induction 1; simpl; try reflexivity.
  - rewrite bool_decide_eq_true_2 by reflexivity. reflexivity.
  - rewrite bool_decide_eq_true_2 by reflexivity. simpl. assumption.
Qed.

(** A failure that is not a rate limit ends the attempts; a rate-limit
    failure is followed by another attempt until the pool size is reached. *)
Lemma LoopLog_classified n lastError log res :
  LoopLog n lastError log res ->
  forall i e,
    groqResults log !! i = Some (Thrown e) ->
    if rateLimited e
    then (i + 1 < length (groqResults log))%nat \/ (i + 1)%nat = n
    else (i + 1)%nat = length (groqResults log).
Proof.
  induction 1 as [| | ? ? ? ? e0 Hrate | n lastError attempt k e0 log res Hrate Hlog IH];
    intros i e Hi; simpl in *.
  - destruct i; discriminate.
  - destruct i as [|[|i]]; discriminate.
  - destruct i as [|[|i]]; try discriminate.
    injection Hi as <-. rewrite Hrate. reflexivity.
  - destruct i as [|i].
    + injection Hi as <-. rewrite Hrate.
      destruct n as [|n].
      * right. reflexivity.
      * left. pose proof (LoopLog_nonempty _ _ _ _ Hlog). lia.
    + specialize (IH i e Hi). destruct (rateLimited e); lia.
Qed.

Lemma LoopLog_returned_last n lastError log res :
  LoopLog n lastError log res ->
  forall i resp,
    groqResults log !! i = Some (Returned resp) ->
    (i + 1)%nat = length (groqResults log) /\ res = inl resp.
Proof.
  induction 1 as [| | |n lastError attempt k e0 log res Hrate Hlog IH];
    intros i resp Hi; simpl in *.
  - destruct i; discriminate.
  - destruct i as [|[|i]]; try discriminate. injection Hi as <-. split; reflexivity.
  - destruct i as [|[|i]]; discriminate.
  - destruct i as [|i]; [discriminate|].
    destruct (IH i resp Hi) as [Hlen Hres]. split; [lia | exact Hres].
Qed.

(** What the loop yields: the response of its last attempt, or the last
    error of its attempts (the incoming [lastError] when it made none). *)
Lemma LoopLog_outcome n lastError log res :
  LoopLog n lastError log res ->
  match res with
  | inl response => last (groqResults log) = Some (Returned response)
  | inr e => Forall failed (groqResults log)
             /\ e = lastErrorFrom lastError (groqResults log)
  end.
Proof.
  induction 1 as [| | |n lastError attempt k e0 log res Hrate Hlog IH]; simpl.
  - split; [constructor | reflexivity].
  - reflexivity.
  - split; [repeat constructor | reflexivity].
  - destruct res as [response|e].
    + destruct (groqResults log) as [|r rs]; [discriminate | exact IH].
    + destruct IH as [Hall He]. split; [constructor; [exact I | exact Hall] | exact He].
Qed.

End LoopLogFacts.

Section InvokeFacts.
Import Rotator Gateway FailoverLog.

Lemma LoopLog_provider n lastError log res :
  LoopLog n lastError log res -> providerResults log = groqResults log.
Proof. induction 1; simpl; congruence. Qed.

Lemma callOpenAI_calls env prompt w :
  calls (fst (callOpenAI env prompt w))
  = calls w ++ [OpenAICall (snd (callOpenAI env prompt w))].
Proof. unfold callOpenAI. destruct (openaiInvoke env prompt); reflexivity. Qed.

Lemma groqResults_app l1 l2 : groqResults (l1 ++ l2) = groqResults l1 ++ groqResults l2.
Proof. apply flat_map_app. Qed.

Lemma providerResults_app l1 l2 :
  providerResults (l1 ++ l2) = providerResults l1 ++ providerResults l2.
Proof. apply flat_map_app. Qed.

Lemma lastErrorFrom_app init rs1 rs2 :
  lastErrorFrom init (rs1 ++ rs2) = lastErrorFrom (lastErrorFrom init rs1) rs2.
Proof. apply fold_left_app. Qed.

(** The calls of one run: an optional first call to the secondary backend,
    the rotation loop, and an optional last call to the secondary backend;
    with the result in each case. *)
Lemma invokeLLMWithFallback_log env prompt preferOpenAI w :
  exists pre loop post res,
    calls (fst (invokeLLMWithFallback env prompt preferOpenAI w))
    = calls w ++ pre ++ loop ++ post
    /\ ((exists response,
           pre = [OpenAICall (Returned response)] /\ loop = [] /\ post = []
           /\ snd (invokeLLMWithFallback env prompt preferOpenAI w) = Returned response)
        \/ ((pre = [] \/ exists e, pre = [OpenAICall (Thrown e)])
            /\ (JS.truthy (OPENAI_API_KEY env) = true -> preferOpenAI = true -> pre <> [])
            /\ LoopLog (length (GROQ_API_KEYS env)) None loop res
            /\ match res with
               | inl response =>
                   post = []
                   /\ snd (invokeLLMWithFallback env prompt preferOpenAI w)
                      = Returned response
               | inr lastError =>
                   (post = []
                    /\ (JS.truthy (OPENAI_API_KEY env) = true -> preferOpenAI = true)
                    /\ snd (invokeLLMWithFallback env prompt preferOpenAI w)
                       = Thrown (finalError lastError))
                   \/ (exists response,
                         post = [OpenAICall (Returned response)]
                         /\ snd (invokeLLMWithFallback env prompt preferOpenAI w)
                            = Returned response)
                   \/ (exists e,
                         post = [OpenAICall (Thrown e)]
                         /\ snd (invokeLLMWithFallback env prompt preferOpenAI w)
                            = Thrown (finalError lastError))
               end)).
Proof.
  unfold invokeLLMWithFallback.
  destruct (preferOpenAI && JS.truthy (OPENAI_API_KEY env)) eqn:Hfirst.
  - apply andb_true_iff in Hfirst as [-> Hkey].
    pose proof (callOpenAI_calls env prompt w) as Hc.
    destruct (callOpenAI env prompt w) as [w1 [response|e]]; simpl in Hc.
    + exists [OpenAICall (Returned response)], [], [], (inl response).
      split; [simpl; rewrite Hc; reflexivity|].
      left. exists response. repeat split.
    + destruct (groqLoop_log env prompt (length (GROQ_API_KEYS env)) 0 None w1)
        as (loop & Hloop & Hshape).
      destruct (groqLoop env prompt (length (GROQ_API_KEYS env)) 0 None w1)
        as [w2 [response|lastError]]; simpl in Hloop, Hshape.
      * exists [OpenAICall (Thrown e)], loop, [], (inl response).
        split; [simpl; rewrite Hloop, Hc, app_nil_r, <- app_assoc; reflexivity|].
        right. split; [right; exists e; reflexivity|].
        split; [discriminate|]. split; [exact Hshape|]. split; reflexivity.
      * rewrite Hkey. simpl.
        exists [OpenAICall (Thrown e)], loop, [], (inr lastError).
        split; [simpl; rewrite Hloop, Hc, app_nil_r, <- app_assoc; reflexivity|].
        right. split; [right; exists e; reflexivity|].
        split; [discriminate|]. split; [exact Hshape|].
        left. repeat split.
  - assert (Hpre : JS.truthy (OPENAI_API_KEY env) = true -> preferOpenAI = true
                   -> @nil Call <> []).
    { intros Hk ->. rewrite Hk in Hfirst. discriminate. }
    destruct (groqLoop_log env prompt (length (GROQ_API_KEYS env)) 0 None w)
      as (loop & Hloop & Hshape).
    destruct (groqLoop env prompt (length (GROQ_API_KEYS env)) 0 None w)
      as [w2 [response|lastError]]; simpl in Hloop, Hshape.
    + exists [], loop, [], (inl response).
      split; [simpl; rewrite Hloop, app_nil_r; reflexivity|].
      right. split; [left; reflexivity|].
      split; [exact Hpre|]. split; [exact Hshape|]. split; reflexivity.
    + destruct (JS.truthy (OPENAI_API_KEY env) && negb preferOpenAI) eqn:Hlast.
      * pose proof (callOpenAI_calls env prompt w2) as Hc.
        destruct (callOpenAI env prompt w2) as [w3 [response|e]]; simpl in Hc.
        -- exists [], loop, [OpenAICall (Returned response)], (inr lastError).
           split; [simpl; rewrite Hc, Hloop, <- app_assoc; reflexivity|].
           right. split; [left; reflexivity|].
           split; [exact Hpre|]. split; [exact Hshape|].
           right. left. exists response. split; reflexivity.
        -- exists [], loop, [OpenAICall (Thrown e)], (inr lastError).
           split; [simpl; rewrite Hc, Hloop, <- app_assoc; reflexivity|].
           right. split; [left; reflexivity|].
           split; [exact Hpre|]. split; [exact Hshape|].
           right. right. exists e. split; reflexivity.
      * exists [], loop, [], (inr lastError).
        split; [simpl; rewrite Hloop, app_nil_r; reflexivity|].
        right. split; [left; reflexivity|].
        split; [exact Hpre|]. split; [exact Hshape|].
        left. repeat split.
        intros Hk. rewrite Hk in Hlast. simpl in Hlast.
        destruct preferOpenAI; [reflexivity | discriminate].
Qed.

End InvokeFacts.

Section FailoverTheorem.
Import Rotator Gateway FailoverLog.

Lemma last_app_singleton {A} (l : list A) (x : A) : last (l ++ [x]) = Some x.
Proof. induction l as [|a [|b l] IH]; simpl in *; auto. Qed.

Lemma Forall_failed_last rs response :
  Forall failed rs -> last rs = Some (Returned response) -> False.
Proof.
  intros Hall Hlast. apply last_Some in Hlast as [l' ->].
  apply Forall_app in Hall as [_ Hall]. inversion Hall as [|? ? Hr]; exact Hr.
Qed.

(** C5, as the code has it.  One run of [invokeLLMWithFallback] tries the
    primary backend at most as many times as the pool has credentials, and
    reports every failure to the rotator for the key it used.  After a
    rate-limit failure the loop goes on with the next selection (until the
    pool size is reached); after any other failure no further primary
    attempt is made.  The secondary backend, when configured, is part of the
    attempts.  When every attempt fails the call throws - it never returns a
    response no provider gave - and the error thrown is the last error of
    the primary backend, or the generic error when the primary backend was
    not tried; an error of the secondary backend is not propagated. *)
Theorem invokeLLMWithFallback_failover
  (env : Gateway.Env) (prompt : string) (preferOpenAI : bool) (w : World) :
  exists log,
    calls (fst (invokeLLMWithFallback env prompt preferOpenAI w)) = calls w ++ log
    /\ (length (groqResults log) <= length (Gateway.GROQ_API_KEYS env))%nat
    /\ failuresReported log = true
    /\ (forall i e,
          groqResults log !! i = Some (Thrown e) ->
          if rateLimited e
          then (i + 1 < length (groqResults log))%nat
               \/ (i + 1)%nat = length (Gateway.GROQ_API_KEYS env)
          else (i + 1)%nat = length (groqResults log))
    /\ (JS.truthy (OPENAI_API_KEY env) = true ->
        Forall failed (groqResults log) ->
        exists r, OpenAICall r ∈ log)
    /\ (Forall failed (providerResults log) ->
        snd (invokeLLMWithFallback env prompt preferOpenAI w)
        = Thrown (finalError (lastGroqError log)))
    /\ (forall response,
          snd (invokeLLMWithFallback env prompt preferOpenAI w) = Returned response ->
          last (providerResults log) = Some (Returned response)).
Proof.
  destruct (invokeLLMWithFallback_log env prompt preferOpenAI w)
    as (pre & loop & post & res & Hcalls & Hcases).
  exists (pre ++ loop ++ post). split; [exact Hcalls|].
  destruct Hcases
    as [(response & -> & -> & -> & Hres) | (Hpre & Hfirst & Hshape & Hres)].
  - rewrite Hres. simpl. split; [lia|]. split; [reflexivity|].
    split; [intros i e Hi; destruct i; discriminate|].
    split; [intros _ _; exists (Returned response); left|].
    split; [intros Hall; inversion Hall as [|? ? Hr]; destruct Hr|].
    intros r [= <-]. reflexivity.
  - assert (Hg : groqResults (pre ++ loop ++ post) = groqResults loop).
    { rewrite !groqResults_app.
      assert (groqResults pre = []) as -> by (destruct Hpre as [->|[e ->]]; reflexivity).
      assert (groqResults post = []) as ->.
      { destruct res as [response|lastError];
          [destruct Hres as [-> _]; reflexivity|].
        destruct Hres as [(-> & _)|[(r & -> & _)|(e & -> & _)]]; reflexivity. }
      simpl. apply app_nil_r. }
    assert (Hp : providerResults (pre ++ loop ++ post)
                 = providerResults pre ++ groqResults loop ++ providerResults post).
    { rewrite !providerResults_app, (LoopLog_provider _ _ _ _ Hshape). reflexivity. }
    pose proof (LoopLog_outcome _ _ _ _ Hshape) as Hout.
    rewrite Hg. split; [exact (LoopLog_bound _ _ _ _ Hshape)|].
    split.
    { assert (failuresReported (loop ++ post) = true) as Hrep.
      { rewrite (LoopLog_reported _ _ _ _ post Hshape).
        destruct res as [response|lastError];
          [destruct Hres as [-> _]; reflexivity|].
        destruct Hres as [(-> & _)|[(r & -> & _)|(e & -> & _)]]; reflexivity. }
      destruct Hpre as [->|[e ->]]; exact Hrep. }
    split; [exact (LoopLog_classified _ _ _ _ Hshape)|].
    split.
    { intros Hkey Hallg.
      destruct res as [response|lastError].
      - exfalso. exact (Forall_failed_last _ _ Hallg Hout).
      - destruct Hres as [(-> & Hpref & _)|[(r & -> & _)|(e & -> & _)]].
        + specialize (Hfirst Hkey (Hpref Hkey)).
          destruct Hpre as [->|[e ->]]; [congruence|].
          exists (Thrown e). left.
        + exists (Returned r). rewrite !elem_of_app. right. right. left.
        + exists (Thrown e). rewrite !elem_of_app. right. right. left. }
    unfold lastGroqError. rewrite Hg, Hp.
    destruct res as [response|lastError].
    + destruct Hres as [-> Hres]. rewrite Hres. simpl. rewrite app_nil_r. split.
      * intros Hall. apply Forall_app in Hall as [_ Hall].
        exfalso. exact (Forall_failed_last _ _ Hall Hout).
      * intros r [= <-].
        apply last_Some in Hout as [l' Hl']. rewrite Hl', app_assoc.
        apply last_app_singleton.
    + destruct Hout as [Hall ->].
      destruct Hres as [(-> & _ & Hres)|[(r & -> & Hres)|(e & -> & Hres)]];
        rewrite Hres; simpl.
      * split; [reflexivity | discriminate].
      * split.
        -- intros Hf. apply Forall_app in Hf as [_ Hf].
           apply Forall_app in Hf as [_ Hf]. inversion Hf as [|? ? Hr]; destruct Hr.
        -- intros r' [= <-]. rewrite !app_assoc. apply last_app_singleton.
      * split; [reflexivity | discriminate].
Qed.

(** C5 as stated fails: with both backends failing, the error thrown is the
    primary backend's, while the last error observed is the secondary's; and
    the two primary attempts used the same credential. *)
Lemma invokeLLMWithFallback_last_error_counterexample :
  snd (invokeLLMWithFallback Examples.failingEnv "summarize" false Examples.coolingWorld)
  = Thrown Examples.groqFailure
  /\ lastObservedError
       (calls (fst (invokeLLMWithFallback Examples.failingEnv "summarize" false
                      Examples.coolingWorld)))
     = Some Examples.openaiFailure
  /\ Examples.groqFailure <> Examples.openaiFailure
  /\ groqKeys
       (calls (fst (invokeLLMWithFallback Examples.failingEnv "summarize" false
                      Examples.coolingWorld)))
     = [Some "b"; Some "b"].
Proof.
  split; [vm_compute; reflexivity|].
  split; [vm_compute; reflexivity|].
  split; [discriminate|].
  vm_compute. reflexivity.
Qed.

End FailoverTheorem.

(* ================================================================== *)
(** * Insertion-ordered maps *)
(* ================================================================== *)

Section MapFacts.
Context {V : Type}.
Implicit Types (m : list (string * V)) (k : string) (v : V).

Lemma newMap_snoc (entries : list (string * V)) (e : string * V) :
  JS.newMap (entries ++ [e]) = JS.mapSet (fst e) (snd e) (JS.newMap entries).
Proof. unfold JS.newMap. rewrite fold_left_app. reflexivity. Qed.

Lemma mapSet_keys_present m k v :
  k ∈ map fst m -> map fst (JS.mapSet k v m) = map fst m.
Proof.
  induction m as [|[k' v'] m IH]; simpl; intros Hin.
  - inversion Hin.
  - destruct (String.eqb_spec k' k) as [->|Hne]; [reflexivity|].
    simpl. f_equal. apply IH.
    apply elem_of_cons in Hin as [Heq|Hin]; [congruence | exact Hin].
Qed.

Lemma mapSet_keys_absent m k v :
  k ∉ map fst m -> map fst (JS.mapSet k v m) = map fst m ++ [k].
Proof.
  induction m as [|[k' v'] m IH]; simpl; intros Hnin; [reflexivity|].
  destruct (String.eqb_spec k' k) as [->|Hne].
  - exfalso. apply Hnin. left.
  - simpl. f_equal. apply IH. intros Hin. apply Hnin. right. exact Hin.
Qed.

Lemma mapSet_NoDup m k v :
  NoDup (map fst m) -> NoDup (map fst (JS.mapSet k v m)).
Proof.
  intros Hnd. destruct (decide (k ∈ map fst m)) as [Hin|Hnin].
  - rewrite mapSet_keys_present by exact Hin. exact Hnd.
  - rewrite mapSet_keys_absent by exact Hnin.
    apply NoDup_app. split; [exact Hnd|]. split.
    + intros x Hx Hk. apply list_elem_of_singleton in Hk as ->. exact (Hnin Hx).
    + apply NoDup_singleton.
Qed.

(** With distinct keys, [mapSet k v] holds [v] under [k] and is unchanged
    under the other keys. *)
Lemma mapSet_elem m k v k' v' :
  NoDup (map fst m) ->
  (k', v') ∈ JS.mapSet k v m <-> (k' = k /\ v' = v) \/ (k' <> k /\ (k', v') ∈ m).
Proof.
  induction m as [|[k0 v0] m IH]; simpl; intros Hnd.
  - rewrite list_elem_of_singleton. split.
    + intros [= -> ->]. left. split; reflexivity.
    + intros [[-> ->]|[_ Hin]]; [reflexivity | inversion Hin].
  - apply NoDup_cons in Hnd as [Hk0 Hnd].
    destruct (String.eqb_spec k0 k) as [->|Hne].
    + rewrite !elem_of_cons. split.
      * intros [[= -> ->]|Hin]; [left; split; reflexivity|].
        right. split; [|right; exact Hin].
        intros ->. apply Hk0. apply list_elem_of_fmap. exists (k, v'). split; [reflexivity | exact Hin].
      * intros [[-> ->]|[Hk [[= -> ->]|Hin]]]; [left; reflexivity | congruence | right; exact Hin].
    + rewrite !elem_of_cons, (IH Hnd). split.
      * intros [[= -> ->]|[[-> ->]|[Hk Hin]]].
        -- right. split; [exact Hne | left; reflexivity].
        -- left. split; reflexivity.
        -- right. split; [exact Hk | right; exact Hin].
      * intros [[-> ->]|[Hk [[= -> ->]|Hin]]].
        -- right. left. split; reflexivity.
        -- left. reflexivity.
        -- right. right. split; assumption.
Qed.

Lemma newMap_NoDup (entries : list (string * V)) :
  NoDup (map fst (JS.newMap entries)).
Proof.
  induction entries as [|e entries IH] using rev_ind.
  - constructor.
  - rewrite newMap_snoc. apply mapSet_NoDup. exact IH.
Qed.

End MapFacts.

(* ================================================================== *)
(** * Citations: filter and deduplication *)
(* ================================================================== *)

Section CitationFacts.
Import Pipeline Citations.

Lemma entriesOf_snoc items c :
  entriesOf (items ++ [c]) = entriesOf items ++ [(case_title c, c)].
Proof. unfold entriesOf. rewrite map_app. reflexivity. Qed.

Lemma lastWithTitle_snoc t items c :
  lastWithTitle t (items ++ [c])
  = if sameTitle t c then Some c else lastWithTitle t items.
Proof. unfold lastWithTitle. rewrite rev_app_distr. reflexivity. Qed.

Lemma sameTitle_true t c : sameTitle t c = true <-> case_title c = t.
Proof. unfold sameTitle. apply String.eqb_eq. Qed.

Lemma sameTitle_false t c : sameTitle t c = false <-> case_title c <> t.
Proof. unfold sameTitle. apply String.eqb_neq. Qed.

(** Every entry of the map holds, under a title, the last item with it. *)
Lemma newMap_last_wins items :
  forall k c, (k, c) ∈ JS.newMap (entriesOf items) -> lastWithTitle k items = Some c.
Proof.
  induction items as [|c0 items IH] using rev_ind; intros k c Hin.
  - inversion Hin.
  - rewrite entriesOf_snoc, newMap_snoc in Hin. simpl in Hin.
    apply mapSet_elem in Hin; [|apply newMap_NoDup].
    rewrite lastWithTitle_snoc.
    destruct Hin as [[-> ->]|[Hne Hin]].
    + rewrite (proj2 (sameTitle_true _ _) eq_refl). reflexivity.
    + rewrite (proj2 (sameTitle_false k c0)) by congruence.
      apply IH. exact Hin.
Qed.

Lemma lastWithTitle_Some t items c :
  lastWithTitle t items = Some c -> case_title c = t /\ c ∈ items.
Proof.
  unfold lastWithTitle. intros H. apply find_some in H as [Hin Ht].
  split; [apply sameTitle_true; exact Ht|].
  apply list_elem_of_In, in_rev. exact Hin.
Qed.

Lemma newMap_keys_are_titles items :
  map fst (JS.newMap (entriesOf items))
  = map case_title (JS.mapValues (JS.newMap (entriesOf items))).
Proof.
  unfold JS.mapValues. rewrite map_map.
  apply map_ext_in. intros [k c] Hin. simpl.
  apply list_elem_of_In, newMap_last_wins, lastWithTitle_Some in Hin as [Ht _].
  symmetry. exact Ht.
Qed.

Lemma firstSeen_titles items t :
  t ∈ map case_title (dedupFirstSeenWins items) <-> t ∈ map case_title items.
Proof.
  induction items as [|a items IH]; simpl; [reflexivity|].
  rewrite !elem_of_cons, <- IH. split.
  - intros [->|Hin]; [left; reflexivity|]. right.
    apply list_elem_of_fmap in Hin as (c & -> & Hc).
    apply list_elem_of_In, filter_In in Hc as [Hc _].
    apply list_elem_of_fmap. exists c. split; [reflexivity | apply list_elem_of_In; exact Hc].
  - intros [->|Hin]; [left; reflexivity|].
    destruct (String.eqb_spec t (case_title a)) as [->|Hne]; [left; reflexivity|]. right.
    apply list_elem_of_fmap in Hin as (c & -> & Hc).
    apply list_elem_of_fmap. exists c. split; [reflexivity|].
    apply list_elem_of_In, filter_In. split; [apply list_elem_of_In; exact Hc|].
    apply negb_true_iff, sameTitle_false. exact Hne.
Qed.

Lemma firstSeen_snoc items c :
  dedupFirstSeenWins (items ++ [c])
  = if bool_decide (case_title c ∈ map case_title items)
    then dedupFirstSeenWins items
    else dedupFirstSeenWins items ++ [c].
Proof.
  induction items as [|a items IH]; [reflexivity|].
  change ((a :: items) ++ [c]) with (a :: (items ++ [c])).
  cbn [dedupFirstSeenWins]. rewrite IH.
  change (map case_title (a :: items)) with (case_title a :: map case_title items).
  destruct (String.eqb_spec (case_title c) (case_title a)) as [Heq|Hne].
  - rewrite (bool_decide_eq_true_2 (case_title c ∈ case_title a :: map case_title items))
      by (rewrite Heq; left).
    case_bool_decide; [reflexivity|].
    rewrite List.filter_app. cbn [List.filter].
    rewrite (proj2 (sameTitle_true (case_title a) c) Heq). simpl.
    rewrite app_nil_r. reflexivity.
  - case_bool_decide as Hin.
    + rewrite bool_decide_eq_true_2 by (right; exact Hin). reflexivity.
    + rewrite bool_decide_eq_false_2.
      * rewrite List.filter_app. cbn [List.filter].
        rewrite (proj2 (sameTitle_false (case_title a) c) Hne). reflexivity.
      * intros H. apply elem_of_cons in H as [H|H]; [exact (Hne H) | exact (Hin H)].
Qed.

(** The titles of the map are the titles in order of first occurrence. *)
Lemma newMap_first_seen_order items :
  map fst (JS.newMap (entriesOf items)) = map case_title (dedupFirstSeenWins items).
Proof.
  induction items as [|c items IH] using rev_ind; [reflexivity|].
  rewrite entriesOf_snoc, newMap_snoc, firstSeen_snoc. simpl.
  case_bool_decide as Hin.
  - rewrite mapSet_keys_present; [exact IH|].
    rewrite IH. apply firstSeen_titles. exact Hin.
  - rewrite mapSet_keys_absent.
    + rewrite IH, map_app. reflexivity.
    + rewrite IH. intros H. apply Hin, firstSeen_titles. exact H.
Qed.

(** What [dedupByTitle] returns. *)
Lemma dedupByTitle_spec items :
  NoDup (map case_title (dedupByTitle items))
  /\ map case_title (dedupByTitle items) = map case_title (dedupFirstSeenWins items)
  /\ (forall c, c ∈ dedupByTitle items ->
        lastWithTitle (case_title c) items = Some c /\ c ∈ items).
Proof.
  unfold dedupByTitle. fold (entriesOf items).
  split; [rewrite <- newMap_keys_are_titles; apply newMap_NoDup|].
  split; [rewrite <- newMap_keys_are_titles; apply newMap_first_seen_order|].
  intros c Hc. unfold JS.mapValues in Hc.
  apply list_elem_of_fmap in Hc as ([k c'] & -> & Hin). simpl.
  pose proof (newMap_last_wins _ _ _ Hin) as Hlast.
  destruct (lastWithTitle_Some _ _ _ Hlast) as [Ht Hmem].
  rewrite Ht. split; assumption.
Qed.

(** Every citation built from the filtered results meets the bar. *)
Lemma validDocs_meet_bar results c :
  c ∈ map toSource (validDocsOf results) -> meetsBar c.
Proof.
  intros Hc. apply list_elem_of_fmap in Hc as (r & -> & Hr).
  apply list_elem_of_In, filter_In in Hr as [_ Hr]. exact Hr.
Qed.

End CitationFacts.

(* ================================================================== *)
(** * The streaming function, step by step *)
(* ================================================================== *)

Section StreamFacts.
Import Rotator Pipeline Runs.

Variable env : Pipeline.Env.

Lemma addTrace_nil s : addTrace s [] = s.
Proof. destruct s. unfold addTrace. simpl. rewrite app_nil_r. reflexivity. Qed.

Lemma addTrace_addTrace s a b : addTrace (addTrace s a) b = addTrace s (a ++ b).
Proof. unfold addTrace. simpl. rewrite app_assoc. reflexivity. Qed.

Lemma bind_returned {A B} (m : M A) (k : A -> M B) s s' a :
  m s = (s', Returned a) -> bind m k s = k a s'.
Proof. unfold bind. intros ->. reflexivity. Qed.

Lemma bind_thrown {A B} (m : M A) (k : A -> M B) s s' e :
  m s = (s', Thrown e) -> bind m k s = (s', Thrown e).
Proof. unfold bind. intros ->. reflexivity. Qed.

Lemma emit_run e s : emit e s = (addTrace s [e], Returned tt).
Proof. reflexivity. Qed.

Lemma writeAll_run evs s : writeAll evs s = (addTrace s (map Write evs), Returned tt).
Proof.
  revert s. induction evs as [|ev evs IH]; intros s; simpl.
  - rewrite addTrace_nil. reflexivity.
  - unfold write. rewrite (bind_returned _ _ _ _ _ (emit_run _ _)), IH, addTrace_addTrace.
    reflexivity.
Qed.

Lemma fetchPdfText_run pdfUrl maxChars s :
  exists fetches v,
    fetchPdfText env pdfUrl maxChars s = (addTrace s fetches, Returned v)
    /\ Forall isFetch fetches.
Proof.
  unfold fetchPdfText. destruct pdfUrl as [url|].
  - destruct (String.eqb url "" || String.eqb url "#").
    + exists [], None. rewrite addTrace_nil. split; [reflexivity | constructor].
    + rewrite (bind_returned _ _ _ _ _ (emit_run _ _)).
      destruct (downloadPdfText env url) as [[raw|]|e].
      * match goal with |- context [if ?c then _ else _] => destruct c end;
          eexists [FetchPdf url], _; (split; [reflexivity | repeat constructor]).
      * exists [FetchPdf url], None. split; [reflexivity | repeat constructor].
      * exists [FetchPdf url], None. split; [reflexivity | repeat constructor].
  - exists [], None. rewrite addTrace_nil. split; [reflexivity | constructor].
Qed.

Lemma enrichAll_run rs :
  forall s,
  exists fetches docs,
    enrichAll env rs s = (addTrace s fetches, Returned docs)
    /\ Forall isFetch fetches.
Proof.
  induction rs as [|r rs IH]; intros s; simpl.
  - exists [], []. rewrite addTrace_nil. split; [reflexivity | constructor].
  - unfold enrich.
    destruct (fetchPdfText_run
                (JS.orOpt (m_source_url (metadata (fst r))) (m_r2_url (metadata (fst r))))
                8000%N s) as (f1 & v & Hf & Hall1).
    destruct (IH (addTrace s f1)) as (f2 & docs & Hrest & Hall2).
    eexists (f1 ++ f2), _. split; [|apply Forall_app; split; assumption].
    unfold bind at 1. unfold bind at 1. rewrite Hf. unfold ret at 1.
    rewrite (bind_returned _ _ _ _ _ Hrest), addTrace_addTrace. reflexivity.
Qed.

Lemma gatherEvidence_run validDocs s :
  exists fetches contextText,
    gatherEvidence env validDocs s
    = (addTrace s fetches, Returned (uniqueSourcesOf validDocs, contextText))
    /\ Forall isFetch fetches.
Proof.
  unfold gatherEvidence. destruct validDocs as [|r rest].
  - exists [], "NO SPECIFIC CASE FILES FOUND.". simpl. rewrite addTrace_nil.
    split; [reflexivity | constructor].
  - change (0 <? length (r :: rest))%nat with true. cbv iota.
    destruct (enrichAll_run (firstn 2 (r :: rest)) s) as (fetches & docs & Hrun & Hall).
    eexists fetches, _. split; [|exact Hall].
    rewrite (bind_returned _ _ _ _ _ Hrun). reflexivity.
Qed.

Lemma getResources_run s :
  exists s0 llm,
    getResources env s = (s0, Returned llm)
    /\ chats s0 = chats s /\ users s0 = users s /\ trace s0 = trace s.
Proof.
  unfold getResources, createGroqLLM.
  destruct (vectorStoreInstance s); simpl;
    match goal with
    | |- context [getNextGroqApiKey ?p ?r] => destruct (getNextGroqApiKey p r) as [st key]
    end;
    eexists _, key; (split; [reflexivity | repeat split]).
Qed.

Lemma generate_run llm messages s :
  generate env llm messages s
  = (addTrace s (LlmStream llm messages
                 :: map (fun t => Write (ChunkEvent t)) (fst (llmStream env llm messages))),
     match snd (llmStream env llm messages) with
     | Some e => Thrown e
     | None => Returned (String.concat "" (fst (llmStream env llm messages)))
     end).
Proof.
  unfold generate. rewrite (bind_returned _ _ _ _ _ (emit_run _ _)).
  destruct (llmStream env llm messages) as [tokens failure]. simpl.
  rewrite (bind_returned _ _ _ _ _ (writeAll_run _ _)), addTrace_addTrace, map_map.
  destruct failure; reflexivity.
Qed.

Lemma search_run query k s :
  search env query k s
  = (addTrace s [Search query k],
     match similaritySearchWithScore env query k with
     | Returned results => Returned results
     | Thrown e => Thrown e
     end).
Proof.
  unfold search. rewrite (bind_returned _ _ _ _ _ (emit_run _ _)).
  destruct (similaritySearchWithScore env query k); reflexivity.
Qed.

(** Every run of [streamLegalAssistantResponse] is one of the four cases of
    [StreamRun]; it leaves the database as it found it. *)
Lemma streamLegalAssistantResponse_run userInput chatHistory s :
  exists s0 llm new out,
    streamLegalAssistantResponse env userInput chatHistory s = (addTrace s0 new, out)
    /\ StreamRun env userInput chatHistory llm new out
    /\ chats s0 = chats s /\ users s0 = users s /\ trace s0 = trace s.
Proof.
  destruct (getResources_run s) as (s0 & llm & Hres & Hchats & Husers & Htrace).
  exists s0, llm.
  unfold streamLegalAssistantResponse, tryCatch, streamBody.
  rewrite (bind_returned _ _ _ _ _ Hres).
  destruct (isGreeting userInput) eqn:Hgreet.
  - eexists _, _. split; [|split; [apply run_greeting; exact Hgreet | auto]].
    unfold write.
    do 3 (rewrite (bind_returned _ _ _ _ _ (emit_run _ _)); cbv beta).
    unfold ret. rewrite !addTrace_addTrace. reflexivity.
  - pose proof (search_run (cleanQueryOf userInput) 4 s0) as Hs.
    destruct (similaritySearchWithScore env (cleanQueryOf userInput) 4)
      as [results|e] eqn:Hsearch.
    + rewrite (bind_returned _ _ _ _ _ Hs). cbv beta zeta.
      destruct (gatherEvidence_run (validDocsOf results)
                  (addTrace s0 [Search (cleanQueryOf userInput) 4]))
        as (fetches & contextText & Hgather & Hall).
      rewrite (bind_returned _ _ _ _ _ Hgather). cbv beta. cbn [fst snd].
      unfold write at 1. rewrite (bind_returned _ _ _ _ _ (emit_run _ _)). cbv beta.
      match goal with
      | |- context [bind (generate env llm ?msgs) _ ?st] =>
          pose proof (generate_run llm msgs st) as Hgen
      end.
      destruct (llmStream env llm (messagesOf contextText chatHistory userInput))
        as [tokens [e|]] eqn:Hllm; cbn [fst snd] in Hgen.
      * eexists _, _. split; [|split; [eapply run_generation_failed; eauto | auto]].
        rewrite (bind_thrown _ _ _ _ _ Hgen).
        unfold write. rewrite (bind_returned _ _ _ _ _ (emit_run _ _)). cbv beta.
        unfold throw. rewrite !addTrace_addTrace. simpl. reflexivity.
      * eexists _, _. split; [|split; [eapply run_generated; eauto | auto]].
        rewrite (bind_returned _ _ _ _ _ Hgen). cbv beta.
        unfold write. rewrite (bind_returned _ _ _ _ _ (emit_run _ _)). cbv beta.
        unfold ret. rewrite !addTrace_addTrace. simpl. reflexivity.
    + eexists _, _. split; [|split; [eapply run_search_failed; eauto | auto]].
      rewrite (bind_thrown _ _ _ _ _ Hs).
      unfold write. rewrite (bind_returned _ _ _ _ _ (emit_run _ _)). cbv beta.
      unfold throw. rewrite !addTrace_addTrace. reflexivity.
Qed.

End StreamFacts.

(* ================================================================== *)
(** * The chat controller, step by step *)
(* ================================================================== *)

Section ChatFacts.
Import Rotator Pipeline Runs.

Variable env : Pipeline.Env.

Lemma streamTurn_run req message chat u s :
  exists llm new out final,
    streamTurn env req message chat u s
    = (final, match out with Returned _ => Returned tt | Thrown e => Thrown e end)
    /\ StreamRun env message
         (formattedHistoryOf (chatHistory chat ++ [userTurnOf env message])) llm new out
    /\ users final = <[userId req := mkUser (uses u + 1)]> (users s)
    /\ match out with
       | Returned r =>
           trace final
           = trace s ++ headerEffects env req u chat message ++ new
             ++ [DbSaveChat (chatId req)
                   (chatHistory chat ++ [userTurnOf env message; assistantTurnOf env r]);
                 EndResponse]
           /\ chats final !! chatId req
              = Some (mkChat (owner chat) (ispinned chat)
                        (chatHistory chat
                         ++ [userTurnOf env message; assistantTurnOf env r]))
       | Thrown _ =>
           trace final = trace s ++ headerEffects env req u chat message ++ new
           /\ chats final !! chatId req
              = Some (mkChat (owner chat) (ispinned chat)
                        (chatHistory chat ++ [userTurnOf env message]))
       end.
Proof.
  unfold streamTurn.
  do 4 (rewrite (bind_returned _ _ _ _ _ (emit_run _ _)); cbv beta).
  cbv zeta.
  unfold saveUser at 1. unfold bind at 1.
  unfold saveChat at 1. unfold bind at 1.
  cbn [rotator vectorStoreInstance chats users trace addTrace push chatHistory uses
       owner ispinned].
  match goal with
  | |- context [bind (streamLegalAssistantResponse env ?m ?h) _ ?st] =>
      destruct (streamLegalAssistantResponse_run env m h st)
        as (s0 & llm & new & out & Hrun & Hshape & Hc & Hu & Ht)
  end.
  cbn [chats users trace] in Hc, Hu, Ht.
  exists llm, new, out.
  destruct out as [r|e].
  - rewrite (bind_returned _ _ _ _ _ Hrun).
    unfold saveChat, bind, emit.
    cbn [rotator vectorStoreInstance chats users trace addTrace push chatHistory
         owner ispinned answer sources].
    eexists. split; [reflexivity|]. split; [exact Hshape|].
    cbn [users trace chats]. split; [exact Hu|]. split.
    + rewrite Ht. unfold headerEffects, userTurnOf, assistantTurnOf.
      rewrite <- !app_assoc. simpl. reflexivity.
    + rewrite lookup_insert_eq. unfold userTurnOf, assistantTurnOf, push.
      cbn [owner ispinned chatHistory]. rewrite <- app_assoc. reflexivity.
  - rewrite (bind_thrown _ _ _ _ _ Hrun).
    eexists. split; [reflexivity|]. split; [exact Hshape|].
    cbn [users trace chats addTrace]. split; [exact Hu|]. split.
    + rewrite Ht. unfold headerEffects, userTurnOf.
      rewrite <- !app_assoc. simpl. reflexivity.
    + rewrite Hc, lookup_insert_eq. reflexivity.
Qed.

Lemma headerEffects_commit req u chat message t1 t2 :
  existsb commits (t1 ++ headerEffects env req u chat message ++ t2) = true.
Proof.
  rewrite !existsb_app. unfold headerEffects. simpl.
  rewrite orb_true_r. reflexivity.
Qed.

(** A request that passes the validation reaches [streamTurn]; an error of
    the streaming function is answered on the open stream. *)
Lemma handle_valid req s message u :
  passesValidation s req message u ->
  exists llm new out final,
    handle env req s = (final, Returned tt)
    /\ StreamRun env message
         (formattedHistoryOf (chatHistory (chatOf s req) ++ [userTurnOf env message]))
         llm new out
    /\ users final = <[userId req := mkUser (uses u + 1)]> (users s)
    /\ match out with
       | Returned r =>
           trace final
           = preamble env s req message u ++ new
             ++ [DbSaveChat (chatId req)
                   (chatHistory (chatOf s req)
                    ++ [userTurnOf env message; assistantTurnOf env r]);
                 EndResponse]
           /\ chats final !! chatId req
              = Some (storedChat s req
                        (chatHistory (chatOf s req)
                         ++ [userTurnOf env message; assistantTurnOf env r]))
       | Thrown _ =>
           trace final
           = preamble env s req message u ++ new
             ++ [Write (ErrorEvent (ErrorObject "An error occurred.")); EndResponse]
           /\ chats final !! chatId req
              = Some (storedChat s req
                        (chatHistory (chatOf s req) ++ [userTurnOf env message]))
       end.
Proof.
  intros (Hmsg & Hne & Hown & Hu & Hlt).
  unfold ownershipPasses in Hown. unfold preamble, storedChat.
  unfold handle, updateChat, tryCatch, updateChatBody.
  rewrite Hmsg. cbn [JS.truthy]. change (default "" (Some message)) with message.
  rewrite (proj2 (String.eqb_neq message "") Hne). cbn [negb].
  unfold findOneChat at 1. unfold bind at 1. cbn [chats].
  set (chat := chatOf s req) in *.
  assert (Hcheck : negb (String.eqb (userId req) (owner chat)) = false).
  { rewrite Hown, String.eqb_refl. reflexivity. }
  assert (Hquota : (10 <=? uses u)%Z = false) by (apply Z.leb_gt; exact Hlt).
  destruct (chats s !! chatId req) as [c|] eqn:Hchat.
  - assert (chat = c) as <- by (unfold chat, chatOf; rewrite Hchat; reflexivity).
    unfold ret at 1. unfold bind at 1. rewrite Hcheck.
    unfold findUserById at 1. unfold bind at 1. cbn [users]. rewrite Hu, Hquota.
    match goal with
    | |- context [streamTurn env req message chat u ?st] =>
        destruct (streamTurn_run req message chat u st)
          as (llm & new & out & final & Hrun & Hshape & Husers & Hout)
    end.
    cbn [users trace] in Husers, Hout.
    rewrite Hrun. exists llm, new, out.
    destruct out as [r|e].
    + exists final. repeat split; try assumption; apply Hout.
    + destruct Hout as [Htrace Hchats].
      unfold headersSent, bind, write, emit.
      rewrite Htrace.
      rewrite (headerEffects_commit req u chat message [] new). cbn [negb].
      eexists. split; [reflexivity|]. split; [exact Hshape|].
      cbn [users trace chats]. split; [exact Husers|]. split; [|exact Hchats].
      rewrite Htrace. rewrite <- !app_assoc. reflexivity.
  - assert (chat = mkChat (userId req) false []) as Hnew
        by (unfold chat, chatOf; rewrite Hchat; reflexivity).
    unfold createChat at 1. unfold bind at 1. cbn [rotator vectorStoreInstance chats users trace].
    rewrite <- Hnew. rewrite Hcheck.
    unfold findUserById at 1. unfold bind at 1. cbn [users]. rewrite Hu, Hquota.
    match goal with
    | |- context [streamTurn env req message chat u ?st] =>
        destruct (streamTurn_run req message chat u st)
          as (llm & new & out & final & Hrun & Hshape & Husers & Hout)
    end.
    cbn [users trace] in Husers, Hout.
    rewrite Hrun. exists llm, new, out.
    destruct out as [r|e].
    + exists final. repeat split; try assumption; apply Hout.
    + destruct Hout as [Htrace Hchats].
      unfold headersSent, bind, write, emit.
      rewrite Htrace.
      rewrite (headerEffects_commit req u chat message _ new). cbn [negb].
      eexists. split; [reflexivity|]. split; [exact Hshape|].
      cbn [users trace chats]. split; [exact Husers|]. split; [|exact Hchats].
      rewrite Htrace. rewrite <- !app_assoc. reflexivity.
Qed.

End ChatFacts.

(* ================================================================== *)
(** * Reading the trace of a run *)
(* ================================================================== *)

Section TraceFacts.
Import Rotator Pipeline Runs.

Lemma written_app t1 t2 : written (t1 ++ t2) = written t1 ++ written t2.
Proof. apply flat_map_app. Qed.

Lemma searchCalls_app t1 t2 : searchCalls (t1 ++ t2) = (searchCalls t1 + searchCalls t2)%nat.
Proof. unfold searchCalls. rewrite List.filter_app, length_app. reflexivity. Qed.

Lemma written_fetches fetches : Forall isFetch fetches -> written fetches = [].
Proof.
  induction 1 as [|e fetches He _ IH]; [reflexivity|].
  destruct e; try destruct He. exact IH.
Qed.

Lemma fetches_pipeline fetches :
  Forall isFetch fetches -> forallb isPipelineEffect fetches = true.
Proof.
  induction 1 as [|e fetches He _ IH]; [reflexivity|].
  destruct e; try destruct He. exact IH.
Qed.

Lemma written_chunks tokens :
  written (map (fun t => Write (ChunkEvent t)) tokens) = map ChunkEvent tokens.
Proof. induction tokens as [|t tokens IH]; simpl; [|rewrite <- IH]; reflexivity. Qed.

Lemma chunks_pipeline tokens :
  forallb isPipelineEffect (map (fun t => Write (ChunkEvent t)) tokens) = true.
Proof. induction tokens as [|t tokens IH]; simpl; [reflexivity | exact IH]. Qed.

Variable env : Pipeline.Env.
Variable userInput : string.
Variable chatHistory : list HistoryEntry.
Variable llm : ApiKey.

(** The streaming function only searches, fetches, generates and writes. *)
Lemma StreamRun_pipeline new out :
  StreamRun env userInput chatHistory llm new out ->
  forallb isPipelineEffect new = true.
Proof.
  destruct 1; try reflexivity; simpl;
    rewrite forallb_app, fetches_pipeline by assumption; simpl;
    rewrite forallb_app, chunks_pipeline; reflexivity.
Qed.

(** A run that returns wrote the citations, then the tokens in the order
    the provider gave them, then the end marker; and it returns those
    citations. *)
Lemma StreamRun_returned new r :
  StreamRun env userInput chatHistory llm new (Returned r) ->
  exists tokens,
    written new = SourcesEvent (sources r) :: map ChunkEvent tokens ++ [EndEvent]
    /\ (isGreeting userInput = true ->
        r = mkResult "Greeting" [] /\ tokens = [greetingText])
    /\ (isGreeting userInput = false ->
        answer r = String.concat "" tokens
        /\ exists messages,
             LlmStream llm messages ∈ new
             /\ llmStream env llm messages = (tokens, None)).
Proof.
  inversion 1 as [Hg| |results fetches contextText tokens Hg Hs Hf Hl|]; subst.
  - exists [greetingText]. split; [reflexivity|].
    split; [intros _; split; reflexivity|]. intros Hng. congruence.
  - exists tokens. split.
    + change (Search ?q ?k :: ?l) with ([Search q k] ++ l).
      rewrite !written_app, (written_fetches _ Hf). simpl.
      rewrite written_app, written_chunks. reflexivity.
    + split; [intros Hyes; congruence|]. intros _. split; [reflexivity|].
      exists (messagesOf contextText chatHistory userInput). split; [|exact Hl].
      right. apply elem_of_app. right. right. left.
Qed.

(** A run that throws wrote an error event last. *)
Lemma StreamRun_thrown new e :
  StreamRun env userInput chatHistory llm new (Thrown e) ->
  exists evs,
    written new = evs ++ [ErrorEvent (ErrorText "Internal Server Error")].
Proof.
  inversion 1 as [|? Hg Hs| |results fetches contextText tokens ? Hg Hs Hf Hl]; subst.
  - exists []. reflexivity.
  - eexists (SourcesEvent _ :: map ChunkEvent tokens).
    change (Search ?q ?k :: ?l) with ([Search q k] ++ l).
    rewrite !written_app, (written_fetches _ Hf). simpl.
    rewrite written_app, written_chunks. reflexivity.
Qed.

(** The citations a run returns: none for a greeting, otherwise those of
    the filtered search results. *)
Lemma StreamRun_sources new r :
  StreamRun env userInput chatHistory llm new (Returned r) ->
  (isGreeting userInput = true /\ sources r = [])
  \/ (isGreeting userInput = false
      /\ exists results,
           similaritySearchWithScore env (cleanQueryOf userInput) 4 = Returned results
           /\ sources r = uniqueSourcesOf (validDocsOf results)).
Proof.
  inversion 1 as [Hg| |results fetches contextText tokens Hg Hs Hf Hl|]; subst.
  - left. split; [exact Hg | reflexivity].
  - right. split; [exact Hg|]. exists results. split; [exact Hs | reflexivity].
Qed.

End TraceFacts.

(* ================================================================== *)
(** * Properties of the specification *)
(* ================================================================== *)

Section Claims.
Import Rotator Pipeline Runs Citations.

(** C1, as the code has it.  For a request that passes the validation, the
    citations attached to the assistant turn all have a score that meets
    the bar of 0.6, and no two of them have the same title.  Their titles
    come in the order of first occurrence among the kept candidates, and
    each of them is the last kept candidate with its title: the later
    candidate replaces the earlier one at the earlier one's place. *)
Theorem assistantSources_filtered_and_deduplicated
  (env : Pipeline.Env) (req : Request) (s : Server) (message : string) (u : User)
  (cited : list Source) :
  passesValidation s req message u ->
  assistantSourcesOf (fst (handle env req s)) (chatId req) = Some cited ->
  Forall meetsBar cited
  /\ NoDup (map case_title cited)
  /\ (isGreeting message = false ->
      exists results,
        similaritySearchWithScore env (cleanQueryOf message) 4 = Returned results
        /\ map case_title cited
           = map case_title (dedupFirstSeenWins (map toSource (validDocsOf results)))
        /\ forall c, c ∈ cited ->
             lastWithTitle (case_title c) (map toSource (validDocsOf results)) = Some c).
Proof.
  intros Hval Hcited.
  destruct (handle_valid env req s message u Hval)
    as (llm & new & out & final & Hrun & Hshape & _ & Hout).
  rewrite Hrun in Hcited. cbn [fst] in Hcited. unfold assistantSourcesOf in Hcited.
  destruct out as [r|e]; destruct Hout as [_ Hchat]; rewrite Hchat in Hcited;
    unfold storedChat in Hcited; cbn [chatHistory] in Hcited.
  - change [userTurnOf env message; assistantTurnOf env r]
      with ([userTurnOf env message] ++ [assistantTurnOf env r]) in Hcited.
    rewrite app_assoc, last_snoc in Hcited. injection Hcited as <-.
    destruct (StreamRun_sources _ _ _ _ _ _ Hshape)
      as [[Hg ->]|(Hg & results & Hsearch & ->)].
    + split; [constructor|]. split; [constructor|]. intros Hng. congruence.
    + destruct (dedupByTitle_spec (map toSource (validDocsOf results)))
        as (Hnd & Horder & Hlast).
      split.
      * apply Forall_forall. intros c Hc.
        apply (validDocs_meet_bar results). apply (Hlast c Hc).
      * split; [exact Hnd|]. intros _. exists results.
        split; [exact Hsearch|]. split; [exact Horder|].
        intros c Hc. apply (Hlast c Hc).
  - rewrite last_snoc in Hcited. discriminate.
Qed.

Lemma assistantSources_filtered_and_deduplicated_witness :
  Forall meetsBar
    (default [] (assistantSourcesOf
                   (fst (handle Examples.chatEnv (Examples.question "u9") Examples.server0))
                   "chat-1"))
  /\ NoDup (map case_title
              (default [] (assistantSourcesOf
                             (fst (handle Examples.chatEnv (Examples.question "u9")
                                     Examples.server0))
                             "chat-1"))).
Proof.
  assert (Hval : passesValidation Examples.server0 (Examples.question "u9")
                   "What is Section 302 IPC?" (mkUser 9)).
  { repeat split; try reflexivity; discriminate. }
  assert (Hcited :
            assistantSourcesOf
              (fst (handle Examples.chatEnv (Examples.question "u9") Examples.server0))
              (chatId (Examples.question "u9"))
            = Some (default [] (assistantSourcesOf
                      (fst (handle Examples.chatEnv (Examples.question "u9")
                              Examples.server0))
                      "chat-1"))).
  { vm_compute. reflexivity. }
  destruct (assistantSources_filtered_and_deduplicated
              Examples.chatEnv (Examples.question "u9") Examples.server0
              "What is Section 302 IPC?" (mkUser 9) _ Hval Hcited)
    as (Hbar & Hnd & _).
  split; assumption.
Defined.

(** C1 as stated fails: of two kept candidates with one title, the citation
    attached to the assistant turn is the second, where first-seen-wins
    keeps the first. *)
Lemma assistantSources_first_seen_counterexample :
  option_map (map source_url)
    (assistantSourcesOf
       (fst (handle Examples.chatEnv (Examples.question "u9") Examples.server0))
       "chat-1")
  = Some ["https://x/2.pdf"]
  /\ map source_url
       (dedupFirstSeenWins
          (map toSource (validDocsOf (Examples.sameTitleResults ++ [Examples.weakResult]))))
     = ["https://x/1.pdf"].
Proof. split; vm_compute; reflexivity. Qed.

(** The order of binary64 numbers is transitive. *)
Lemma SFleb_trans x y z : SFleb x y = true -> SFleb y z = true -> SFleb x z = true.
Proof.
  unfold SFleb, SFcompare.
  destruct x as [sx|sx| |sx mx ex], y as [sy|sy| |sy my ey], z as [sz|sz| |sz mz ez];
    try discriminate; try reflexivity;
    repeat match goal with s : bool |- _ => destruct s end;
    try discriminate; try reflexivity;
    change (PosDef.Pos.compare_cont Eq) with Pos.compare;
    destruct (Z.compare_spec ex ey), (Z.compare_spec ey ez), (Z.compare_spec ex ez);
    try discriminate; try reflexivity; try lia;
    destruct (Pos.compare_spec mx my), (Pos.compare_spec my mz), (Pos.compare_spec mx mz);
    simpl; try discriminate; try reflexivity; try lia.
Qed.

Lemma SFleb_ltb_trans x y z : SFleb x y = true -> SFltb y z = true -> SFltb x z = true.
Proof.
  unfold SFleb, SFltb, SFcompare.
  destruct x as [sx|sx| |sx mx ex], y as [sy|sy| |sy my ey], z as [sz|sz| |sz mz ez];
    try discriminate; try reflexivity;
    repeat match goal with s : bool |- _ => destruct s end;
    try discriminate; try reflexivity;
    change (PosDef.Pos.compare_cont Eq) with Pos.compare;
    destruct (Z.compare_spec ex ey), (Z.compare_spec ey ez), (Z.compare_spec ex ez);
    try discriminate; try reflexivity; try lia;
    destruct (Pos.compare_spec mx my), (Pos.compare_spec my mz), (Pos.compare_spec mx mz);
    simpl; try discriminate; try reflexivity; try lia.
Qed.

Lemma leb_trans (x y z : float) :
  PrimFloat.leb x y = true -> PrimFloat.leb y z = true -> PrimFloat.leb x z = true.
Proof. rewrite !leb_spec. apply SFleb_trans. Qed.

Lemma leb_ltb_trans (x y z : float) :
  PrimFloat.leb x y = true -> PrimFloat.ltb y z = true -> PrimFloat.ltb x z = true.
Proof. rewrite leb_spec, !ltb_spec. apply SFleb_ltb_trans. Qed.

(** C2, as the code has it.  The filter of the chat pipeline keeps a
    candidate exactly when its score is at least 0.6: one threshold, in the
    higher-is-better direction.  The filter of [summarizeLegalDocument] is
    two-sided: it keeps a candidate exactly when its score is below 0.35, a
    threshold in the lower-is-better direction, or at least 0.5, a threshold
    in the higher-is-better direction; every recommended case comes from a
    candidate kept by one of the two, and every such candidate has its title
    among the recommended cases. *)
Theorem relevance_filters_by_flow :
  (forall results r,
     r ∈ validDocsOf results
     <-> r ∈ results /\ PrimFloat.leb 0.6%float (snd r) = true)
  /\ Directions.higherIsBetter (PrimFloat.leb relevanceBar)
  /\ (forall s,
        Summarize.keeps s = true
        <-> PrimFloat.ltb s 0.35%float = true \/ PrimFloat.leb 0.5%float s = true)
  /\ Directions.lowerIsBetter (fun s => PrimFloat.ltb s 0.35%float)
  /\ Directions.higherIsBetter (PrimFloat.leb 0.5%float)
  /\ (forall similarDocs c,
        c ∈ Summarize.uniqueSourcesOf similarDocs ->
        exists r,
          r ∈ similarDocs /\ c = Summarize.toSource r
          /\ (PrimFloat.ltb (snd r) 0.35%float = true
              \/ PrimFloat.leb 0.5%float (snd r) = true))
  /\ (forall similarDocs r,
        r ∈ similarDocs ->
        PrimFloat.ltb (snd r) 0.35%float = true \/ PrimFloat.leb 0.5%float (snd r) = true ->
        case_title (Summarize.toSource r)
          ∈ map case_title (Summarize.uniqueSourcesOf similarDocs)).
Proof.
  split; [|split; [|split; [|split; [|split; [|split]]]]].
  - intros results r. unfold validDocsOf. rewrite list_elem_of_In, filter_In.
    rewrite <- list_elem_of_In. reflexivity.
  - intros s s' Hs Hle. exact (leb_trans _ _ _ Hs Hle).
  - intros s. unfold Summarize.keeps. apply orb_true_iff.
  - intros s s' Hs Hle. exact (leb_ltb_trans _ _ _ Hle Hs).
  - intros s s' Hs Hle. exact (leb_trans _ _ _ Hs Hle).
  - intros similarDocs c Hc. unfold Summarize.uniqueSourcesOf in Hc.
    destruct (dedupByTitle_spec
                (map Summarize.toSource
                   (List.filter (fun r => Summarize.keeps (snd r)) similarDocs)))
      as (_ & _ & Hlast).
    destruct (Hlast c Hc) as [_ Hin].
    apply list_elem_of_fmap in Hin as (r & -> & Hr).
    apply list_elem_of_In, filter_In in Hr as [Hr Hkeep].
    exists r. split; [apply list_elem_of_In; exact Hr|]. split; [reflexivity|].
    apply orb_true_iff. exact Hkeep.
  - intros similarDocs r Hr Hkeep. unfold Summarize.uniqueSourcesOf.
    destruct (dedupByTitle_spec
                (map Summarize.toSource
                   (List.filter (fun r => Summarize.keeps (snd r)) similarDocs)))
      as (_ & -> & _).
    apply firstSeen_titles. apply list_elem_of_fmap.
    exists (Summarize.toSource r). split; [reflexivity|].
    apply list_elem_of_fmap. exists r. split; [reflexivity|].
    apply list_elem_of_In, filter_In. split; [apply list_elem_of_In; exact Hr|].
    apply orb_true_iff. exact Hkeep.
Qed.

(** C2 as stated fails: the filter of [summarizeLegalDocument] has no single
    threshold direction.  It keeps the scores 0.1 and 0.6 and drops the
    score 0.4 between them, so that it is neither higher-is-better nor
    lower-is-better. *)
Lemma summarize_filter_single_direction_counterexample :
  Summarize.keeps 0.1%float = true
  /\ Summarize.keeps 0.4%float = false
  /\ Summarize.keeps 0.6%float = true
  /\ ~ Directions.singleDirection Summarize.keeps.
Proof.
  split; [vm_compute; reflexivity|]. split; [vm_compute; reflexivity|].
  split; [vm_compute; reflexivity|].
  intros [Hup|Hdown].
  - assert (H : Summarize.keeps 0.4%float = true)
      by (apply (Hup 0.1%float); vm_compute; reflexivity).
    vm_compute in H. discriminate H.
  - assert (H : Summarize.keeps 0.4%float = true)
      by (apply (Hdown 0.6%float); vm_compute; reflexivity).
    vm_compute in H. discriminate H.
Qed.

Lemma isGreeting_spec userInput :
  isGreeting userInput = true
  <-> In (cleanInputOf userInput) greetings
      \/ (String.length (cleanInputOf userInput) < 3)%nat.
Proof.
  unfold isGreeting, JS.arrayIncludes.
  rewrite orb_true_iff, existsb_exists, Nat.ltb_lt. split.
  - intros [(g & Hin & Heq)|Hlen]; [left | right; exact Hlen].
    apply String.eqb_eq in Heq as ->. exact Hin.
  - intros [Hin|Hlen]; [left | right; exact Hlen].
    exists (cleanInputOf userInput). split; [exact Hin | apply String.eqb_refl].
Qed.

(** C3.  When the input, lower-cased, trimmed and stripped of [?], [!] and
    [.], is one of the greetings or has fewer than 3 characters, the
    streaming function writes one [sources] event with the empty list, one
    [chunk] event with the canned greeting and one [end] event, and does
    nothing else: in particular it does not call the similarity search. *)
Theorem greeting_short_circuit
  (env : Pipeline.Env) (userInput : string) (chatHistory : list HistoryEntry) (s : Server) :
  In (cleanInputOf userInput) greetings
  \/ (String.length (cleanInputOf userInput) < 3)%nat ->
  snd (streamLegalAssistantResponse env userInput chatHistory s)
  = Returned (mkResult "Greeting" [])
  /\ trace (fst (streamLegalAssistantResponse env userInput chatHistory s))
     = trace s ++ [Write (SourcesEvent []); Write (ChunkEvent greetingText); Write EndEvent]
  /\ written (trace (fst (streamLegalAssistantResponse env userInput chatHistory s)))
     = written (trace s) ++ [SourcesEvent []; ChunkEvent greetingText; EndEvent]
  /\ searchCalls (trace (fst (streamLegalAssistantResponse env userInput chatHistory s)))
     = searchCalls (trace s).
Proof.
  intros Hgreet. apply isGreeting_spec in Hgreet.
  destruct (streamLegalAssistantResponse_run env userInput chatHistory s)
    as (s0 & llm & new & out & Hrun & Hshape & _ & _ & Htrace).
  rewrite Hrun. cbn [fst snd]. unfold addTrace. cbn [trace]. rewrite Htrace.
  inversion Hshape; subst; try congruence.
  split; [reflexivity|]. split; [reflexivity|].
  rewrite written_app, searchCalls_app. split; [reflexivity|].
  change (searchCalls [Write (SourcesEvent []); Write (ChunkEvent greetingText);
                       Write EndEvent]) with 0%nat.
  apply Nat.add_0_r.
Qed.

Lemma greeting_short_circuit_witness :
  snd (streamLegalAssistantResponse Examples.chatEnv "Hello!" [] Examples.server0)
  = Returned (mkResult "Greeting" [])
  /\ trace (fst (streamLegalAssistantResponse Examples.chatEnv "Hello!" [] Examples.server0))
     = trace Examples.server0
       ++ [Write (SourcesEvent []); Write (ChunkEvent greetingText); Write EndEvent]
  /\ written
       (trace (fst (streamLegalAssistantResponse Examples.chatEnv "Hello!" []
                      Examples.server0)))
     = written (trace Examples.server0)
       ++ [SourcesEvent []; ChunkEvent greetingText; EndEvent]
  /\ searchCalls
       (trace (fst (streamLegalAssistantResponse Examples.chatEnv "Hello!" []
                      Examples.server0)))
     = searchCalls (trace Examples.server0).
Proof.
  apply (greeting_short_circuit Examples.chatEnv "Hello!" [] Examples.server0).
  left. vm_compute. right. left. reflexivity.
Defined.

(** A request of a user at or over the ceiling ends in one JSON response. *)
Lemma handle_over_quota env req s u :
  users s !! userId req = Some u ->
  (10 <= uses u)%Z ->
  exists final created code body,
    handle env req s = (final, Returned tt)
    /\ trace final = created ++ [SendJson code body]
    /\ (created = [] \/ created = [DbCreateChat (chatId req) (userId req)])
    /\ users final = users s
    /\ ((code = 400%nat /\ JS.truthy (userMessage req) = false)
        \/ (code = 401%nat /\ ~ ownershipPasses s req)
        \/ (code = 403%nat /\ body = quotaDenial)).
Proof.
  intros Hu Hge.
  assert (Hquota : (10 <=? uses u)%Z = true) by (apply Z.leb_le; exact Hge).
  unfold handle, updateChat, tryCatch, updateChatBody, ownershipPasses, chatOf.
  destruct (JS.truthy (userMessage req)) eqn:Hmsg; cbn [negb].
  - unfold findOneChat at 1. unfold bind at 1. cbn [chats].
    destruct (chats s !! chatId req) as [c|] eqn:Hchat.
    + unfold ret at 1. unfold bind at 1. cbn [default].
      destruct (String.eqb_spec (userId req) (owner c)) as [Heq|Hne]; cbn [negb].
      * unfold findUserById at 1. unfold bind at 1. cbn [users]. rewrite Hu, Hquota.
        eexists _, [], 403%nat, quotaDenial.
        split; [reflexivity|]. split; [reflexivity|]. split; [left; reflexivity|].
        split; [reflexivity|]. right. right. split; reflexivity.
      * eexists _, [], 401%nat, (mkBody "Unauthorized" None).
        split; [reflexivity|]. split; [reflexivity|]. split; [left; reflexivity|].
        split; [reflexivity|]. right. left. split; [reflexivity|].
        intros Hown. apply Hne. symmetry. exact Hown.
    + unfold createChat at 1. unfold bind at 1.
      cbn [rotator vectorStoreInstance chats users trace owner].
      rewrite String.eqb_refl. cbn [negb].
      unfold findUserById at 1. unfold bind at 1. cbn [users]. rewrite Hu, Hquota.
      eexists _, [DbCreateChat (chatId req) (userId req)], 403%nat, quotaDenial.
      split; [reflexivity|]. split; [reflexivity|]. split; [right; reflexivity|].
      split; [reflexivity|]. right. right. split; reflexivity.
  - eexists _, [], 400%nat, (mkBody "User message is required" None).
    split; [reflexivity|]. split; [reflexivity|]. split; [left; reflexivity|].
    split; [reflexivity|]. left. split; reflexivity.
Qed.

(** C4.  A user whose usage count is 10 or more is answered with one JSON
    failure response (400, 401 or 403; 403 when the message and the
    ownership are in order): no header is flushed, no event is written and
    the count is unchanged.  A user whose count is 9, with the message and
    the ownership in order, has the headers flushed and the count 10
    afterwards. *)
Theorem quota_boundary (env : Pipeline.Env) (req : Request) (s : Server) (u : User) :
  users s !! userId req = Some u ->
  ((10 <= uses u)%Z ->
   (exists code body,
      last (trace (fst (handle env req s))) = Some (SendJson code body)
      /\ (code = 400 \/ code = 401 \/ code = 403)%nat
      /\ (JS.truthy (userMessage req) = true -> ownershipPasses s req ->
          code = 403%nat /\ body = quotaDenial))
   /\ (FlushHeaders ∉ trace (fst (handle env req s)))
   /\ written (trace (fst (handle env req s))) = []
   /\ users (fst (handle env req s)) = users s)
  /\ (uses u = 9%Z ->
      forall message,
        userMessage req = Some message -> message <> "" -> ownershipPasses s req ->
        FlushHeaders ∈ trace (fst (handle env req s))
        /\ users (fst (handle env req s)) !! userId req = Some (mkUser 10)).
Proof.
  intros Hu. split.
  - intros Hge.
    destruct (handle_over_quota env req s u Hu Hge)
      as (final & created & code & body & Hrun & Htrace & Hcreated & Husers & Hcode).
    rewrite Hrun. cbn [fst]. rewrite Htrace, Husers. split; [|split; [|split]].
    + exists code, body. split; [apply last_snoc|]. split.
      * destruct Hcode as [[-> _]|[[-> _]|[-> _]]]; auto.
      * intros Hmsg Hown.
        destruct Hcode as [[_ Hno]|[[_ Hno]|[-> ->]]];
          [congruence | contradiction | split; reflexivity].
    + intros Hin. apply elem_of_app in Hin as [Hin|Hin].
      * destruct Hcreated as [->| ->]; [inversion Hin|].
        apply list_elem_of_singleton in Hin. discriminate.
      * apply list_elem_of_singleton in Hin. discriminate.
    + rewrite written_app. destruct Hcreated as [->| ->]; reflexivity.
    + reflexivity.
  - intros H9 message Hmsg Hne Hown.
    assert (Hval : passesValidation s req message u).
    { repeat split; try assumption. rewrite H9. reflexivity. }
    destruct (handle_valid env req s message u Hval)
      as (llm & new & out & final & Hrun & _ & Husers & Hout).
    rewrite Hrun. cbn [fst]. split.
    + assert (Hpre : FlushHeaders ∈ preamble env s req message u).
      { unfold preamble, headerEffects. apply elem_of_app. right.
        do 3 right. left. }
      destruct out; destruct Hout as [-> _]; apply elem_of_app; left; exact Hpre.
    + rewrite Husers, lookup_insert_eq, H9. reflexivity.
Qed.

Lemma quota_boundary_witness :
  ((exists code body,
      last (trace (fst (handle Examples.chatEnv (Examples.question "u10")
                          Examples.server0)))
      = Some (SendJson code body)
      /\ (code = 400 \/ code = 401 \/ code = 403)%nat
      /\ (JS.truthy (userMessage (Examples.question "u10")) = true ->
          ownershipPasses Examples.server0 (Examples.question "u10") ->
          code = 403%nat /\ body = quotaDenial))
   /\ (FlushHeaders ∉ trace (fst (handle Examples.chatEnv (Examples.question "u10")
                                    Examples.server0)))
   /\ written (trace (fst (handle Examples.chatEnv (Examples.question "u10")
                             Examples.server0))) = []
   /\ users (fst (handle Examples.chatEnv (Examples.question "u10") Examples.server0))
      = users Examples.server0)
  /\ (FlushHeaders ∈ trace (fst (handle Examples.chatEnv (Examples.question "u9")
                                   Examples.server0))
      /\ users (fst (handle Examples.chatEnv (Examples.question "u9") Examples.server0))
         !! "u9" = Some (mkUser 10)).
Proof.
  split.
  - apply (quota_boundary Examples.chatEnv (Examples.question "u10") Examples.server0
             (mkUser 10)).
    + reflexivity.
    + simpl. lia.
  - apply (quota_boundary Examples.chatEnv (Examples.question "u9") Examples.server0
             (mkUser 9)) with (message := "What is Section 302 IPC?").
    + reflexivity.
    + reflexivity.
    + reflexivity.
    + discriminate.
    + reflexivity.
Defined.

Lemma written_preamble env s req message u :
  written (preamble env s req message u) = [].
Proof. unfold preamble. destruct (chats s !! chatId req); reflexivity. Qed.

Lemma preamble_split env s req message u :
  exists before,
    preamble env s req message u
    = before ++ [DbSaveUser (userId req) (uses u + 1);
                 DbSaveChat (chatId req)
                   (chatHistory (chatOf s req) ++ [userTurnOf env message])]
    /\ forallb (fun e => negb (isPipelineEffect e)) before = true
    /\ forallb (fun e => negb (isChatSave e)) before = true
    /\ forallb (fun e => negb (isUserSave e)) before = true.
Proof.
  unfold preamble, headerEffects.
  destruct (chats s !! chatId req).
  - eexists [_; _; _; _]. repeat split.
  - eexists [_; _; _; _; _]. repeat split.
Qed.

Lemma pipeline_not_user_save t :
  forallb isPipelineEffect t = true ->
  forallb (fun e => negb (isUserSave e)) t = true.
Proof.
  induction t as [|e t IH]; [reflexivity|]. simpl.
  intros H. apply andb_true_iff in H as [He Ht].
  rewrite (IH Ht). destruct e; try discriminate; reflexivity.
Qed.

(** C7.  When a request passes the validation and no error event is
    written, the events of the response are: one [sources] event, then the
    [chunk] events, one per token in the order the provider yielded them
    (the canned greeting for a greeting), then one [end] event; after it the
    response is closed. *)
Theorem successful_request_event_order
  (env : Pipeline.Env) (req : Request) (s : Server) (message : string) (u : User) :
  passesValidation s req message u ->
  nonErroring (trace (fst (handle env req s))) ->
  exists cited tokens,
    written (trace (fst (handle env req s)))
    = SourcesEvent cited :: map ChunkEvent tokens ++ [EndEvent]
    /\ last (trace (fst (handle env req s))) = Some EndResponse
    /\ (isGreeting message = true -> tokens = [greetingText])
    /\ (isGreeting message = false ->
        exists llm messages,
          LlmStream llm messages ∈ trace (fst (handle env req s))
          /\ llmStream env llm messages = (tokens, None)).
Proof.
  intros Hval Hok.
  destruct (handle_valid env req s message u Hval)
    as (llm & new & out & final & Hrun & Hshape & _ & Hout).
  rewrite Hrun in *. cbn [fst] in *. unfold nonErroring in Hok.
  destruct out as [r|e]; destruct Hout as [Htrace _]; rewrite Htrace in *.
  - destruct (StreamRun_returned _ _ _ _ _ _ Hshape) as (tokens & Hw & Hg & Hng).
    exists (sources r), tokens. split; [|split; [|split]].
    + rewrite !written_app, written_preamble, Hw. simpl. rewrite app_nil_r. reflexivity.
    + rewrite !app_assoc.
      change [DbSaveChat ?i ?h; EndResponse] with ([DbSaveChat i h] ++ [EndResponse]).
      rewrite app_assoc. apply last_snoc.
    + intros Hyes. apply (Hg Hyes).
    + intros Hno. destruct (Hng Hno) as (_ & messages & Hin & Hllm).
      exists llm, messages. split; [|exact Hllm].
      apply elem_of_app. right. apply elem_of_app. left. exact Hin.
  - exfalso. rewrite !written_app, !forallb_app in Hok. simpl in Hok.
    rewrite !andb_false_r in Hok. discriminate.
Qed.

Lemma successful_request_event_order_witness :
  exists cited tokens,
    written (trace (fst (handle Examples.chatEnv (Examples.question "u9")
                           Examples.server0)))
    = SourcesEvent cited :: map ChunkEvent tokens ++ [EndEvent]
    /\ last (trace (fst (handle Examples.chatEnv (Examples.question "u9")
                           Examples.server0)))
       = Some EndResponse
    /\ (isGreeting "What is Section 302 IPC?" = true -> tokens = [greetingText])
    /\ (isGreeting "What is Section 302 IPC?" = false ->
        exists llm messages,
          LlmStream llm messages
          ∈ trace (fst (handle Examples.chatEnv (Examples.question "u9")
                          Examples.server0))
          /\ llmStream Examples.chatEnv llm messages = (tokens, None)).
Proof.
  apply (successful_request_event_order Examples.chatEnv (Examples.question "u9")
           Examples.server0 "What is Section 302 IPC?" (mkUser 9)).
  - repeat split; try reflexivity; discriminate.
  - vm_compute. reflexivity.
Defined.

(** C8.  For a request that passes the validation, the conversation is
    saved with the user turn appended before any effect of retrieval or
    generation, and no other save of the conversation comes before.  When
    the streaming function returns, the conversation is saved once more
    after all its effects, with the assistant turn appended, which carries
    the returned text (the concatenated tokens, for a question) and the
    citations of the [sources] event.  When it throws, no assistant turn is
    appended: the stored conversation ends with the user turn. *)
Theorem turns_saved_around_generation
  (env : Pipeline.Env) (req : Request) (s : Server) (message : string) (u : User) :
  passesValidation s req message u ->
  exists before generation after,
    trace (fst (handle env req s))
    = before
      ++ DbSaveChat (chatId req) (chatHistory (chatOf s req) ++ [userTurnOf env message])
      :: generation ++ after
    /\ forallb (fun e => negb (isPipelineEffect e)) before = true
    /\ forallb (fun e => negb (isChatSave e)) before = true
    /\ forallb isPipelineEffect generation = true
    /\ ((exists r tokens,
           after = [DbSaveChat (chatId req)
                      (chatHistory (chatOf s req)
                       ++ [userTurnOf env message; assistantTurnOf env r]);
                    EndResponse]
           /\ written generation
              = SourcesEvent (sources r) :: map ChunkEvent tokens ++ [EndEvent]
           /\ (isGreeting message = false -> answer r = String.concat "" tokens)
           /\ chats (fst (handle env req s)) !! chatId req
              = Some (storedChat s req
                        (chatHistory (chatOf s req)
                         ++ [userTurnOf env message; assistantTurnOf env r])))
        \/ (exists evs,
              after = [Write (ErrorEvent (ErrorObject "An error occurred."));
                       EndResponse]
              /\ written generation
                 = evs ++ [ErrorEvent (ErrorText "Internal Server Error")]
              /\ chats (fst (handle env req s)) !! chatId req
                 = Some (storedChat s req
                           (chatHistory (chatOf s req) ++ [userTurnOf env message])))).
Proof.
  intros Hval.
  destruct (handle_valid env req s message u Hval)
    as (llm & new & out & final & Hrun & Hshape & _ & Hout).
  rewrite Hrun. cbn [fst].
  destruct (preamble_split env s req message u) as (pre & Hpre & Hnp & Hnc & _).
  exists (pre ++ [DbSaveUser (userId req) (uses u + 1)]), new.
  pose proof (StreamRun_pipeline _ _ _ _ _ _ Hshape) as Hpipe.
  destruct out as [r|e]; destruct Hout as [Htrace Hchat]; rewrite Htrace, Hpre;
    eexists; (split; [rewrite <- !app_assoc; reflexivity|]);
    (split; [rewrite forallb_app, Hnp; reflexivity|]);
    (split; [rewrite forallb_app, Hnc; reflexivity|]);
    (split; [exact Hpipe|]).
  - left. destruct (StreamRun_returned _ _ _ _ _ _ Hshape) as (tokens & Hw & _ & Hng).
    exists r, tokens. split; [reflexivity|]. split; [exact Hw|].
    split; [|exact Hchat]. intros Hno. apply (Hng Hno).
  - right. destruct (StreamRun_thrown _ _ _ _ _ _ Hshape) as (evs & Hw).
    exists evs. split; [reflexivity|]. split; [exact Hw | exact Hchat].
Qed.

Lemma turns_saved_around_generation_witness :
  exists before generation after,
    trace (fst (handle Examples.failingChatEnv (Examples.question "u9") Examples.server0))
    = before
      ++ DbSaveChat (chatId (Examples.question "u9")) (chatHistory (chatOf Examples.server0 (Examples.question "u9")) ++ [userTurnOf Examples.failingChatEnv "What is Section 302 IPC?"])
      :: generation ++ after
    /\ forallb (fun e => negb (isPipelineEffect e)) before = true
    /\ forallb (fun e => negb (isChatSave e)) before = true
    /\ forallb isPipelineEffect generation = true
    /\ ((exists r tokens,
           after = [DbSaveChat (chatId (Examples.question "u9"))
                      (chatHistory (chatOf Examples.server0 (Examples.question "u9"))
                       ++ [userTurnOf Examples.failingChatEnv "What is Section 302 IPC?"; assistantTurnOf Examples.failingChatEnv r]);
                    EndResponse]
           /\ written generation
              = SourcesEvent (sources r) :: map ChunkEvent tokens ++ [EndEvent]
           /\ (isGreeting "What is Section 302 IPC?" = false -> answer r = String.concat "" tokens)
           /\ chats (fst (handle Examples.failingChatEnv (Examples.question "u9") Examples.server0)) !! chatId (Examples.question "u9")
              = Some (storedChat Examples.server0 (Examples.question "u9")
                        (chatHistory (chatOf Examples.server0 (Examples.question "u9"))
                         ++ [userTurnOf Examples.failingChatEnv "What is Section 302 IPC?"; assistantTurnOf Examples.failingChatEnv r])))
        \/ (exists evs,
              after = [Write (ErrorEvent (ErrorObject "An error occurred."));
                       EndResponse]
              /\ written generation
                 = evs ++ [ErrorEvent (ErrorText "Internal Server Error")]
              /\ chats (fst (handle Examples.failingChatEnv (Examples.question "u9") Examples.server0)) !! chatId (Examples.question "u9")
                 = Some (storedChat Examples.server0 (Examples.question "u9")
                           (chatHistory (chatOf Examples.server0 (Examples.question "u9")) ++ [userTurnOf Examples.failingChatEnv "What is Section 302 IPC?"])))).
Proof.
  apply (turns_saved_around_generation Examples.failingChatEnv (Examples.question "u9")
           Examples.server0 "What is Section 302 IPC?" (mkUser 9)).
  repeat split; try reflexivity; discriminate.
Defined.

(** C9.  For a greeting that passes the validation, the stored conversation
    ends with an assistant turn whose text is the literal "Greeting" and
    whose citations are empty, while the only [chunk] event sent to the
    client carries the canned greeting sentence, a different text. *)
Theorem greeting_turn_text
  (env : Pipeline.Env) (req : Request) (s : Server) (message : string) (u : User) :
  passesValidation s req message u ->
  isGreeting message = true ->
  chats (fst (handle env req s)) !! chatId req
  = Some (storedChat s req
            (chatHistory (chatOf s req)
             ++ [userTurnOf env message;
                 mkTurn None (Some (mkAi "Greeting" [])) (assistantTurnTime env)]))
  /\ written (trace (fst (handle env req s)))
     = [SourcesEvent []; ChunkEvent greetingText; EndEvent]
  /\ greetingText <> "Greeting".
Proof.
  intros Hval Hgreet.
  destruct (handle_valid env req s message u Hval)
    as (llm & new & out & final & Hrun & Hshape & _ & Hout).
  rewrite Hrun. cbn [fst].
  inversion Hshape; subst; try congruence.
  destruct Hout as [Htrace Hchat]. split; [exact Hchat|]. split; [|discriminate].
  rewrite Htrace, !written_app, written_preamble. reflexivity.
Qed.

Lemma greeting_turn_text_witness :
  chats (fst (handle Examples.chatEnv Examples.hello Examples.server0)) !! "chat-1"
  = Some (storedChat Examples.server0 Examples.hello
            (chatHistory (chatOf Examples.server0 Examples.hello)
             ++ [userTurnOf Examples.chatEnv "Hello!";
                 mkTurn None (Some (mkAi "Greeting" []))
                        (assistantTurnTime Examples.chatEnv)]))
  /\ written (trace (fst (handle Examples.chatEnv Examples.hello Examples.server0)))
     = [SourcesEvent []; ChunkEvent greetingText; EndEvent]
  /\ greetingText <> "Greeting".
Proof.
  apply (greeting_turn_text Examples.chatEnv Examples.hello Examples.server0
           "Hello!" (mkUser 9)).
  - repeat split; try reflexivity; discriminate.
  - vm_compute. reflexivity.
Defined.

(** C10.  For a request that passes the validation, the usage count is
    saved, raised by one, before any effect of retrieval or generation; no
    other save of the user follows or precedes it, and the stored count is
    the raised one when the request ends - whether the streaming function
    returned or threw. *)
Theorem usage_counted_before_generation
  (env : Pipeline.Env) (req : Request) (s : Server) (message : string) (u : User) :
  passesValidation s req message u ->
  users (fst (handle env req s)) !! userId req = Some (mkUser (uses u + 1))
  /\ exists before after,
       trace (fst (handle env req s))
       = before ++ DbSaveUser (userId req) (uses u + 1) :: after
       /\ forallb (fun e => negb (isPipelineEffect e)) before = true
       /\ forallb (fun e => negb (isUserSave e)) (before ++ after) = true.
Proof.
  intros Hval.
  destruct (handle_valid env req s message u Hval)
    as (llm & new & out & final & Hrun & Hshape & Husers & Hout).
  rewrite Hrun. cbn [fst]. split; [rewrite Husers; apply lookup_insert_eq|].
  destruct (preamble_split env s req message u) as (pre & Hpre & Hnp & _ & Hnu).
  pose proof (pipeline_not_user_save _ (StreamRun_pipeline _ _ _ _ _ _ Hshape)) as Hnew.
  exists pre.
  destruct out as [r|e]; destruct Hout as [Htrace _]; rewrite Htrace, Hpre;
    eexists; (split; [rewrite <- !app_assoc; reflexivity|]);
    (split; [exact Hnp|]);
    rewrite forallb_app, Hnu; cbn [app forallb isUserSave negb andb];
    rewrite forallb_app, Hnew; reflexivity.
Qed.

Lemma usage_counted_before_generation_witness :
  users (fst (handle Examples.failingChatEnv (Examples.question "u9") Examples.server0))
    !! "u9" = Some (mkUser (9 + 1))
  /\ exists before after,
       trace (fst (handle Examples.failingChatEnv (Examples.question "u9")
                     Examples.server0))
       = before ++ DbSaveUser "u9" (9 + 1) :: after
       /\ forallb (fun e => negb (isPipelineEffect e)) before = true
       /\ forallb (fun e => negb (isUserSave e)) (before ++ after) = true.
Proof.
  apply (usage_counted_before_generation Examples.failingChatEnv (Examples.question "u9")
           Examples.server0 "What is Section 302 IPC?" (mkUser 9)).
  repeat split; try reflexivity; discriminate.
Defined.

End Claims.

(* ================================================================== *)
(** * Further properties of the credential rotator *)
(* ================================================================== *)

Section RotationFacts.
Import Rotator Rotation.

Lemma scanKeys_first_healthy pool st offsets i :
  (failuresOf (keyFailureCounts st)
     (pool !! ((currentGroqKeyIndex st + i) mod length pool)%nat) < 3)%nat ->
  scanKeys pool st (i :: offsets)
  = Some (((currentGroqKeyIndex st + i) mod length pool)%nat,
          pool !! ((currentGroqKeyIndex st + i) mod length pool)%nat).
Proof. intros H. simpl. apply Nat.ltb_lt in H. rewrite H. reflexivity. Qed.

(** One selection on a healthy pool: the key under the pointer, and the
    pointer moves on by one. *)
Lemma getNextGroqApiKey_healthy pool st :
  (1 <= length pool)%nat ->
  healthy pool st ->
  getNextGroqApiKey pool st
  = (mkState ((currentGroqKeyIndex st mod length pool + 1) mod length pool)%nat
             (keyFailureCounts st) (pendingResets st),
     pool !! (currentGroqKeyIndex st mod length pool)%nat).
Proof.
  intros Hn Hh. unfold getNextGroqApiKey.
  destruct (length pool) as [|n] eqn:Hlen; [lia|].
  change (seq 0 (S n)) with (0%nat :: seq 1 n).
  rewrite <- Hlen. rewrite scanKeys_first_healthy.
  - rewrite Nat.add_0_r. reflexivity.
  - rewrite Nat.add_0_r.
    assert (Hlt : (currentGroqKeyIndex st mod length pool < length pool)%nat)
      by (apply Nat.mod_upper_bound; lia).
    destruct (lookup_lt_is_Some_2 pool _ Hlt) as [k Hk]. rewrite Hk.
    apply Hh. apply list_elem_of_lookup. eexists. exact Hk.
Qed.

(** X1.  While no key of the pool has reached the failure limit, successive
    selections go round the pool: the [i]-th selection returns the key in
    slot [(pointer + i) mod N], the failure counters are left alone, and
    after [n] selections the pointer stands [n] slots further. *)
Theorem selection_is_round_robin (pool : list string) (n : nat) (st : State) :
  (1 <= length pool)%nat ->
  healthy pool st ->
  snd (selectMany pool n st)
  = map (fun i => pool !! ((currentGroqKeyIndex st + i) mod length pool)%nat) (seq 0 n)
  /\ keyFailureCounts (fst (selectMany pool n st)) = keyFailureCounts st
  /\ (currentGroqKeyIndex (fst (selectMany pool n st)) mod length pool
      = (currentGroqKeyIndex st + n) mod length pool)%nat.
Proof.
  intros Hn. revert st. induction n as [|n IH]; intros st Hh.
  - simpl. rewrite Nat.add_0_r. auto.
  - simpl. rewrite (getNextGroqApiKey_healthy pool st Hn Hh).
    set (st1 := mkState _ _ _).
    assert (Hh1 : healthy pool st1) by exact Hh.
    destruct (IH st1 Hh1) as (Hkeys & Hcounts & Hptr).
    destruct (selectMany pool n st1) as [st2 keys]. simpl in *.
    assert (Hstep : forall i,
              (((currentGroqKeyIndex st mod length pool + 1) mod length pool + i)
                mod length pool
              = (currentGroqKeyIndex st + S i) mod length pool)%nat).
    { intros i. rewrite Nat.Div0.add_mod_idemp_l.
      rewrite <- Nat.add_assoc, Nat.Div0.add_mod_idemp_l. f_equal. }
    split; [|split].
    + rewrite Nat.add_0_r. f_equal. rewrite Hkeys, <- seq_shift, map_map.
      apply map_ext. intros i. rewrite Hstep. reflexivity.
    + exact Hcounts.
    + rewrite Hptr, Hstep. reflexivity.
Qed.

Lemma selection_is_round_robin_witness :
  snd (selectMany Examples.pool3 4 Rotator.initial)
  = map (fun i => Examples.pool3
                    !! ((currentGroqKeyIndex Rotator.initial + i)
                          mod length Examples.pool3)%nat)
        (seq 0 4)
  /\ keyFailureCounts (fst (selectMany Examples.pool3 4 Rotator.initial))
     = keyFailureCounts Rotator.initial
  /\ (currentGroqKeyIndex (fst (selectMany Examples.pool3 4 Rotator.initial))
        mod length Examples.pool3
      = (currentGroqKeyIndex Rotator.initial + 4) mod length Examples.pool3)%nat.
Proof.
  apply (selection_is_round_robin Examples.pool3 4 Rotator.initial).
  - simpl. lia.
  - intros k _. vm_compute. lia.
Defined.

(** X2.  A selection leaves the pointer inside the pool, leaves the pending
    resets alone and never raises a failure counter. *)
Theorem selection_keeps_state_in_range (pool : list string) (st : State) :
  (1 <= length pool)%nat ->
  (currentGroqKeyIndex (fst (getNextGroqApiKey pool st)) < length pool)%nat
  /\ pendingResets (fst (getNextGroqApiKey pool st)) = pendingResets st
  /\ forall key,
       (failuresOf (keyFailureCounts (fst (getNextGroqApiKey pool st))) key
        <= failuresOf (keyFailureCounts st) key)%nat.
Proof.
  intros Hn. unfold getNextGroqApiKey.
  destruct (scanKeys pool st (seq 0 (length pool))) as [[index key]|]; simpl.
  - split; [apply Nat.mod_upper_bound; lia|]. split; [reflexivity|]. intros; lia.
  - split; [lia|]. split; [reflexivity|].
    intros key. unfold failuresOf. rewrite lookup_empty. simpl. lia.
Qed.

Lemma selection_keeps_state_in_range_witness :
  (currentGroqKeyIndex (fst (getNextGroqApiKey Examples.pool3 Examples.rotatorAtB))
   < length Examples.pool3)%nat
  /\ pendingResets (fst (getNextGroqApiKey Examples.pool3 Examples.rotatorAtB))
     = pendingResets Examples.rotatorAtB
  /\ forall key,
       (failuresOf
          (keyFailureCounts (fst (getNextGroqApiKey Examples.pool3 Examples.rotatorAtB)))
          key
        <= failuresOf (keyFailureCounts Examples.rotatorAtB) key)%nat.
Proof.
  apply (selection_keeps_state_in_range Examples.pool3 Examples.rotatorAtB).
  simpl. lia.
Defined.

Lemma markGroqKeyFailed_thrice t1 t2 t3 key st :
  failuresOf
    (keyFailureCounts
       (markGroqKeyFailed t3 key (markGroqKeyFailed t2 key (markGroqKeyFailed t1 key st))))
    key
  = (failuresOf (keyFailureCounts st) key + 3)%nat.
Proof. rewrite !markGroqKeyFailed_counts. lia. Qed.

(** X3.  After a key has been reported failed three times (and no reset has
    run), the next selection does not return it as long as another key of
    the pool is below the limit. *)
Theorem thrice_failed_key_is_skipped
  (pool : list string) (st : State) (t1 t2 t3 : N) (k k' : string) :
  k' ∈ pool ->
  k' <> k ->
  (failuresOf (keyFailureCounts st) (Some k') < 3)%nat ->
  snd (getNextGroqApiKey pool
         (markGroqKeyFailed t3 (Some k)
            (markGroqKeyFailed t2 (Some k) (markGroqKeyFailed t1 (Some k) st))))
  <> Some k.
Proof.
  intros Hin Hne Hk'.
  set (st3 := markGroqKeyFailed t3 (Some k) _).
  assert (Hk3 : (3 <= failuresOf (keyFailureCounts st3) (Some k))%nat).
  { unfold st3. rewrite markGroqKeyFailed_thrice. lia. }
  assert (Hk'3 : (failuresOf (keyFailureCounts st3) (Some k') < 3)%nat).
  { unfold st3. rewrite !markGroqKeyFailed_other by congruence. exact Hk'. }
  unfold getNextGroqApiKey.
  destruct (scanKeys pool st3 (seq 0 (length pool))) as [[index key]|] eqn:Hscan.
  - destruct (scanKeys_Some _ _ _ _ _ Hscan) as (_ & Hf & _). simpl.
    intros ->. lia.
  - pose proof (scanKeys_exhausted pool st3 Hscan k' Hin). lia.
Qed.

Lemma thrice_failed_key_is_skipped_witness :
  snd (getNextGroqApiKey Examples.pool3
         (markGroqKeyFailed 30 (Some "a")
            (markGroqKeyFailed 20 (Some "a")
               (markGroqKeyFailed 10 (Some "a") Rotator.initial))))
  <> Some "a".
Proof.
  apply (thrice_failed_key_is_skipped Examples.pool3 Rotator.initial 10 20 30 "a" "b").
  - right. left.
  - discriminate.
  - vm_compute. lia.
Defined.

(** X4.  The reset scheduled by a failure clears the whole counter of its
    key: sixty seconds after the first of two failures the counter is back
    to zero, however recent the second failure is, and the reset of the
    second failure is still pending when it came later. *)
Theorem first_reset_clears_later_failures (st : State) (t1 t2 later : N) (key : ApiKey) :
  (t1 <= t2)%N ->
  (t1 + 60000 <= later)%N ->
  (later < t2 + 60000)%N ->
  failuresOf
    (keyFailureCounts
       (runTimers later (markGroqKeyFailed t2 key (markGroqKeyFailed t1 key st))))
    key = 0%nat
  /\ ((t2 + 60000)%N, key)
     ∈ pendingResets
         (runTimers later (markGroqKeyFailed t2 key (markGroqKeyFailed t1 key st))).
Proof.
  intros H12 Hdue Hpending. split.
  - unfold runTimers, failuresOf. cbn [keyFailureCounts].
    rewrite fold_delete_lookup; [reflexivity|].
    exists ((t1 + 60000)%N, key). split; [|reflexivity].
    apply list_elem_of_In, filter_In. split.
    + unfold markGroqKeyFailed. simpl. apply in_or_app. left.
      apply in_or_app. right. left. reflexivity.
    + simpl. apply N.leb_le. exact Hdue.
  - unfold runTimers. cbn [pendingResets].
    apply list_elem_of_In, filter_In. split.
    + unfold markGroqKeyFailed. simpl. apply in_or_app. right. left. reflexivity.
    + simpl. apply negb_true_iff, N.leb_gt. exact Hpending.
Qed.

Lemma first_reset_clears_later_failures_witness :
  failuresOf
    (keyFailureCounts
       (runTimers 60000
          (markGroqKeyFailed 59000 (Some "a")
             (markGroqKeyFailed 0 (Some "a") Rotator.initial))))
    (Some "a") = 0%nat
  /\ ((59000 + 60000)%N, Some "a")
     ∈ pendingResets
         (runTimers 60000
            (markGroqKeyFailed 59000 (Some "a")
               (markGroqKeyFailed 0 (Some "a") Rotator.initial))).
Proof.
  apply (first_reset_clears_later_failures Rotator.initial 0 59000 60000 (Some "a"));
    vm_compute; congruence.
Defined.

End RotationFacts.

(* ================================================================== *)
(** * Further properties of the provider failover *)
(* ================================================================== *)

Section FailoverExtras.
Import Rotator Gateway FailoverLog FailoverCounts.

Lemma openaiCalls_app l1 l2 :
  openaiCalls (l1 ++ l2) = (openaiCalls l1 + openaiCalls l2)%nat.
Proof. unfold openaiCalls. rewrite List.filter_app, length_app. reflexivity. Qed.

Lemma LoopLog_no_openai n lastError log res :
  LoopLog n lastError log res -> openaiCalls log = 0%nat.
Proof. induction 1; simpl; auto. Qed.

(** The calls of one run to the secondary backend, counted. *)
Lemma invokeLLMWithFallback_openai_calls
  (env : Gateway.Env) (prompt : string) (preferOpenAI : bool) (w : World) :
  exists log,
    calls (fst (invokeLLMWithFallback env prompt preferOpenAI w)) = calls w ++ log
    /\ (openaiCalls log <= 1)%nat
    /\ (JS.truthy (OPENAI_API_KEY env) = false -> openaiCalls log = 0%nat).
Proof.
  unfold invokeLLMWithFallback.
  destruct (JS.truthy (OPENAI_API_KEY env)) eqn:Hkey.
  - destruct preferOpenAI; cbn [andb negb].
    + pose proof (callOpenAI_calls env prompt w) as Hc.
      destruct (callOpenAI env prompt w) as [w1 [response|e]]; cbn [fst snd] in Hc.
      * exists [OpenAICall (Returned response)]. cbn [fst]. rewrite Hc.
        split; [reflexivity|]. split; [unfold openaiCalls; simpl; lia | discriminate].
      * destruct (groqLoop_log env prompt (length (GROQ_API_KEYS env)) 0 None w1)
          as (loop & Hloop & Hshape).
        exists (OpenAICall (Thrown e) :: loop).
        destruct (groqLoop env prompt (length (GROQ_API_KEYS env)) 0 None w1)
          as [w2 [response|lastError]]; cbn [fst snd] in *;
          rewrite Hloop, Hc, <- app_assoc;
          (split; [reflexivity|]);
          (split; [|discriminate]);
          change (OpenAICall (Thrown e) :: loop) with ([OpenAICall (Thrown e)] ++ loop);
          rewrite openaiCalls_app, (LoopLog_no_openai _ _ _ _ Hshape); unfold openaiCalls; simpl; lia.
    + destruct (groqLoop_log env prompt (length (GROQ_API_KEYS env)) 0 None w)
        as (loop & Hloop & Hshape).
      destruct (groqLoop env prompt (length (GROQ_API_KEYS env)) 0 None w)
        as [w2 [response|lastError]]; cbn [fst snd] in *.
      * exists loop. split; [exact Hloop|].
        rewrite (LoopLog_no_openai _ _ _ _ Hshape). split; [lia | discriminate].
      * pose proof (callOpenAI_calls env prompt w2) as Hc.
        exists (loop ++ [OpenAICall (snd (callOpenAI env prompt w2))]).
        destruct (callOpenAI env prompt w2) as [w3 [response|e]]; cbn [fst snd] in *;
          rewrite Hc, Hloop, <- app_assoc;
          (split; [reflexivity|]);
          (split; [|discriminate]);
          rewrite openaiCalls_app, (LoopLog_no_openai _ _ _ _ Hshape); unfold openaiCalls; simpl; lia.
  - rewrite andb_false_r. cbn [andb].
    destruct (groqLoop_log env prompt (length (GROQ_API_KEYS env)) 0 None w)
      as (loop & Hloop & Hshape).
    exists loop.
    destruct (groqLoop env prompt (length (GROQ_API_KEYS env)) 0 None w)
      as [w2 [response|lastError]]; cbn [fst snd] in *;
      (split; [exact Hloop|]);
      rewrite (LoopLog_no_openai _ _ _ _ Hshape); (split; [lia | reflexivity]).
Qed.


(** The calls of one run to the primary backend, counted. *)
Lemma invokeLLMWithFallback_groq_calls
  (env : Gateway.Env) (prompt : string) (preferOpenAI : bool) (w : World) :
  exists log,
    calls (fst (invokeLLMWithFallback env prompt preferOpenAI w)) = calls w ++ log
    /\ (length (groqResults log) <= length (GROQ_API_KEYS env))%nat.
Proof.
  destruct (invokeLLMWithFallback_log env prompt preferOpenAI w)
    as (pre & loop & post & res & Hcalls & Hcases).
  exists (pre ++ loop ++ post). split; [exact Hcalls|].
  rewrite !groqResults_app.
  destruct Hcases as [(response & -> & -> & -> & _) | (Hpre & _ & Hshape & Hres)].
  - simpl. lia.
  - assert (groqResults pre = []) as -> by (destruct Hpre as [->|[e ->]]; reflexivity).
    assert (groqResults post = []) as ->.
    { destruct res as [response|lastError]; [destruct Hres as [-> _]; reflexivity|].
      destruct Hres as [(-> & _)|[(r & -> & _)|(e & -> & _)]]; reflexivity. }
    simpl. rewrite app_nil_r. exact (LoopLog_bound _ _ _ _ Hshape).
Qed.

Lemma callOpenAI_result env prompt w :
  snd (callOpenAI env prompt w) = snd (openaiInvoke env prompt).
Proof. unfold callOpenAI. destruct (openaiInvoke env prompt); reflexivity. Qed.

(** Where the call to the secondary backend stands among the calls of one
    run, when a key is configured for it. *)
Lemma invokeLLMWithFallback_order
  (env : Gateway.Env) (prompt : string) (preferOpenAI : bool) (w : World) :
  JS.truthy (OPENAI_API_KEY env) = true ->
  exists log,
    calls (fst (invokeLLMWithFallback env prompt preferOpenAI w)) = calls w ++ log
    /\ (preferOpenAI = true ->
        exists rest,
          log = OpenAICall (snd (openaiInvoke env prompt)) :: rest
          /\ openaiCalls rest = 0%nat)
    /\ (preferOpenAI = false ->
        (exists response,
           openaiCalls log = 0%nat
           /\ last (groqResults log) = Some (Returned response)
           /\ snd (invokeLLMWithFallback env prompt preferOpenAI w) = Returned response)
        \/ (exists rest,
              log = rest ++ [OpenAICall (snd (openaiInvoke env prompt))]
              /\ openaiCalls rest = 0%nat
              /\ Forall failed (groqResults rest))).
Proof.
  intros Hkey. unfold invokeLLMWithFallback. rewrite Hkey.
  destruct preferOpenAI; cbn [andb negb].
  - pose proof (callOpenAI_calls env prompt w) as Hc.
    pose proof (callOpenAI_result env prompt w) as Hr.
    destruct (callOpenAI env prompt w) as [w1 [response|e]]; cbn [fst snd] in Hc, Hr.
    + exists [OpenAICall (Returned response)]. cbn [fst].
      split; [exact Hc|]. split; [|discriminate].
      intros _. exists []. rewrite <- Hr. split; reflexivity.
    + destruct (groqLoop_log env prompt (length (GROQ_API_KEYS env)) 0 None w1)
        as (loop & Hloop & Hshape).
      exists (OpenAICall (Thrown e) :: loop).
      split.
      * destruct (groqLoop env prompt (length (GROQ_API_KEYS env)) 0 None w1)
          as [w2 [response|lastError]]; cbn [fst snd] in *;
          rewrite Hloop, Hc, <- app_assoc; reflexivity.
      * split; [|discriminate]. intros _. exists loop. rewrite <- Hr.
        split; [reflexivity|exact (LoopLog_no_openai _ _ _ _ Hshape)].
  - destruct (groqLoop_log env prompt (length (GROQ_API_KEYS env)) 0 None w)
      as (loop & Hloop & Hshape).
    pose proof (LoopLog_outcome _ _ _ _ Hshape) as Hout.
    destruct (groqLoop env prompt (length (GROQ_API_KEYS env)) 0 None w)
      as [w2 [response|lastError]]; cbn [fst snd] in *.
    + exists loop. split; [exact Hloop|]. split; [discriminate|].
      intros _. left. exists response.
      split; [exact (LoopLog_no_openai _ _ _ _ Hshape)|]. split; [exact Hout|reflexivity].
    + pose proof (callOpenAI_calls env prompt w2) as Hc.
      pose proof (callOpenAI_result env prompt w2) as Hr.
      exists (loop ++ [OpenAICall (snd (openaiInvoke env prompt))]).
      split.
      * rewrite <- Hr.
        destruct (callOpenAI env prompt w2) as [w3 [response|e]]; cbn [fst snd] in *;
          rewrite Hc, Hloop, <- app_assoc; reflexivity.
      * split; [discriminate|]. intros _. right. exists loop.
        split; [reflexivity|].
        split; [exact (LoopLog_no_openai _ _ _ _ Hshape)|exact (proj1 Hout)].
Qed.

(** X5.  One run calls the secondary backend at most once, and not at all
    when no key is configured for it.  With a key, the call is the first
    call of the run when the secondary backend is preferred, and no other
    follows; otherwise it is the last call of the run, made only after every
    attempt on the primary backend has failed - when an attempt succeeds,
    the secondary backend is not called. *)
Theorem secondary_backend_called_once_first_or_last
  (env : Gateway.Env) (prompt : string) (preferOpenAI : bool) (w : World) :
  exists log,
    calls (fst (invokeLLMWithFallback env prompt preferOpenAI w)) = calls w ++ log
    /\ (openaiCalls log <= 1)%nat
    /\ (JS.truthy (OPENAI_API_KEY env) = false -> openaiCalls log = 0%nat)
    /\ (JS.truthy (OPENAI_API_KEY env) = true ->
        preferOpenAI = true ->
        exists rest,
          log = OpenAICall (snd (openaiInvoke env prompt)) :: rest
          /\ openaiCalls rest = 0%nat)
    /\ (JS.truthy (OPENAI_API_KEY env) = true ->
        preferOpenAI = false ->
        (exists response,
           openaiCalls log = 0%nat
           /\ last (groqResults log) = Some (Returned response)
           /\ snd (invokeLLMWithFallback env prompt preferOpenAI w) = Returned response)
        \/ (exists rest,
              log = rest ++ [OpenAICall (snd (openaiInvoke env prompt))]
              /\ openaiCalls rest = 0%nat
              /\ Forall failed (groqResults rest))).
Proof.
  destruct (invokeLLMWithFallback_openai_calls env prompt preferOpenAI w)
    as (log & Hlog & Hcount & Hnokey).
  exists log. split; [exact Hlog|]. split; [exact Hcount|]. split; [exact Hnokey|].
  split.
  - intros Hkey Hpref.
    destruct (invokeLLMWithFallback_order env prompt preferOpenAI w Hkey)
      as (log' & Hlog' & Hfirst & _).
    rewrite Hlog in Hlog'. apply app_inv_head in Hlog'. subst log'.
    exact (Hfirst Hpref).
  - intros Hkey Hpref.
    destruct (invokeLLMWithFallback_order env prompt preferOpenAI w Hkey)
      as (log' & Hlog' & _ & Hlast).
    rewrite Hlog in Hlog'. apply app_inv_head in Hlog'. subst log'.
    exact (Hlast Hpref).
Qed.

(** X6.  With an empty credential pool the primary backend is never called
    and no key is reported.  Without a key for the secondary backend nothing
    is called at all and the generic error is thrown; with one, the single
    call to it decides: its response is returned, its error is replaced by
    the generic error. *)
Theorem empty_pool_leaves_only_the_secondary
  (env : Gateway.Env) (prompt : string) (preferOpenAI : bool) (w : World) :
  GROQ_API_KEYS env = [] ->
  (JS.truthy (OPENAI_API_KEY env) = false ->
   invokeLLMWithFallback env prompt preferOpenAI w
   = (w, Thrown (mkError (Some "All LLM providers failed") None)))
  /\ (JS.truthy (OPENAI_API_KEY env) = true ->
      calls (fst (invokeLLMWithFallback env prompt preferOpenAI w))
      = calls w ++ [OpenAICall (snd (openaiInvoke env prompt))]
      /\ snd (invokeLLMWithFallback env prompt preferOpenAI w)
         = match snd (openaiInvoke env prompt) with
           | Returned response => Returned response
           | Thrown _ => Thrown (mkError (Some "All LLM providers failed") None)
           end).
Proof.
  intros Hpool. unfold invokeLLMWithFallback. rewrite Hpool. cbn [length groqLoop].
  split; intros Hkey; rewrite Hkey.
  - rewrite andb_false_r. reflexivity.
  - unfold callOpenAI.
    destruct preferOpenAI; cbn [andb negb];
      destruct (openaiInvoke env prompt) as [d [response|e]]; cbn; rewrite ?Hkey;
      cbn; split; reflexivity.
Qed.

Lemma empty_pool_leaves_only_the_secondary_witness :
  invokeLLMWithFallback Scenarios.noProviderEnv "summarize" false Examples.coolingWorld
  = (Examples.coolingWorld, Thrown (mkError (Some "All LLM providers failed") None)).
Proof.
  apply (proj1 (empty_pool_leaves_only_the_secondary Scenarios.noProviderEnv "summarize"
                  false Examples.coolingWorld eq_refl)).
  reflexivity.
Defined.

(** One selection when the slot under the pointer is below the limit. *)
Lemma getNextGroqApiKey_slot pool st :
  (1 <= length pool)%nat ->
  (failuresOf (keyFailureCounts st)
     (pool !! (currentGroqKeyIndex st mod length pool)%nat) < 3)%nat ->
  getNextGroqApiKey pool st
  = (mkState ((currentGroqKeyIndex st mod length pool + 1) mod length pool)%nat
             (keyFailureCounts st) (pendingResets st),
     pool !! (currentGroqKeyIndex st mod length pool)%nat).
Proof.
  intros Hn Hslot. unfold getNextGroqApiKey.
  destruct (length pool) as [|n] eqn:Hlen; [lia|].
  change (seq 0 (S n)) with (0%nat :: seq 1 n).
  rewrite <- Hlen in *. rewrite scanKeys_first_healthy; rewrite Nat.add_0_r;
    [reflexivity | exact Hslot].
Qed.

Lemma fold_delete_le (due : list (N * option string)) :
  forall (counts : gmap (option string) nat) key,
    (failuresOf (fold_left (fun m t => delete (snd t) m) due counts) key
     <= failuresOf counts key)%nat.
Proof.
  induction due as [|t due IH]; intros counts key; simpl; [lia|].
  etransitivity; [apply IH|]. unfold failuresOf.
  destruct (decide (snd t = key)) as [->|Hne].
  - rewrite lookup_delete_eq. simpl. lia.
  - rewrite lookup_delete_ne by exact Hne. lia.
Qed.

Lemma runTimers_counts_le now st key :
  (failuresOf (keyFailureCounts (runTimers now st)) key
   <= failuresOf (keyFailureCounts st) key)%nat.
Proof. unfold runTimers. cbn [keyFailureCounts]. apply fold_delete_le. Qed.

Lemma failuresOf_insert_ne (counts : gmap (option string) nat) key key' v :
  key <> key' -> failuresOf (<[key := v]> counts) key' = failuresOf counts key'.
Proof. intros Hne. unfold failuresOf. rewrite lookup_insert_ne by exact Hne. reflexivity. Qed.

Lemma groqKeys_app l1 l2 : groqKeys (l1 ++ l2) = groqKeys l1 ++ groqKeys l2.
Proof. apply flat_map_app. Qed.

Lemma slot_shift c n i :
  (((c mod n + 1) mod n + i) mod n = (c + S i) mod n)%nat.
Proof.
  rewrite Nat.Div0.add_mod_idemp_l, <- Nat.add_assoc, Nat.Div0.add_mod_idemp_l.
  f_equal.
Qed.

Lemma slots_differ c n i j :
  (i < j)%nat -> (j < n)%nat -> ((c + i) mod n)%nat <> ((c + j) mod n)%nat.
Proof.
  intros Hij Hjn Heq.
  assert (Hn : n <> 0%nat) by lia.
  assert (Hd : ((c + j) mod n = ((c + i) mod n + (j - i)) mod n)%nat).
  { rewrite Nat.Div0.add_mod_idemp_l. f_equal. lia. }
  rewrite <- Heq in Hd.
  pose proof (Nat.mod_upper_bound (c + i) n Hn) as Hb.
  set (a := ((c + i) mod n)%nat) in *.
  destruct (Nat.lt_ge_cases (a + (j - i)) n) as [Hlt|Hge].
  - rewrite (Nat.mod_small _ _ Hlt) in Hd. lia.
  - replace (a + (j - i))%nat with ((a + (j - i) - n) + 1 * n)%nat in Hd by lia.
    rewrite Nat.Div0.mod_add, Nat.mod_small in Hd by lia. lia.
Qed.

(** The keys tried by the loop when the slots ahead of the pointer are
    below the limit and the pool has no key twice. *)
Lemma groqLoop_keys env prompt remaining :
  forall attempt lastError w,
    NoDup (GROQ_API_KEYS env) ->
    (remaining <= length (GROQ_API_KEYS env))%nat ->
    (forall j, (j < remaining)%nat ->
       (failuresOf (keyFailureCounts (rotator w))
          (GROQ_API_KEYS env
             !! ((currentGroqKeyIndex (rotator w) + j)
                   mod length (GROQ_API_KEYS env))%nat) < 3)%nat) ->
    exists log,
      calls (fst (groqLoop env prompt remaining attempt lastError w)) = calls w ++ log
      /\ openaiCalls log = 0%nat
      /\ groqKeys log
         = map (fun j => GROQ_API_KEYS env
                           !! ((currentGroqKeyIndex (rotator w) + j)
                                 mod length (GROQ_API_KEYS env))%nat)
               (seq 0 (length (groqKeys log)))
      /\ (length (groqKeys log) <= remaining)%nat.
Proof.
  set (pool := GROQ_API_KEYS env).
  induction remaining as [|n IH]; intros attempt lastError w Hnd Hle Hslots.
  - exists []. simpl. rewrite app_nil_r. auto.
  - assert (Hn : (1 <= length pool)%nat) by lia.
    pose proof (Hslots 0%nat ltac:(lia)) as H0. rewrite Nat.add_0_r in H0.
    simpl. unfold createGroqLLM. fold pool.
    rewrite (getNextGroqApiKey_slot pool (rotator w) Hn H0).
    set (key0 := pool !! (currentGroqKeyIndex (rotator w) mod length pool)%nat) in *.
    destruct (groqInvoke env attempt key0 prompt) as [d [response|e]].
    + exists [GroqCall attempt key0 (Returned response)]. simpl.
      rewrite Nat.add_0_r. repeat split; auto. lia.
    + destruct (rateLimited e).
      * match goal with
        | |- context [groqLoop env prompt n (S attempt) (Some e) ?w3] =>
            destruct (IH (S attempt) (Some e) w3 Hnd ltac:(lia))
              as (log & Hlog & Hno & Hkeys & Hlen)
        end.
        { intros j Hj.
          cbn [rotator record elapse markGroqKeyFailed runTimers
               keyFailureCounts currentGroqKeyIndex clock calls].
          rewrite slot_shift.
          assert (Hne : key0 <> pool !! ((currentGroqKeyIndex (rotator w) + S j)
                                          mod length pool)%nat).
          { unfold key0. rewrite <- (Nat.add_0_r (currentGroqKeyIndex (rotator w))) at 1.
            intros Heq.
            assert (Hb : ((currentGroqKeyIndex (rotator w) + 0) mod length pool
                          < length pool)%nat) by (apply Nat.mod_upper_bound; lia).
            destruct (lookup_lt_is_Some_2 pool _ Hb) as [x Hx].
            rewrite Hx in Heq. symmetry in Heq.
            pose proof (NoDup_lookup pool _ _ x Hnd Hx Heq) as Hsame.
            exact (slots_differ (currentGroqKeyIndex (rotator w)) (length pool)
                     0 (S j) ltac:(lia) ltac:(lia) Hsame). }
          rewrite failuresOf_insert_ne by exact Hne.
          eapply Nat.le_lt_trans; [apply fold_delete_le|].
          apply Hslots. lia. }
        cbn [rotator record elapse markGroqKeyFailed runTimers
             keyFailureCounts currentGroqKeyIndex clock calls] in Hkeys.
        exists (GroqCall attempt key0 (Thrown e) :: KeyMarkedFailed key0 :: log).
        split; [rewrite Hlog; simpl; rewrite <- !app_assoc; reflexivity|].
        split; [exact Hno|]. split; [|simpl; lia].
        simpl. rewrite Nat.add_0_r. f_equal.
        rewrite Hkeys at 1. rewrite <- seq_shift, map_map.
        apply map_ext. intros j. rewrite slot_shift. reflexivity.
      * exists [GroqCall attempt key0 (Thrown e); KeyMarkedFailed key0]. simpl.
        rewrite Nat.add_0_r, <- !app_assoc. repeat split; auto. lia.
Qed.

(** The keys of one run whose rotator no other request touches. *)
Lemma invokeLLMWithFallback_keys
  (env : Gateway.Env) (prompt : string) (preferOpenAI : bool) (w : World) :
  NoDup (GROQ_API_KEYS env) ->
  Rotation.healthy (GROQ_API_KEYS env) (rotator w) ->
  exists log,
    calls (fst (invokeLLMWithFallback env prompt preferOpenAI w)) = calls w ++ log
    /\ groqKeys log
       = map (fun i => GROQ_API_KEYS env
                         !! ((currentGroqKeyIndex (rotator w) + i)
                               mod length (GROQ_API_KEYS env))%nat)
             (seq 0 (length (groqKeys log)))
    /\ NoDup (groqKeys log).
Proof.
  intros Hnd Hh.
  set (pool := GROQ_API_KEYS env) in *.
  assert (Hslots : forall d j,
            (j < length pool)%nat ->
            (failuresOf (keyFailureCounts (rotator (elapse d w)))
               (pool !! ((currentGroqKeyIndex (rotator (elapse d w)) + j)
                           mod length pool)%nat) < 3)%nat).
  { intros d j Hj. cbn [rotator elapse].
    eapply Nat.le_lt_trans; [apply runTimers_counts_le|].
    cbn [runTimers currentGroqKeyIndex].
    assert (Hb : ((currentGroqKeyIndex (rotator w) + j) mod length pool
                  < length pool)%nat) by (apply Nat.mod_upper_bound; lia).
    destruct (lookup_lt_is_Some_2 pool _ Hb) as [x Hx]. rewrite Hx.
    apply Hh. apply list_elem_of_lookup. eexists. exact Hx. }
  assert (Hslots0 : forall j,
            (j < length pool)%nat ->
            (failuresOf (keyFailureCounts (rotator w))
               (pool !! ((currentGroqKeyIndex (rotator w) + j) mod length pool)%nat)
             < 3)%nat).
  { intros j Hj.
    assert (Hb : ((currentGroqKeyIndex (rotator w) + j) mod length pool
                  < length pool)%nat) by (apply Nat.mod_upper_bound; lia).
    destruct (lookup_lt_is_Some_2 pool _ Hb) as [x Hx]. rewrite Hx.
    apply Hh. apply list_elem_of_lookup. eexists. exact Hx. }
  assert (Hfinish : forall log,
            groqKeys log
            = map (fun i => pool !! ((currentGroqKeyIndex (rotator w) + i)
                                       mod length pool)%nat)
                  (seq 0 (length (groqKeys log))) ->
            (length (groqKeys log) <= length pool)%nat ->
            NoDup (groqKeys log)).
  { intros log Hkeys Hlen. rewrite Hkeys.
    apply NoDup_fmap_2_strong; [|apply NoDup_seq].
    intros i j Hi Hj Heq.
    apply elem_of_seq in Hi, Hj.
    destruct (Nat.lt_trichotomy i j) as [Hlt|[Heq'|Hgt]]; [|exact Heq'|].
    - exfalso.
      assert (Hb : ((currentGroqKeyIndex (rotator w) + i) mod length pool
                    < length pool)%nat) by (apply Nat.mod_upper_bound; lia).
      destruct (lookup_lt_is_Some_2 pool _ Hb) as [x Hx].
      rewrite Hx in Heq. symmetry in Heq.
      pose proof (NoDup_lookup pool _ _ x Hnd Hx Heq) as Hsame.
      exact (slots_differ (currentGroqKeyIndex (rotator w)) (length pool)
               i j Hlt ltac:(lia) Hsame).
    - exfalso.
      assert (Hb : ((currentGroqKeyIndex (rotator w) + j) mod length pool
                    < length pool)%nat) by (apply Nat.mod_upper_bound; lia).
      destruct (lookup_lt_is_Some_2 pool _ Hb) as [x Hx].
      rewrite Hx in Heq.
      pose proof (NoDup_lookup pool _ _ x Hnd Hx Heq) as Hsame.
      exact (slots_differ (currentGroqKeyIndex (rotator w)) (length pool)
               j i Hgt ltac:(lia) Hsame). }
  unfold invokeLLMWithFallback. fold pool.
  destruct (preferOpenAI && JS.truthy (OPENAI_API_KEY env)) eqn:Hfirst.
  - unfold callOpenAI at 1.
    destruct (openaiInvoke env prompt) as [d [response|e]] eqn:Hopen.
    + exists [OpenAICall (Returned response)]. simpl.
      split; [reflexivity|]. split; [reflexivity | constructor].
    + destruct (groqLoop_keys env prompt (length pool) 0 None
                  (record (OpenAICall (Thrown e)) (elapse d w)) Hnd (Nat.le_refl _)
                  (Hslots d))
        as (loop & Hloop & Hno & Hkeys & Hlen).
      cbn [rotator record elapse runTimers currentGroqKeyIndex] in Hkeys.
      destruct (groqLoop env prompt (length pool) 0 None
                  (record (OpenAICall (Thrown e)) (elapse d w)))
        as [w2 [response|lastError]]; cbn [fst snd] in *.
      * exists (OpenAICall (Thrown e) :: loop).
        split; [rewrite Hloop; simpl; rewrite <- app_assoc; reflexivity|].
        split; [exact Hkeys | exact (Hfinish loop Hkeys Hlen)].
      * apply andb_true_iff in Hfirst as [-> Hkey]. rewrite Hkey. cbn [andb negb fst snd].
        exists (OpenAICall (Thrown e) :: loop).
        split; [rewrite Hloop; simpl; rewrite <- app_assoc; reflexivity|].
        split; [exact Hkeys | exact (Hfinish loop Hkeys Hlen)].
  - destruct (groqLoop_keys env prompt (length pool) 0 None w Hnd (Nat.le_refl _) Hslots0)
      as (loop & Hloop & Hno & Hkeys & Hlen).
    destruct (groqLoop env prompt (length pool) 0 None w)
      as [w2 [response|lastError]]; cbn [fst snd] in *.
    + exists loop. split; [exact Hloop|].
      split; [exact Hkeys | exact (Hfinish loop Hkeys Hlen)].
    + destruct (JS.truthy (OPENAI_API_KEY env) && negb preferOpenAI).
      * pose proof (callOpenAI_calls env prompt w2) as Hc.
        exists (loop ++ [OpenAICall (snd (callOpenAI env prompt w2))]).
        assert (Hg : groqKeys (loop ++ [OpenAICall (snd (callOpenAI env prompt w2))])
                     = groqKeys loop) by (rewrite groqKeys_app; apply app_nil_r).
        rewrite Hg.
        destruct (callOpenAI env prompt w2) as [w3 [response|e]]; cbn [fst snd] in *;
          (split; [rewrite Hc, Hloop, <- app_assoc; reflexivity|]);
          (split; [exact Hkeys | exact (Hfinish loop Hkeys Hlen)]).
      * exists loop. split; [exact Hloop|].
        split; [exact Hkeys | exact (Hfinish loop Hkeys Hlen)].
Qed.

(** With nothing done by other requests, an await is the await of
    [Gateway], and so are the loop and the failover. *)
Lemma elapseAmong_quiet pool d w : Shared.elapseAmong pool [] d w = elapse d w.
Proof. reflexivity. Qed.

Lemma groqLoop_quiet env prompt others :
  Shared.undisturbed others ->
  forall remaining attempt lastError w,
    Shared.groqLoop env prompt others remaining attempt lastError w
    = groqLoop env prompt remaining attempt lastError w.
Proof.
  intros Hq. induction remaining as [|n IH]; intros attempt lastError w; [reflexivity|].
  cbn [Shared.groqLoop groqLoop]. rewrite (Hq (Shared.Attempt attempt)).
  destruct (createGroqLLM env w) as [w1 apiKey].
  destruct (groqInvoke env attempt apiKey prompt) as [d [response|error]];
    rewrite elapseAmong_quiet; [reflexivity|].
  destruct (rateLimited error); [apply IH|reflexivity].
Qed.

Lemma invokeLLMWithFallback_quiet env prompt preferOpenAI others w :
  Shared.undisturbed others ->
  Shared.invokeLLMWithFallback env prompt preferOpenAI others w
  = invokeLLMWithFallback env prompt preferOpenAI w.
Proof.
  intros Hq. unfold Shared.invokeLLMWithFallback, invokeLLMWithFallback, Shared.callOpenAI,
    callOpenAI.
  rewrite (Hq Shared.FirstOpenAI), (Hq Shared.LastOpenAI).
  destruct (openaiInvoke env prompt) as [d result]. rewrite !elapseAmong_quiet.
  destruct (preferOpenAI && JS.truthy (OPENAI_API_KEY env)).
  - destruct result as [response|e]; [reflexivity|].
    rewrite (groqLoop_quiet env prompt others Hq). reflexivity.
  - rewrite (groqLoop_quiet env prompt others Hq). reflexivity.
Qed.

(** X7.  The rotator is shared by all requests.  When no other request
    touches it during the awaits of a run, the pool holds no key twice and
    no key has reached the failure limit, the attempts of the run go round
    the pool from the pointer: the [i]-th attempt uses the key in slot
    [(pointer + i) mod N], so that no credential is tried twice. *)
Theorem undisturbed_run_tries_each_key_once
  (env : Gateway.Env) (prompt : string) (preferOpenAI : bool)
  (others : Shared.Await -> list (N * Shared.Action)) (w : World) :
  Shared.undisturbed others ->
  NoDup (GROQ_API_KEYS env) ->
  Rotation.healthy (GROQ_API_KEYS env) (rotator w) ->
  exists log,
    calls (fst (Shared.invokeLLMWithFallback env prompt preferOpenAI others w))
    = calls w ++ log
    /\ groqKeys log
       = map (fun i => GROQ_API_KEYS env
                         !! ((currentGroqKeyIndex (rotator w) + i)
                               mod length (GROQ_API_KEYS env))%nat)
             (seq 0 (length (groqKeys log)))
    /\ NoDup (groqKeys log).
Proof.
  intros Hq Hnd Hh. rewrite (invokeLLMWithFallback_quiet env prompt preferOpenAI others w Hq).
  exact (invokeLLMWithFallback_keys env prompt preferOpenAI w Hnd Hh).
Qed.

Lemma undisturbed_run_tries_each_key_once_witness :
  exists log,
    calls (fst (Shared.invokeLLMWithFallback Examples.failingEnv "summarize" false
                  (fun _ => []) Scenarios.freshWorld))
    = calls Scenarios.freshWorld ++ log
    /\ groqKeys log
       = map (fun i => GROQ_API_KEYS Examples.failingEnv
                         !! ((currentGroqKeyIndex (rotator Scenarios.freshWorld) + i)
                               mod length (GROQ_API_KEYS Examples.failingEnv))%nat)
             (seq 0 (length (groqKeys log)))
    /\ NoDup (groqKeys log).
Proof.
  apply (undisturbed_run_tries_each_key_once Examples.failingEnv "summarize" false
           (fun _ => []) Scenarios.freshWorld).
  - intros a. reflexivity.
  - apply NoDup_cons. split; [intros Hin; inversion Hin as [|? ? ? Hin']; inversion Hin'|].
    apply NoDup_cons. split; [intros Hin; inversion Hin|apply NoDup_nil_2].
  - intros k _. vm_compute. lia.
Defined.

(** The condition on the other requests is needed: one selection by another
    request during the first attempt brings the pointer of a two-key pool
    back, and the run tries its first key twice. *)
Example interleaved_selection_repeats_a_key :
  groqKeys
    (calls (fst (Shared.invokeLLMWithFallback Examples.failingEnv "summarize" false
                   Scenarios.oneSelection Scenarios.freshWorld)))
  = [Some "a"; Some "a"].
Proof. vm_compute. reflexivity. Qed.

End FailoverExtras.

(* ================================================================== *)
(** * Properties of the text cleaning *)
(* ================================================================== *)

Section TextFacts.
Import Text.

Lemma length_sliceTo n s : (String.length (JS.sliceTo n s) <= n)%nat.
Proof.
  revert s. induction n as [|n IH]; intros [|c r]; simpl; try lia.
  specialize (IH r). lia.
Qed.

Lemma length_sliceTo_short n s :
  (String.length s <= n)%nat -> JS.sliceTo n s = s.
Proof.
  revert s. induction n as [|n IH]; intros [|c r]; simpl; intros H; try reflexivity; try lia.
  rewrite IH by lia. reflexivity.
Qed.

Lemma length_sliceTo_long n s :
  (n <= String.length s)%nat -> String.length (JS.sliceTo n s) = n.
Proof.
  revert s. induction n as [|n IH]; intros [|c r]; simpl; intros H; try reflexivity; try lia.
  rewrite IH by lia. reflexivity.
Qed.

Lemma collapse_singleSpaced b s :
  singleSpacedFrom b (JS.collapseFrom b s) = true.
Proof.
  revert b. induction s as [|c r IH]; intros b; simpl; [reflexivity|].
  destruct (JS.isWhiteSpace c) eqn:Hc.
  - destruct b; [apply IH|]. simpl. apply IH.
  - simpl. rewrite Hc. apply IH.
Qed.

Lemma singleSpacedFrom_weaken s :
  singleSpacedFrom true s = true -> singleSpacedFrom false s = true.
Proof.
  destruct s as [|c r]; simpl; [reflexivity|].
  destruct (JS.isWhiteSpace c); [|tauto].
  rewrite andb_false_r. discriminate.
Qed.

Lemma trimStart_singleSpaced s :
  singleSpacedFrom false s = true -> singleSpacedFrom true (JS.trimStart s) = true.
Proof.
  destruct s as [|c r]; simpl; [reflexivity|].
  destruct (JS.isWhiteSpace c) eqn:Hc.
  - intros H. apply andb_true_iff in H as [_ Hr].
    destruct r as [|c' r']; simpl in *; [reflexivity|].
    destruct (JS.isWhiteSpace c') eqn:Hc'.
    + rewrite andb_false_r in Hr. discriminate.
    + simpl. rewrite Hc'. exact Hr.
  - simpl. rewrite Hc. tauto.
Qed.

Lemma trimEnd_singleSpaced s :
  forall b, singleSpacedFrom b s = true -> singleSpacedFrom b (JS.trimEnd s) = true.
Proof.
  induction s as [|c r IH]; intros b; simpl; [reflexivity|].
  destruct (JS.isWhiteSpace c) eqn:Hc.
  - intros H. apply andb_true_iff in H as [Hhead Hr].
    specialize (IH true Hr).
    destruct (JS.trimEnd r) as [|c' r'] eqn:Ht; [reflexivity|].
    cbn [singleSpacedFrom]. rewrite Hc, Hhead. exact IH.
  - intros Hr. specialize (IH false Hr).
    destruct (JS.trimEnd r) as [|c' r'] eqn:Ht.
    + simpl. rewrite Hc. reflexivity.
    + cbn [singleSpacedFrom]. rewrite Hc. exact IH.
Qed.

Lemma sliceTo_singleSpaced n :
  forall b s, singleSpacedFrom b s = true -> singleSpacedFrom b (JS.sliceTo n s) = true.
Proof.
  induction n as [|n IH]; intros b [|c r]; simpl; try reflexivity.
  destruct (JS.isWhiteSpace c).
  - intros H. apply andb_true_iff in H as [Hhead Hr]. rewrite Hhead. apply IH, Hr.
  - apply IH.
Qed.

(** The normalisation shared by [cleanLegalDocument] and [fetchPdfText]. *)
Lemma normalised_singleSpaced n raw :
  singleSpaced (JS.sliceTo n (JS.trim (JS.collapseWhiteSpace raw))) = true.
Proof.
  unfold singleSpaced, JS.trim, JS.collapseWhiteSpace.
  apply sliceTo_singleSpaced, trimEnd_singleSpaced, trimStart_singleSpaced.
  apply collapse_singleSpaced.
Qed.

(** X8.  Whatever the input, the cleaned document has at most 15000
    characters, does not start with white space, and its only white space
    is single spaces between other characters: no line break, no tab, no
    run of spaces is left. *)
Theorem cleanLegalDocument_is_bounded_and_single_spaced (text : option string) :
  (N.of_nat (String.length (cleanLegalDocument text)) <= 15000)%N
  /\ singleSpaced (cleanLegalDocument text) = true.
Proof.
  unfold cleanLegalDocument.
  destruct text as [text|]; [|split; [simpl; lia | reflexivity]].
  destruct (String.eqb text ""); [split; [simpl; lia | reflexivity]|].
  split.
  - pose proof (length_sliceTo (N.to_nat 15000)
                  (JS.trim (JS.collapseWhiteSpace
                     (String.concat Pipeline.nl
                        (List.filter (fun line => negb (isPageNumberLine line))
                           (splitOn "010"%char text)))))).
    lia.
  - apply normalised_singleSpaced.
Qed.

Lemma filter_all_dropped {A} (p : A -> bool) (l : list A) :
  forallb p l = true -> List.filter (fun x => negb (p x)) l = [].
Proof.
  induction l as [|x l IH]; simpl; [reflexivity|].
  intros H. apply andb_true_iff in H as [Hx Hl]. rewrite Hx. simpl. apply IH, Hl.
Qed.

(** A document all of whose lines are numbers (page numbers, with or
    without white space around them) is cleaned to the empty string. *)
Lemma cleanLegalDocument_drops_number_lines (text : string) :
  forallb isPageNumberLine (splitOn "010"%char text) = true ->
  cleanLegalDocument (Some text) = "".
Proof.
  intros Hall. unfold cleanLegalDocument.
  destruct (String.eqb text ""); [reflexivity|].
  rewrite (filter_all_dropped _ _ Hall). reflexivity.
Qed.

End TextFacts.

(* ================================================================== *)
(** * Properties of the summarization *)
(* ================================================================== *)

Section SummaryFacts.
Import Rotator Gateway FailoverLog FailoverCounts Summary.

(** The calls of one run of the failover, counted by backend. *)
Lemma invokeLLMWithFallback_counts
  (env : Gateway.Env) (prompt : string) (preferOpenAI : bool) (w : World) :
  exists log,
    calls (fst (invokeLLMWithFallback env prompt preferOpenAI w)) = calls w ++ log
    /\ (openaiCalls log <= 1)%nat
    /\ (length (groqResults log) <= length (GROQ_API_KEYS env))%nat.
Proof.
  destruct (invokeLLMWithFallback_openai_calls env prompt preferOpenAI w)
    as (log & Hlog & Hopen & _).
  destruct (invokeLLMWithFallback_groq_calls env prompt preferOpenAI w)
    as (log' & Hlog' & Hgroq).
  rewrite Hlog in Hlog'. apply app_inv_head in Hlog' as <-.
  exists log. auto.
Qed.

Lemma createGroqLLM_world_calls env w :
  calls (fst (createGroqLLM env w)) = calls w.
Proof.
  unfold createGroqLLM.
  destruct (getNextGroqApiKey (GROQ_API_KEYS env) (Gateway.rotator w)); reflexivity.
Qed.

Lemma extractLegalStatutes_state env inputText st :
  exists log,
    calls (world (fst (extractLegalStatutes env inputText st))) = calls (world st) ++ log
    /\ (openaiCalls log <= 1)%nat
    /\ (length (groqResults log) <= length (GROQ_API_KEYS (providers env)))%nat
    /\ searches (fst (extractLegalStatutes env inputText st)) = searches st.
Proof.
  unfold extractLegalStatutes.
  destruct (invokeLLMWithFallback_counts (providers env)
              (extractionPrompt (firstWords 4000 inputText)) true (world st))
    as (log & Hlog & Hopen & Hgroq).
  exists log.
  destruct (invokeLLMWithFallback (providers env)
              (extractionPrompt (firstWords 4000 inputText)) true (world st))
    as [w [response|e]]; cbn [fst snd world searches] in *; auto.
Qed.

(** X9.  One call of [summarizeLegalDocument] runs the failover at most
    twice: it calls the secondary backend at most twice, the primary backend
    at most twice the size of the credential pool, and the vector index at
    most once. *)
Theorem summarizeLegalDocument_cost_is_bounded
  (env : Summary.Env) (inputText : string) (st : State) :
  exists log,
    calls (world (fst (summarizeLegalDocument env inputText st)))
    = calls (world st) ++ log
    /\ (openaiCalls log <= 2)%nat
    /\ (length (groqResults log) <= 2 * length (GROQ_API_KEYS (providers env)))%nat
    /\ (length (searches (fst (summarizeLegalDocument env inputText st)))
        <= length (searches st) + 1)%nat.
Proof.
  unfold summarizeLegalDocument.
  destruct (String.eqb (Text.cleanLegalDocument (Some inputText)) "").
  - exists []. cbn [fst]. rewrite app_nil_r.
    repeat split; unfold openaiCalls; simpl; lia.
  - destruct (invokeLLMWithFallback_counts (providers env)
                (summaryPrompt (Text.cleanLegalDocument (Some inputText))) false (world st))
      as (log1 & Hlog1 & Hopen1 & Hgroq1).
    destruct (invokeLLMWithFallback (providers env)
                (summaryPrompt (Text.cleanLegalDocument (Some inputText))) false (world st))
      as [w [summaryResponse|e]]; cbn [fst snd] in Hlog1.
    + unfold getResources. cbn [world vectorStoreInstance searches].
      pose proof (createGroqLLM_world_calls (providers env) w) as Hc.
      destruct (createGroqLLM (providers env) w) as [w1 key]. cbn [fst] in Hc.
      cbn [world vectorStoreInstance searches].
      destruct (similaritySearchWithScore env (content summaryResponse) 5)
        as [d [similarDocs|e]].
      * match goal with
        | |- context [extractLegalStatutes env inputText ?st2] =>
            destruct (extractLegalStatutes_state env inputText st2)
              as (log2 & Hlog2 & Hopen2 & Hgroq2 & Hs2);
            destruct (extractLegalStatutes env inputText st2) as [st3 statutes]
        end.
        cbn [fst snd world searches elapse calls] in *.
        exists (log1 ++ log2).
        rewrite Hlog2, Hc, Hlog1, <- app_assoc, Hs2.
        rewrite openaiCalls_app, groqResults_app, !length_app. simpl.
        repeat split; lia.
      * exists log1. cbn [fst world searches elapse calls].
        rewrite Hc, Hlog1, length_app. simpl. repeat split; lia.
    + exists log1. cbn [fst world searches]. rewrite Hlog1. repeat split; lia.
Qed.

(** X10.  Whether [summarizeLegalDocument] returns or throws is decided by
    the cleaning, the summary generation and the similarity search alone:
    it throws the empty-input error before anything is called, or the error
    of the summary generation, or the error of the search; otherwise it
    returns the generated summary with the citations of the search.  The
    statute extraction that follows can never make it throw. *)
Theorem summarizeLegalDocument_outcome
  (env : Summary.Env) (inputText : string) (st : State) :
  match snd (summarizeLegalDocument env inputText st) with
  | Thrown e =>
      (Text.cleanLegalDocument (Some inputText) = "" /\ e = emptyInput
       /\ fst (summarizeLegalDocument env inputText st) = st)
      \/ (Text.cleanLegalDocument (Some inputText) <> ""
          /\ snd (invokeLLMWithFallback (providers env)
                    (summaryPrompt (Text.cleanLegalDocument (Some inputText)))
                    false (world st)) = Thrown e)
      \/ (exists response,
            snd (invokeLLMWithFallback (providers env)
                   (summaryPrompt (Text.cleanLegalDocument (Some inputText)))
                   false (world st)) = Returned response
            /\ snd (similaritySearchWithScore env (content response) 5) = Thrown e)
  | Returned r =>
      exists response similarDocs,
        Text.cleanLegalDocument (Some inputText) <> ""
        /\ snd (invokeLLMWithFallback (providers env)
                  (summaryPrompt (Text.cleanLegalDocument (Some inputText)))
                  false (world st)) = Returned response
        /\ snd (similaritySearchWithScore env (content response) 5) = Returned similarDocs
        /\ summary r = content response
        /\ sources r = Summarize.uniqueSourcesOf similarDocs
  end.
Proof.
  unfold summarizeLegalDocument.
  destruct (String.eqb_spec (Text.cleanLegalDocument (Some inputText)) "") as [Hempty|Hne].
  - left. auto.
  - destruct (invokeLLMWithFallback (providers env)
                (summaryPrompt (Text.cleanLegalDocument (Some inputText))) false (world st))
      as [w [summaryResponse|e]]; cbn [fst snd].
    + destruct (similaritySearchWithScore env (content summaryResponse) 5)
        as [d [similarDocs|e]] eqn:Hsearch.
      * destruct (extractLegalStatutes env inputText _) as [st3 statutes]. cbn [snd].
        exists summaryResponse, similarDocs. rewrite Hsearch. auto.
      * cbn [snd]. right. right. exists summaryResponse. rewrite Hsearch. auto.
    + right. left. auto.
Qed.

Lemma mapSet_length {V} (k : string) (v : V) (m : list (string * V)) :
  (length (JS.mapSet k v m) <= S (length m))%nat.
Proof.
  induction m as [|[k' v'] m IH]; simpl; [lia|].
  destruct (String.eqb k' k); simpl; lia.
Qed.

Lemma newMap_length {V} (entries : list (string * V)) :
  (length (JS.newMap entries) <= length entries)%nat.
Proof.
  induction entries as [|e entries IH] using rev_ind; [simpl; lia|].
  rewrite newMap_snoc, length_app. simpl.
  pose proof (mapSet_length (fst e) (snd e) (JS.newMap entries)). lia.
Qed.

Lemma dedupByTitle_length items :
  (length (Pipeline.dedupByTitle items) <= length items)%nat.
Proof.
  unfold Pipeline.dedupByTitle, JS.mapValues. rewrite length_map.
  etransitivity; [apply newMap_length|]. rewrite length_map. lia.
Qed.

(** X11.  The recommended cases of a summary have pairwise different
    titles; each comes from a search result whose score is below 0.35 or at
    least 0.5, and there are no more of them than search results. *)
Theorem summary_sources_are_distinct_and_filtered
  (similarDocs : list (Pipeline.Document * float)) :
  NoDup (map Pipeline.case_title (Summarize.uniqueSourcesOf similarDocs))
  /\ (forall c,
        c ∈ Summarize.uniqueSourcesOf similarDocs ->
        Summarize.keeps (Pipeline.score c) = true
        /\ exists r, r ∈ similarDocs /\ c = Summarize.toSource r)
  /\ (length (Summarize.uniqueSourcesOf similarDocs) <= length similarDocs)%nat.
Proof.
  unfold Summarize.uniqueSourcesOf.
  set (items := map Summarize.toSource
                  (List.filter (fun r => Summarize.keeps (snd r)) similarDocs)).
  destruct (dedupByTitle_spec items) as (Hnd & Horder & Hlast).
  split; [exact Hnd|]. split.
  - intros c Hc. destruct (Hlast c Hc) as [_ Hin].
    apply list_elem_of_fmap in Hin as (r & -> & Hr).
    apply list_elem_of_In, filter_In in Hr as [Hr Hkeep].
    split; [exact Hkeep|]. exists r. split; [apply list_elem_of_In; exact Hr | reflexivity].
  - etransitivity; [apply dedupByTitle_length|].
    unfold items. rewrite length_map. apply List.filter_length_le.
Qed.

Lemma blank_check text :
  String.eqb text "" || (String.length (JS.trim text) =? 0)%nat = true
  <-> JS.trim text = "".
Proof.
  rewrite orb_true_iff, String.eqb_eq, Nat.eqb_eq. split.
  - intros [->|Hlen]; [reflexivity|].
    destruct (JS.trim text); [reflexivity | discriminate].
  - intros ->. right. reflexivity.
Qed.

Lemma errorReply_fixed error reply :
  errorReply error = Returned reply ->
  code reply = 500%nat /\ reply_success reply = false /\ data reply = None
  /\ reply_message reply ∈ failureMessages.
Proof.
  unfold errorReply, failureMessages. destruct (message error) as [m|]; [|discriminate].
  intros [= <-]. cbn. repeat split.
  destruct (JS.includes "empty" m); [left|].
  destruct (JS.includes "Failed to generate" m); [right; left | right; right; left].
Qed.

(** X12.  Every reply of [summarizeDocument] is one of three: 400 "Input
    text is required", exactly when the text is missing, empty or white
    space only, and then nothing has been called; 200 with the summary data;
    or 500 without data and with one of three fixed messages, so that the
    message of the error caught never reaches the client.  The handler
    itself throws only for a text that is not blank. *)
Theorem summarizeDocument_replies
  (env : Summary.Env) (input_text : option string) (st : State) :
  match snd (summarizeDocument env input_text st) with
  | Returned reply =>
      (blank input_text
       /\ reply = mkReply 400 "Input text is required" false None
       /\ fst (summarizeDocument env input_text st) = st)
      \/ (~ blank input_text
          /\ code reply = 200%nat /\ reply_success reply = true
          /\ reply_message reply = "Document summarized successfully"
          /\ is_Some (data reply))
      \/ (~ blank input_text
          /\ code reply = 500%nat /\ reply_success reply = false
          /\ data reply = None
          /\ reply_message reply ∈ failureMessages)
  | Thrown _ => ~ blank input_text
  end.
Proof.
  unfold summarizeDocument, blank.
  destruct input_text as [text|]; [|left; auto].
  destruct (String.eqb text "" || (String.length (JS.trim text) =? 0)%nat) eqn:Hblank.
  - apply blank_check in Hblank. left. auto.
  - assert (Hnb : JS.trim text <> "").
    { intros H. apply blank_check in H. congruence. }
    match goal with
    | |- context [summarizeLegalDocument env ?t st] =>
        destruct (summarizeLegalDocument env t st) as [st' [r|error]]
    end; cbn [fst snd].
    + right. left. cbn. repeat split; eauto.
    + destruct (errorReply error) as [reply|e] eqn:Hreply; [|exact Hnb].
      right. right. split; [exact Hnb|].
      exact (errorReply_fixed _ _ Hreply).
Qed.

(** X13.  A document made of number lines only (at most 10000 words of
    them) passes the validation of [summarizeDocument] but is cleaned to
    nothing: the reply is 500 "Input text is empty after preprocessing", and
    no provider and no search has been called. *)
Theorem page_number_document_is_reported_empty
  (env : Summary.Env) (text : string) (st : State) :
  JS.trim text <> "" ->
  (N.of_nat (length (Text.splitWhiteSpace text)) <= 10000)%N ->
  forallb Text.isPageNumberLine (Text.splitOn "010"%char text) = true ->
  summarizeDocument env (Some text) st
  = (st, Returned (mkReply 500 "Input text is empty after preprocessing" false None)).
Proof.
  intros Hnb Hwords Hlines. unfold summarizeDocument.
  destruct (String.eqb text "" || (String.length (JS.trim text) =? 0)%nat) eqn:Hblank.
  - apply blank_check in Hblank. contradiction.
  - apply N.ltb_ge in Hwords. rewrite Hwords.
    unfold summarizeLegalDocument.
    rewrite (cleanLegalDocument_drops_number_lines text Hlines). reflexivity.
Qed.

Lemma page_number_document_is_reported_empty_witness :
  summarizeDocument Scenarios.summaryEnv (Some Scenarios.pageNumbers) Scenarios.summaryState
  = (Scenarios.summaryState,
     Returned (mkReply 500 "Input text is empty after preprocessing" false None)).
Proof.
  apply (page_number_document_is_reported_empty Scenarios.summaryEnv Scenarios.pageNumbers
           Scenarios.summaryState).
  - vm_compute. discriminate.
  - vm_compute. discriminate.
  - vm_compute. reflexivity.
Defined.

End SummaryFacts.

(* ================================================================== *)
(** * The streaming function as a function of its inputs *)
(* ================================================================== *)

Section EvidenceFacts.
Import Rotator Pipeline Runs Evidence.

Variable env : Pipeline.Env.

Lemma fetchPdfText_exact pdfUrl maxChars s :
  fetchPdfText env pdfUrl maxChars s
  = (addTrace s (downloads pdfUrl), Returned (fetchedText env pdfUrl maxChars)).
Proof.
  unfold fetchPdfText, downloads, fetchedText. destruct pdfUrl as [url|].
  - destruct (String.eqb url "" || String.eqb url "#").
    + unfold ret. rewrite addTrace_nil. reflexivity.
    + rewrite (bind_returned _ _ _ _ _ (emit_run _ _)).
      destruct (downloadPdfText env url) as [[raw|]|e]; try reflexivity.
      match goal with |- context [if ?c then _ else _] => destruct c end; reflexivity.
  - unfold ret. rewrite addTrace_nil. reflexivity.
Qed.

Lemma enrichAll_exact rs :
  forall s,
    enrichAll env rs s
    = (addTrace s (flat_map (fun r => downloads (pdfUrlOf r)) rs),
       Returned (map (enriched env) rs)).
Proof.
  induction rs as [|r rs IH]; intros s; simpl.
  - unfold ret. rewrite addTrace_nil. reflexivity.
  - unfold enrich. unfold bind at 1. unfold bind at 1.
    rewrite fetchPdfText_exact. unfold ret at 1.
    rewrite (bind_returned _ _ _ _ _ (IH _)), addTrace_addTrace. reflexivity.
Qed.

Lemma gatherEvidence_exact validDocs s :
  gatherEvidence env validDocs s
  = (addTrace s (flat_map (fun r => downloads (pdfUrlOf r)) (firstn 2 validDocs)),
     Returned (uniqueSourcesOf validDocs, contextFor env validDocs)).
Proof.
  unfold gatherEvidence, contextFor. destruct validDocs as [|r rest].
  - simpl. unfold ret. rewrite addTrace_nil. reflexivity.
  - change (0 <? length (r :: rest))%nat with true. cbv iota.
    rewrite (bind_returned _ _ _ _ _ (enrichAll_exact _ _)). reflexivity.
Qed.

(** The streaming function does what [streamEffects] says, after it has
    built its client with the next key of the rotator. *)
Lemma streamLegalAssistantResponse_exact userInput chatHistory s :
  streamLegalAssistantResponse env userInput chatHistory s
  = (addTrace (fst (getResources env s))
       (fst (streamEffects env
               (snd (getNextGroqApiKey (GROQ_API_KEYS env) (rotator s)))
               userInput chatHistory)),
     snd (streamEffects env
            (snd (getNextGroqApiKey (GROQ_API_KEYS env) (rotator s)))
            userInput chatHistory)).
Proof.
  assert (Hres : exists s0,
             getResources env s
             = (s0, Returned (snd (getNextGroqApiKey (GROQ_API_KEYS env) (rotator s))))).
  { unfold getResources, createGroqLLM.
    destruct (vectorStoreInstance s); cbn [rotator];
      destruct (getNextGroqApiKey (GROQ_API_KEYS env) (rotator s)); eexists; reflexivity. }
  destruct Hres as [s0 Hres]. rewrite Hres. cbn [fst].
  set (llm := snd (getNextGroqApiKey (GROQ_API_KEYS env) (rotator s))) in *.
  unfold streamLegalAssistantResponse, tryCatch, streamBody, streamEffects.
  rewrite (bind_returned _ _ _ _ _ Hres).
  destruct (isGreeting userInput).
  - unfold write.
    do 3 (rewrite (bind_returned _ _ _ _ _ (emit_run _ _)); cbv beta).
    unfold ret. rewrite !addTrace_addTrace. reflexivity.
  - pose proof (search_run env (cleanQueryOf userInput) 4 s0) as Hs.
    destruct (similaritySearchWithScore env (cleanQueryOf userInput) 4) as [results|e].
    + rewrite (bind_returned _ _ _ _ _ Hs). cbv beta zeta.
      rewrite (bind_returned _ _ _ _ _ (gatherEvidence_exact _ _)). cbv beta. cbn [fst snd].
      unfold write at 1. rewrite (bind_returned _ _ _ _ _ (emit_run _ _)). cbv beta.
      match goal with
      | |- context [bind (generate env llm ?msgs) _ ?st] =>
          pose proof (generate_run env llm msgs st) as Hgen
      end.
      destruct (llmStream env llm
                  (messagesOf (contextFor env (validDocsOf results)) chatHistory userInput))
        as [tokens [e|]]; cbn [fst snd] in *.
      * rewrite (bind_thrown _ _ _ _ _ Hgen).
        unfold write. rewrite (bind_returned _ _ _ _ _ (emit_run _ _)). cbv beta.
        unfold throw. rewrite !addTrace_addTrace. simpl.
        rewrite <- ?app_assoc. simpl. reflexivity.
      * rewrite (bind_returned _ _ _ _ _ Hgen). cbv beta.
        unfold write. rewrite (bind_returned _ _ _ _ _ (emit_run _ _)). cbv beta.
        unfold ret. rewrite !addTrace_addTrace. simpl.
        rewrite <- ?app_assoc. simpl. reflexivity.
    + rewrite (bind_thrown _ _ _ _ _ Hs).
      unfold write. rewrite (bind_returned _ _ _ _ _ (emit_run _ _)). cbv beta.
      unfold throw. rewrite !addTrace_addTrace. reflexivity.
Qed.

End EvidenceFacts.

(* ================================================================== *)
(** * What one run of the streaming function calls *)
(* ================================================================== *)

Section StreamBudget.
Import Rotator Pipeline Runs Evidence.

Variable env : Pipeline.Env.

Lemma getResources_trace s : trace (fst (getResources env s)) = trace s.
Proof.
  destruct (getResources_run env s) as (s0 & llm & Hres & _ & _ & Htrace).
  rewrite Hres. exact Htrace.
Qed.

Lemma streamLegalAssistantResponse_trace userInput chatHistory s :
  trace (fst (streamLegalAssistantResponse env userInput chatHistory s))
  = trace s
    ++ fst (streamEffects env (snd (getNextGroqApiKey (GROQ_API_KEYS env) (rotator s)))
              userInput chatHistory).
Proof.
  rewrite streamLegalAssistantResponse_exact. cbn [fst addTrace trace].
  rewrite getResources_trace. reflexivity.
Qed.

Lemma fetchCalls_app t u : fetchCalls (t ++ u) = (fetchCalls t + fetchCalls u)%nat.
Proof. unfold fetchCalls. rewrite List.filter_app, length_app. reflexivity. Qed.

Lemma llmCalls_app t u : llmCalls (t ++ u) = (llmCalls t + llmCalls u)%nat.
Proof. unfold llmCalls. rewrite List.filter_app, length_app. reflexivity. Qed.

Lemma chunks_count_nothing (tokens : list string) :
  searchCalls (map (fun t => Write (ChunkEvent t)) tokens) = 0%nat
  /\ fetchCalls (map (fun t => Write (ChunkEvent t)) tokens) = 0%nat
  /\ llmCalls (map (fun t => Write (ChunkEvent t)) tokens) = 0%nat.
Proof.
  unfold searchCalls, fetchCalls, llmCalls.
  induction tokens as [|t tokens IH]; simpl; [repeat split | exact IH].
Qed.

Lemma downloads_count rs :
  searchCalls (flat_map (fun r => downloads (pdfUrlOf r)) rs) = 0%nat
  /\ (fetchCalls (flat_map (fun r => downloads (pdfUrlOf r)) rs) <= length rs)%nat
  /\ llmCalls (flat_map (fun r => downloads (pdfUrlOf r)) rs) = 0%nat.
Proof.
  induction rs as [|r rs (IH1 & IH2 & IH3)]; [repeat split; reflexivity|].
  assert (Hd : searchCalls (downloads (pdfUrlOf r)) = 0%nat
               /\ (fetchCalls (downloads (pdfUrlOf r)) <= 1)%nat
               /\ llmCalls (downloads (pdfUrlOf r)) = 0%nat).
  { unfold downloads. destruct (pdfUrlOf r) as [url|]; [|cbn; repeat split; lia].
    destruct (String.eqb url "" || String.eqb url "#"); cbn; repeat split; lia. }
  destruct Hd as (Hd1 & Hd2 & Hd3).
  cbn [flat_map length].
  rewrite searchCalls_app, fetchCalls_app, llmCalls_app, IH1, IH3, Hd1, Hd3.
  repeat split; lia.
Qed.

Lemma elem_of_downloads url rs :
  FetchPdf url ∈ flat_map (fun r => downloads (pdfUrlOf r)) rs ->
  exists r, r ∈ rs /\ pdfUrlOf r = Some url /\ url <> "" /\ url <> "#".
Proof.
  intros H. apply list_elem_of_In, in_flat_map in H. destruct H as (r & Hr & Hin).
  exists r. split; [apply list_elem_of_In, Hr|].
  unfold downloads in Hin. destruct (pdfUrlOf r) as [u|]; [|destruct Hin].
  destruct (String.eqb u "") eqn:He; [destruct Hin|].
  destruct (String.eqb u "#") eqn:Hh; [destruct Hin|].
  cbn [orb] in Hin. destruct Hin as [Heq|[]]. injection Heq as ->.
  apply String.eqb_neq in He, Hh. repeat split; assumption.
Qed.

(** X14.  One run of the streaming function issues at most one similarity
    search, at most two PDF downloads and at most one generation call,
    whatever the index, the PDF store and the provider answer. *)
Theorem streaming_call_budget userInput chatHistory s :
  exists new,
    trace (fst (streamLegalAssistantResponse env userInput chatHistory s)) = trace s ++ new
    /\ (searchCalls new <= 1)%nat
    /\ (fetchCalls new <= 2)%nat
    /\ (llmCalls new <= 1)%nat.
Proof.
  eexists. split; [apply streamLegalAssistantResponse_trace|].
  unfold streamEffects. destruct (isGreeting userInput).
  { cbn. repeat split; lia. }
  destruct (similaritySearchWithScore env (cleanQueryOf userInput) 4) as [results|e].
  2: { cbn. repeat split; lia. }
  cbn [fst].
  match goal with
  | |- context [Search ?q ?k :: ?d ++ ?w :: ?l :: ?c ++ [?z]] =>
      change (Search q k :: d ++ w :: l :: c ++ [z])
        with ([Search q k] ++ d ++ [w; l] ++ c ++ [z]);
      assert (Hz : searchCalls [z] = 0%nat /\ fetchCalls [z] = 0%nat /\ llmCalls [z] = 0%nat)
        by (destruct (snd (llmStream env _ _)); repeat split; reflexivity);
      destruct Hz as (Hz1 & Hz2 & Hz3);
      destruct (chunks_count_nothing (fst (llmStream env (snd (getNextGroqApiKey (GROQ_API_KEYS env) (rotator s))) (messagesOf (contextFor env (validDocsOf results)) chatHistory userInput)))) as (Hc1 & Hc2 & Hc3);
      destruct (downloads_count (firstn 2 (validDocsOf results))) as (Hd1 & Hd2 & Hd3)
  end.
  rewrite !searchCalls_app, !fetchCalls_app, !llmCalls_app.
  rewrite Hz1, Hz2, Hz3, Hc1, Hc2, Hc3, Hd1, Hd3.
  rewrite length_firstn in Hd2.
  change (searchCalls [Search _ _]) with 1%nat.
  repeat split; cbn; lia.
Qed.

(** X15.  A PDF is downloaded only for one of the first two candidates that
    pass the relevance bar, from its [source_url] or else its [r2_url], and
    never from an empty URL or from the placeholder [#]. *)
Theorem downloads_are_for_the_first_two_kept_candidates userInput chatHistory s url :
  FetchPdf url ∈ trace (fst (streamLegalAssistantResponse env userInput chatHistory s)) ->
  FetchPdf url ∈ trace s
  \/ exists results r,
       similaritySearchWithScore env (cleanQueryOf userInput) 4 = Returned results
       /\ r ∈ firstn 2 (validDocsOf results)
       /\ JS.orOpt (m_source_url (metadata (fst r))) (m_r2_url (metadata (fst r))) = Some url
       /\ url <> "" /\ url <> "#".
Proof.
  rewrite streamLegalAssistantResponse_trace. intros H.
  apply elem_of_app in H. destruct H as [H|H]; [left; exact H|right].
  unfold streamEffects in H. destruct (isGreeting userInput).
  { cbn in H. repeat (apply elem_of_cons in H; destruct H as [H|H]; [discriminate H|]).
    inversion H. }
  destruct (similaritySearchWithScore env (cleanQueryOf userInput) 4) as [results|e].
  2: { cbn in H. repeat (apply elem_of_cons in H; destruct H as [H|H]; [discriminate H|]).
       inversion H. }
  cbn [fst] in H. exists results.
  apply elem_of_cons in H. destruct H as [H|H]; [discriminate H|].
  apply elem_of_app in H. destruct H as [H|H].
  - destruct (elem_of_downloads _ _ H) as (r & Hr & Hurl & Hne).
    exists r. split; [reflexivity|]. split; [exact Hr|]. split; [exact Hurl|exact Hne].
  - exfalso.
    apply elem_of_cons in H. destruct H as [H|H]; [discriminate H|].
    apply elem_of_cons in H. destruct H as [H|H]; [discriminate H|].
    apply elem_of_app in H. destruct H as [H|H].
    + apply list_elem_of_fmap in H. destruct H as (t & Ht & _). discriminate Ht.
    + apply elem_of_cons in H. destruct H as [H|H]; [|inversion H].
      destruct (snd (llmStream env _ _)); discriminate H.
Qed.

Lemma nothing_kept results :
  Forall (fun r => PrimFloat.leb relevanceBar (snd r) = false) results ->
  validDocsOf results = [].
Proof.
  unfold validDocsOf. induction 1 as [|r rs Hr _ IH]; simpl; [reflexivity|].
  rewrite Hr. exact IH.
Qed.

(** X16.  When no candidate reaches the relevance bar, nothing is
    downloaded, the [sources] event is empty, and the provider is still
    called, with the marker [NO SPECIFIC CASE FILES FOUND.] in place of the
    cases; a returned result carries no citation. *)
Theorem generation_without_evidence userInput chatHistory s results :
  isGreeting userInput = false ->
  similaritySearchWithScore env (cleanQueryOf userInput) 4 = Returned results ->
  Forall (fun r => PrimFloat.leb relevanceBar (snd r) = false) results ->
  let llm := snd (getNextGroqApiKey (GROQ_API_KEYS env) (rotator s)) in
  let messages := messagesOf "NO SPECIFIC CASE FILES FOUND." chatHistory userInput in
  exists closing,
    trace (fst (streamLegalAssistantResponse env userInput chatHistory s))
    = trace s
      ++ Search (cleanQueryOf userInput) 4
      :: Write (SourcesEvent [])
      :: LlmStream llm messages
      :: map (fun t => Write (ChunkEvent t)) (fst (llmStream env llm messages))
      ++ [Write closing]
    /\ (closing = EndEvent \/ closing = ErrorEvent (ErrorText "Internal Server Error"))
    /\ forall r,
         snd (streamLegalAssistantResponse env userInput chatHistory s) = Returned r ->
         sources r = [].
Proof.
  intros Hg Hs Hweak llm messages.
  rewrite streamLegalAssistantResponse_trace, streamLegalAssistantResponse_exact.
  unfold streamEffects. rewrite Hg, Hs, (nothing_kept _ Hweak).
  cbn [fst snd firstn flat_map app contextFor].
  change (uniqueSourcesOf []) with (@nil Source).
  fold llm. fold messages.
  destruct (snd (llmStream env llm messages)) as [e|].
  - eexists. split; [reflexivity|]. split; [right; reflexivity|]. discriminate.
  - eexists. split; [reflexivity|]. split; [left; reflexivity|].
    intros r [= <-]. reflexivity.
Qed.

Lemma length_filterChars keep s :
  (String.length (JS.filterChars keep s) <= String.length s)%nat.
Proof.
  induction s as [|c r IH]; simpl; [lia|]. destruct (keep c); simpl; lia.
Qed.

Lemma length_mapChars f s : String.length (JS.mapChars f s) = String.length s.
Proof. induction s as [|c r IH]; simpl; [reflexivity|]. rewrite IH. reflexivity. Qed.

Lemma length_trimStart s : (String.length (JS.trimStart s) <= String.length s)%nat.
Proof.
  induction s as [|c r IH]; simpl; [lia|]. destruct (JS.isWhiteSpace c); simpl; lia.
Qed.

Lemma length_trimEnd s : (String.length (JS.trimEnd s) <= String.length s)%nat.
Proof.
  induction s as [|c r IH]; simpl; [lia|].
  destruct (JS.trimEnd r) as [|c' r']; [|simpl in *; lia].
  destruct (JS.isWhiteSpace c); simpl; lia.
Qed.

Lemma length_cleanInputOf userInput :
  (String.length (cleanInputOf userInput) <= String.length userInput)%nat.
Proof.
  unfold cleanInputOf, JS.trim, JS.toLowerCase.
  pose proof (length_filterChars (fun c => negb (isStripped c))
                (JS.trimEnd (JS.trimStart (JS.mapChars JS.lowerChar userInput)))).
  pose proof (length_trimEnd (JS.trimStart (JS.mapChars JS.lowerChar userInput))).
  pose proof (length_trimStart (JS.mapChars JS.lowerChar userInput)).
  pose proof (length_mapChars JS.lowerChar userInput). lia.
Qed.

(** In this embedding lower-casing, trimming and stripping never lengthen
    an input, so that a short input has a short cleaned form. *)
Lemma isGreeting_short userInput :
  (String.length userInput < 3)%nat ->
  isGreeting userInput = true.
Proof.
  intros Hshort. unfold isGreeting. cbv zeta.
  pose proof (length_cleanInputOf userInput) as Hle.
  apply orb_true_iff. right. apply Nat.ltb_lt. lia.
Qed.

Lemma length_latin1 units :
  forall s, CodeUnits.latin1 units = Some s -> String.length s = length units.
Proof.
  induction units as [|u units IH]; intros s; cbn [CodeUnits.latin1].
  - intros [= <-]. reflexivity.
  - destruct (u <? 256)%N; [|discriminate].
    destruct (CodeUnits.latin1 units) as [r|]; [|discriminate].
    intros [= <-]. cbn [String.length length]. rewrite (IH r eq_refl). reflexivity.
Qed.

(** X17.  An input of fewer than three code units, all of them below 256
    (Latin-1), is taken for a greeting whatever it says: it is answered with
    the canned text and never reaches the search.  The bound on the code
    units matters: lower-casing maps a Latin-1 code unit to one Latin-1 code
    unit, while outside Latin-1 it can lengthen the input (U+0130 becomes
    two code units), and such inputs are not strings of this embedding. *)
Theorem short_latin1_inputs_are_greetings (units : list N) (userInput : string) :
  CodeUnits.latin1 units = Some userInput ->
  (length units < 3)%nat ->
  isGreeting userInput = true.
Proof.
  intros Hread Hshort. apply isGreeting_short.
  rewrite (length_latin1 units userInput Hread). exact Hshort.
Qed.

(** X18.  [fetchPdfText] never throws and touches nothing but the trace.
    For a missing or empty URL and for [#] it downloads nothing and returns
    [null].  A text it returns is the first [maxChars] characters of the
    downloaded text, single-spaced and trimmed, which had more than 100
    characters. *)
Theorem fetchPdfText_is_safe_and_bounded pdfUrl maxChars s :
  exists r new,
    fetchPdfText env pdfUrl maxChars s = (addTrace s new, Returned r)
    /\ (new = [] \/ exists url, pdfUrl = Some url /\ new = [FetchPdf url])
    /\ (JS.truthy pdfUrl = false \/ pdfUrl = Some "#" -> new = [] /\ r = None)
    /\ forall text,
         r = Some text ->
         (N.of_nat (String.length text) <= maxChars)%N
         /\ Text.singleSpaced text = true
         /\ exists url raw,
              pdfUrl = Some url
              /\ new = [FetchPdf url]
              /\ downloadPdfText env url = Returned (Some raw)
              /\ text = JS.sliceTo (N.to_nat maxChars) (JS.trim (JS.collapseWhiteSpace raw))
              /\ (100 < String.length (JS.trim (JS.collapseWhiteSpace raw)))%nat.
Proof.
  rewrite fetchPdfText_exact. eexists _, _. split; [reflexivity|].
  unfold downloads, fetchedText.
  destruct pdfUrl as [url|].
  2: { split; [left; reflexivity|]. split; [intros _; split; reflexivity|]. discriminate. }
  destruct (String.eqb_spec url "") as [->|Hne].
  { cbn [orb]. split; [left; reflexivity|]. split; [intros _; split; reflexivity|].
    discriminate. }
  destruct (String.eqb_spec url "#") as [->|Hnh].
  { cbn [orb]. split; [left; reflexivity|]. split; [intros _; split; reflexivity|].
    discriminate. }
  cbn [orb]. split; [right; exists url; split; reflexivity|]. split.
  { intros [Hf|[= Hh]]; [|contradiction].
    cbn [JS.truthy] in Hf. apply negb_false_iff, String.eqb_eq in Hf. contradiction. }
  intros text Htext.
  destruct (downloadPdfText env url) as [[raw|]|e] eqn:Hd; try discriminate Htext.
  destruct (negb (String.eqb (JS.trim (JS.collapseWhiteSpace raw)) "")
            && (100 <? String.length (JS.trim (JS.collapseWhiteSpace raw)))%nat) eqn:Hc;
    [|discriminate Htext].
  injection Htext as <-. apply andb_true_iff in Hc as [_ Hlen]. apply Nat.ltb_lt in Hlen.
  split.
  { pose proof (length_sliceTo (N.to_nat maxChars) (JS.trim (JS.collapseWhiteSpace raw))).
    lia. }
  split; [apply normalised_singleSpaced|].
  exists url, raw. split; [reflexivity|]. split; [reflexivity|].
  split; [first [exact Hd | reflexivity]|]. split; [reflexivity|exact Hlen].
Qed.

End StreamBudget.

Lemma downloads_are_for_the_first_two_kept_candidates_witness :
  Pipeline.FetchPdf "https://x/1.pdf"
    ∈ Pipeline.trace
        (fst (Pipeline.streamLegalAssistantResponse Examples.chatEnv
                "What is Section 302 IPC?" [] Examples.server0))
  /\ (Pipeline.FetchPdf "https://x/1.pdf" ∈ Pipeline.trace Examples.server0
      \/ exists results r,
           Pipeline.similaritySearchWithScore Examples.chatEnv
             (Pipeline.cleanQueryOf "What is Section 302 IPC?") 4 = Returned results
           /\ r ∈ firstn 2 (Pipeline.validDocsOf results)
           /\ JS.orOpt (Pipeline.m_source_url (Pipeline.metadata (fst r)))
                       (Pipeline.m_r2_url (Pipeline.metadata (fst r)))
              = Some "https://x/1.pdf"
           /\ "https://x/1.pdf" <> "" /\ "https://x/1.pdf" <> "#").
Proof.
  assert (H : Pipeline.FetchPdf "https://x/1.pdf"
                ∈ Pipeline.trace
                    (fst (Pipeline.streamLegalAssistantResponse Examples.chatEnv
                            "What is Section 302 IPC?" [] Examples.server0))).
  { vm_compute. apply list_elem_of_further, list_elem_of_here. }
  split; [exact H|].
  exact (downloads_are_for_the_first_two_kept_candidates Examples.chatEnv
           "What is Section 302 IPC?" [] Examples.server0 "https://x/1.pdf" H).
Defined.

Lemma generation_without_evidence_witness :
  exists closing,
    Pipeline.trace
      (fst (Pipeline.streamLegalAssistantResponse Scenarios.weakEnv
              "What is Section 302 IPC?" [] Examples.server0))
    = Pipeline.trace Examples.server0
      ++ Pipeline.Search (Pipeline.cleanQueryOf "What is Section 302 IPC?") 4
      :: Pipeline.Write (Pipeline.SourcesEvent [])
      :: Pipeline.LlmStream
           (snd (Rotator.getNextGroqApiKey (Pipeline.GROQ_API_KEYS Scenarios.weakEnv)
                   (Pipeline.rotator Examples.server0)))
           (Pipeline.messagesOf "NO SPECIFIC CASE FILES FOUND." []
              "What is Section 302 IPC?")
      :: map (fun t => Pipeline.Write (Pipeline.ChunkEvent t))
           (fst (Pipeline.llmStream Scenarios.weakEnv
                   (snd (Rotator.getNextGroqApiKey
                           (Pipeline.GROQ_API_KEYS Scenarios.weakEnv)
                           (Pipeline.rotator Examples.server0)))
                   (Pipeline.messagesOf "NO SPECIFIC CASE FILES FOUND." []
                      "What is Section 302 IPC?")))
      ++ [Pipeline.Write closing]
    /\ (closing = Pipeline.EndEvent
        \/ closing = Pipeline.ErrorEvent (Pipeline.ErrorText "Internal Server Error"))
    /\ forall r,
         snd (Pipeline.streamLegalAssistantResponse Scenarios.weakEnv
                "What is Section 302 IPC?" [] Examples.server0) = Returned r ->
         Pipeline.sources r = [].
Proof.
  apply (generation_without_evidence Scenarios.weakEnv "What is Section 302 IPC?" []
           Examples.server0 [Examples.weakResult]).
  - vm_compute. reflexivity.
  - reflexivity.
  - constructor; [vm_compute; reflexivity|constructor].
Defined.

Lemma short_latin1_inputs_are_greetings_witness :
  CodeUnits.latin1 [111%N; 107%N] = Some "ok"
  /\ (length [111%N; 107%N] < 3)%nat
  /\ Pipeline.isGreeting "ok" = true.
Proof.
  split; [reflexivity|]. split; [simpl; lia|].
  apply (short_latin1_inputs_are_greetings [111%N; 107%N] "ok"); [reflexivity|simpl; lia].
Defined.

(* ================================================================== *)
(** * Refused requests, the response protocol, the rotator *)
(* ================================================================== *)

Section ReplyFacts.
Import Rotator Pipeline Runs Evidence Replies.

Variable env : Pipeline.Env.

(** ** Requests refused before the stream is opened *)

Lemma handle_without_message req s :
  JS.truthy (userMessage req) = false ->
  handle env req s
  = (mkServer (rotator s) (vectorStoreInstance s) (chats s) (users s)
       [SendJson 400 (mkBody "User message is required" None)],
     Returned tt).
Proof.
  intros Hmsg. unfold handle, updateChat, tryCatch, updateChatBody.
  rewrite Hmsg. reflexivity.
Qed.

Lemma handle_foreign_chat req s c :
  JS.truthy (userMessage req) = true ->
  chats s !! chatId req = Some c ->
  owner c <> userId req ->
  handle env req s
  = (mkServer (rotator s) (vectorStoreInstance s) (chats s) (users s)
       [SendJson 401 (mkBody "Unauthorized" None)],
     Returned tt).
Proof.
  intros Hmsg Hchat Hne. unfold handle, updateChat, tryCatch, updateChatBody.
  rewrite Hmsg. cbn [negb].
  unfold findOneChat at 1. unfold bind at 1. cbn [chats]. rewrite Hchat.
  unfold ret at 1. unfold bind at 1.
  destruct (String.eqb_spec (userId req) (owner c)) as [Heq|_]; [congruence|].
  reflexivity.
Qed.

Lemma ownership_fails req s :
  ~ ownershipPasses s req ->
  exists c, chats s !! chatId req = Some c /\ owner c <> userId req.
Proof.
  unfold ownershipPasses, chatOf. intros Hno.
  destruct (chats s !! chatId req) as [c|].
  - exists c. split; [reflexivity|exact Hno].
  - exfalso. apply Hno. reflexivity.
Qed.

Lemma created_effects req s :
  trace (fst (createChat (chatId req) (userId req)
                (mkServer (rotator s) (vectorStoreInstance s) (chats s) (users s) [])))
  = [DbCreateChat (chatId req) (userId req)].
Proof. reflexivity. Qed.

(** The validation up to the look-up of the user, for a request with a
    message on a conversation of its own. *)
Lemma handle_refused_user req s :
  JS.truthy (userMessage req) = true ->
  ownershipPasses s req ->
  (users s !! userId req = None
   \/ exists u, users s !! userId req = Some u /\ (10 <= uses u)%Z) ->
  handle env req s
  = (mkServer (rotator s) (vectorStoreInstance s) (chatsAfterLookup s req) (users s)
       (match chats s !! chatId req with
        | Some _ => []
        | None => [DbCreateChat (chatId req) (userId req)]
        end
        ++ [match users s !! userId req with
            | None => SendJson 500 (mkBody "Internal Server Error" None)
            | Some _ => SendJson 403 quotaDenial
            end]),
     Returned tt).
Proof.
  intros Hmsg Hown Huser.
  unfold ownershipPasses, chatOf in Hown.
  unfold handle, updateChat, tryCatch, updateChatBody, chatsAfterLookup.
  rewrite Hmsg. cbn [negb].
  unfold findOneChat at 1. unfold bind at 1. cbn [chats].
  destruct (chats s !! chatId req) as [c|] eqn:Hchat.
  - unfold ret at 1. unfold bind at 1.
    change (owner c = userId req) in Hown.
    rewrite Hown, String.eqb_refl. cbn [negb].
    unfold findUserById at 1. unfold bind at 1. cbn [users].
    destruct Huser as [Hnone|(u & Hu & Hge)].
    + rewrite Hnone. reflexivity.
    + rewrite Hu. rewrite (proj2 (Z.leb_le 10 (uses u)) Hge). reflexivity.
  - unfold createChat at 1. unfold bind at 1.
    cbn [rotator vectorStoreInstance chats users trace owner].
    rewrite String.eqb_refl. cbn [negb].
    unfold findUserById at 1. unfold bind at 1. cbn [users].
    destruct Huser as [Hnone|(u & Hu & Hge)].
    + rewrite Hnone. reflexivity.
    + rewrite Hu. rewrite (proj2 (Z.leb_le 10 (uses u)) Hge). reflexivity.
Qed.

(** Every request is refused in one of the three ways above or passes the
    validation. *)
Lemma validation_cases req s :
  JS.truthy (userMessage req) = false
  \/ (JS.truthy (userMessage req) = true /\ ~ ownershipPasses s req)
  \/ (JS.truthy (userMessage req) = true /\ ownershipPasses s req
      /\ (users s !! userId req = None
          \/ exists u, users s !! userId req = Some u /\ (10 <= uses u)%Z))
  \/ exists message u, passesValidation s req message u.
Proof.
  destruct (JS.truthy (userMessage req)) eqn:Hmsg; [|left; reflexivity]. right.
  destruct (String.eqb_spec (owner (chatOf s req)) (userId req)) as [Hown|Hno];
    [|left; split; [reflexivity|exact Hno]].
  right.
  destruct (users s !! userId req) as [u|] eqn:Hu;
    [|left; split; [reflexivity|]; split; [exact Hown|left; reflexivity]].
  destruct (Z.le_gt_cases 10 (uses u)) as [Hge|Hlt].
  - left. split; [reflexivity|]. split; [exact Hown|]. right. exists u. split; [reflexivity|exact Hge].
  - right. destruct (userMessage req) as [message|] eqn:Hm; [|discriminate Hmsg].
    exists message, u. unfold passesValidation. rewrite Hm.
    split; [reflexivity|]. split.
    + intros ->. discriminate Hmsg.
    + split; [exact Hown|]. split; [exact Hu|exact Hlt].
Qed.

(** X19.  A request without a message, or on a conversation of another
    user, is answered 400 or 401 - 400 when both apply - and changes
    nothing: no conversation, no user, no key of the rotator. *)
Theorem early_refusals_change_nothing req s :
  JS.truthy (userMessage req) = false \/ ~ ownershipPasses s req ->
  handle env req s
  = (mkServer (rotator s) (vectorStoreInstance s) (chats s) (users s)
       [if JS.truthy (userMessage req)
        then SendJson 401 (mkBody "Unauthorized" None)
        else SendJson 400 (mkBody "User message is required" None)],
     Returned tt).
Proof.
  intros Hrefused.
  destruct (JS.truthy (userMessage req)) eqn:Hmsg.
  - destruct Hrefused as [Hf|Hno]; [discriminate Hf|].
    destruct (ownership_fails req s Hno) as (c & Hchat & Hne).
    exact (handle_foreign_chat req s c Hmsg Hchat Hne).
  - exact (handle_without_message req s Hmsg).
Qed.

(** X20.  A request of a user that has no user record is answered with the
    JSON error 500, on a response whose headers were not sent; no user is
    stored, but a conversation that did not exist has been created, empty,
    for that user. *)
Theorem unknown_user_is_answered_500 req s :
  JS.truthy (userMessage req) = true ->
  ownershipPasses s req ->
  users s !! userId req = None ->
  exists final created,
    handle env req s = (final, Returned tt)
    /\ trace final = created ++ [SendJson 500 (mkBody "Internal Server Error" None)]
    /\ users final = users s
    /\ rotator final = rotator s
    /\ chats final !! chatId req = Some (chatOf s req)
    /\ (forall id, id <> chatId req -> chats final !! id = chats s !! id)
    /\ ((created = [] /\ chats final = chats s)
        \/ (created = [DbCreateChat (chatId req) (userId req)]
            /\ chats s !! chatId req = None
            /\ chats final !! chatId req = Some (mkChat (userId req) false []))).
Proof.
  intros Hmsg Hown Hnone.
  rewrite (handle_refused_user req s Hmsg Hown (or_introl Hnone)).
  rewrite Hnone. unfold chatsAfterLookup, chatOf.
  eexists _, _. split; [reflexivity|]. cbn [trace users rotator chats].
  split; [reflexivity|]. split; [reflexivity|]. split; [reflexivity|].
  destruct (chats s !! chatId req) as [c|] eqn:Hchat.
  - split; [exact Hchat|]. split; [reflexivity|]. left. split; reflexivity.
  - split; [apply lookup_insert_eq|]. split.
    + intros id Hid. apply lookup_insert_ne. congruence.
    + right. split; [reflexivity|]. split; [reflexivity|]. apply lookup_insert_eq.
Qed.

(** ** The response protocol *)

Lemma responseOf_app t u : responseOf (t ++ u) = responseOf t ++ responseOf u.
Proof. apply List.filter_app. Qed.

Lemma responseOf_pipeline t :
  forallb isPipelineEffect t = true -> responseOf t = map Write (written t).
Proof.
  induction t as [|e t IH]; [reflexivity|]. cbn [forallb].
  intros H. apply andb_true_iff in H as [He Ht].
  specialize (IH Ht). unfold responseOf, written in *.
  destruct e; try discriminate He;
    cbn [List.filter flat_map isResponseEffect app map]; rewrite IH; reflexivity.
Qed.

Lemma responseOf_preamble s req message u :
  responseOf (preamble env s req message u) = sseHeaders.
Proof. unfold preamble. destruct (chats s !! chatId req); reflexivity. Qed.

(** X21.  The controller never throws, and every request gets exactly one
    response: either one JSON reply with status 400, 401, 403 or 500 and
    nothing else, or an event stream that is opened with the three headers,
    carries at least one event, ends with the [end] event or with the error
    object, and is closed. *)
Theorem every_request_gets_one_closed_response req s :
  exists final,
    handle env req s = (final, Returned tt)
    /\ ((exists code body,
           responseOf (trace final) = [SendJson code body]
           /\ (code = 400 \/ code = 401 \/ code = 403 \/ code = 500)%nat)
        \/ (exists events closing,
              responseOf (trace final)
              = sseHeaders ++ map Write (events ++ [closing]) ++ [EndResponse]
              /\ (closing = EndEvent
                  \/ closing = ErrorEvent (ErrorObject "An error occurred.")))).
Proof.
  destruct (validation_cases req s)
    as [Hmsg|[[Hmsg Hno]|[(Hmsg & Hown & Huser)|(message & u & Hval)]]].
  - rewrite (handle_without_message req s Hmsg). eexists. split; [reflexivity|].
    left. eexists _, _. split; [reflexivity|]. left. reflexivity.
  - destruct (ownership_fails req s Hno) as (c & Hchat & Hne).
    rewrite (handle_foreign_chat req s c Hmsg Hchat Hne). eexists. split; [reflexivity|].
    left. eexists _, _. split; [reflexivity|]. right. left. reflexivity.
  - rewrite (handle_refused_user req s Hmsg Hown Huser). eexists. split; [reflexivity|].
    left. cbn [trace]. rewrite responseOf_app.
    replace (responseOf match chats s !! chatId req with
                        | Some _ => []
                        | None => [DbCreateChat (chatId req) (userId req)]
                        end) with (@nil Effect)
      by (destruct (chats s !! chatId req); reflexivity).
    destruct (users s !! userId req); eexists _, _; (split; [reflexivity|]); auto.
  - destruct (handle_valid env req s message u Hval)
      as (llm & new & out & final & Hrun & Hshape & _ & Hout).
    exists final. split; [exact Hrun|]. right.
    pose proof (responseOf_pipeline _ (StreamRun_pipeline _ _ _ _ _ _ Hshape)) as Hnew.
    destruct out as [r|e]; destruct Hout as [Htrace _]; rewrite Htrace.
    + destruct (StreamRun_returned _ _ _ _ _ _ Hshape) as (tokens & Hw & _).
      exists (SourcesEvent (sources r) :: map ChunkEvent tokens), EndEvent.
      rewrite !responseOf_app, responseOf_preamble, Hnew, Hw.
      split; [reflexivity|]. left. reflexivity.
    + exists (written new), (ErrorEvent (ErrorObject "An error occurred.")).
      rewrite !responseOf_app, responseOf_preamble, Hnew.
      split; [|right; reflexivity].
      rewrite map_app, <- !app_assoc. reflexivity.
Qed.

(** ** The rotator during a chat request *)







End ReplyFacts.

Lemma early_refusals_change_nothing_witness :
  Runs.handle Examples.chatEnv (Pipeline.mkRequest "chat-1" None "u9") Examples.server0
  = (Pipeline.mkServer (Pipeline.rotator Examples.server0)
       (Pipeline.vectorStoreInstance Examples.server0)
       (Pipeline.chats Examples.server0) (Pipeline.users Examples.server0)
       [if JS.truthy (Pipeline.userMessage (Pipeline.mkRequest "chat-1" None "u9"))
        then Pipeline.SendJson 401 (Pipeline.mkBody "Unauthorized" None)
        else Pipeline.SendJson 400 (Pipeline.mkBody "User message is required" None)],
     Returned tt).
Proof.
  apply (early_refusals_change_nothing Examples.chatEnv
           (Pipeline.mkRequest "chat-1" None "u9") Examples.server0).
  left. reflexivity.
Defined.

Lemma unknown_user_is_answered_500_witness :
  exists final created,
    Runs.handle Examples.chatEnv (Examples.question "ghost") Examples.server0
    = (final, Returned tt)
    /\ Pipeline.trace final
       = created
         ++ [Pipeline.SendJson 500 (Pipeline.mkBody "Internal Server Error" None)]
    /\ Pipeline.users final = Pipeline.users Examples.server0
    /\ Pipeline.rotator final = Pipeline.rotator Examples.server0
    /\ Pipeline.chats final !! Pipeline.chatId (Examples.question "ghost")
       = Some (Runs.chatOf Examples.server0 (Examples.question "ghost"))
    /\ (forall id,
          id <> Pipeline.chatId (Examples.question "ghost") ->
          Pipeline.chats final !! id = Pipeline.chats Examples.server0 !! id)
    /\ ((created = [] /\ Pipeline.chats final = Pipeline.chats Examples.server0)
        \/ (created = [Pipeline.DbCreateChat (Pipeline.chatId (Examples.question "ghost"))
                         (Pipeline.userId (Examples.question "ghost"))]
            /\ Pipeline.chats Examples.server0
                 !! Pipeline.chatId (Examples.question "ghost") = None
            /\ Pipeline.chats final !! Pipeline.chatId (Examples.question "ghost")
               = Some (Pipeline.mkChat (Pipeline.userId (Examples.question "ghost"))
                         false []))).
Proof.
  apply (unknown_user_is_answered_500 Examples.chatEnv (Examples.question "ghost")
           Examples.server0).
  - reflexivity.
  - reflexivity.
  - vm_compute. reflexivity.
Defined.

(* ================================================================== *)
(** * The other chat controllers *)
(* ================================================================== *)

Section ChatApiFacts.
Import Pipeline Runs ChatApi.

(** X23.  [createChat] cannot create a conversation: it passes no [user] to
    the model, which requires one.  Its reply is 400 when the conversation
    exists and 500 otherwise, never 201, and the state is unchanged. *)
Theorem createChat_never_creates dbError chatId st :
  fst (createChat dbError chatId st) = st
  /\ reply_success (snd (createChat dbError chatId st)) = false
  /\ data (snd (createChat dbError chatId st)) = None
  /\ (code (snd (createChat dbError chatId st)) = 400%nat
      /\ dbError = None /\ is_Some (chats (server st) !! chatId)
      \/ snd (createChat dbError chatId st) = internalError
         /\ (is_Some dbError \/ chats (server st) !! chatId = None)).
Proof.
  unfold createChat, findOne, create.
  destruct dbError as [e|].
  - repeat split. right. split; [reflexivity|]. left. eexists; reflexivity.
  - destruct (chats (server st) !! chatId) as [c|].
    + repeat split. left. repeat split. eexists; reflexivity.
    + repeat split. right. split; [reflexivity|]. right. reflexivity.
Qed.

(** X24.  When the query succeeds, [getChat] replies 200 with [success]
    true and a payload, whether or not the conversation exists and whoever
    asks.  For a conversation that does not exist the payload is the demo
    object: its inner conversation is the fixed one, with its own [chatId]
    and an empty history, and the requested id is set on the object itself,
    where it stays for the next request.  The database is never changed. *)
Theorem getChat_always_finds chatId st :
  reachable st ->
  server (fst (getChat None chatId st)) = server st
  /\ reachable (fst (getChat None chatId st))
  /\ code (snd (getChat None chatId st)) = 200%nat
  /\ reply_success (snd (getChat None chatId st)) = true
  /\ match chats (server st) !! chatId with
     | Some chat =>
         demo (fst (getChat None chatId st)) = demo st
         /\ data (snd (getChat None chatId st)) = Some (StoredChat chatId chat)
     | None =>
         demo_chatId (demo (fst (getChat None chatId st))) = Some chatId
         /\ data (snd (getChat None chatId st))
            = Some (DemoObject
                      (mkChatDemo "Chat found" true
                         (mkDemoData "675a37c3bb028b270debe3cd" "67598849e330532b239f4a29"
                            "8826a73a-cd85-4013-af22-1ac23fb4aab7" false [] 0)
                         (Some chatId)))
     end.
Proof.
  intros [id Hdemo]. unfold getChat, findOne.
  destruct (chats (server st) !! chatId) as [chat|]; cbn [fst snd server demo code
    reply_success data demo_chatId].
  - split; [reflexivity|]. split; [exists id; exact Hdemo|]. repeat split.
  - split; [reflexivity|]. split.
    + exists (Some chatId). cbn [demo]. rewrite Hdemo. reflexivity.
    + split; [reflexivity|]. split; [reflexivity|]. split; [reflexivity|].
      rewrite Hdemo. reflexivity.
Qed.

Lemma deleteChat_server chatId st :
  server (fst (deleteChat None chatId st))
  = mkServer (rotator (server st)) (vectorStoreInstance (server st))
             (delete chatId (chats (server st))) (users (server st)) (trace (server st)).
Proof.
  unfold deleteChat, findOne.
  destruct (chats (server st) !! chatId) as [chat|] eqn:Hchat; cbn [fst withChats server].
  - reflexivity.
  - rewrite delete_id by exact Hchat. destruct (server st); reflexivity.
Qed.

(** X25.  [deleteChat] deletes the conversation with the given id whoever
    it belongs to - 200 with the deleted conversation, 404 when there was
    none - and leaves every other conversation alone.  When the query
    rejects, no reply is sent at all. *)
Theorem deleteChat_replies dbError chatId st :
  match dbError with
  | Some _ => deleteChat dbError chatId st = (st, None)
  | None =>
      chats (server (fst (deleteChat dbError chatId st))) !! chatId = None
      /\ (forall id,
            id <> chatId ->
            chats (server (fst (deleteChat dbError chatId st))) !! id
            = chats (server st) !! id)
      /\ users (server (fst (deleteChat dbError chatId st))) = users (server st)
      /\ snd (deleteChat dbError chatId st)
         = Some match chats (server st) !! chatId with
                | Some chat =>
                    mkReply 200 "Chat deleted" true (Some (StoredChat chatId chat))
                | None => mkReply 404 "Chat not found" false None
                end
  end.
Proof.
  destruct dbError as [e|]; [reflexivity|].
  rewrite deleteChat_server. cbn [chats users].
  split; [apply lookup_delete_eq|]. split.
  - intros id Hid. apply lookup_delete_ne. congruence.
  - split; [reflexivity|]. unfold deleteChat, findOne.
    destruct (chats (server st) !! chatId); reflexivity.
Qed.

(** X26.  After a conversation has been deleted, the next user who sends a
    message under its id becomes its owner: [updateChat] creates it anew for
    that user and the ownership check passes, whoever owned it before. *)
Theorem deleted_conversation_goes_to_the_next_sender
  (env : Pipeline.Env) (st : State) (req : Request) (message : string) (u : User) :
  userMessage req = Some message ->
  message <> "" ->
  users (server st) !! userId req = Some u ->
  (uses u < 10)%Z ->
  let s' := server (fst (deleteChat None (chatId req) st)) in
  passesValidation s' req message u
  /\ DbCreateChat (chatId req) (userId req) ∈ trace (fst (handle env req s'))
  /\ exists history,
       chats (fst (handle env req s')) !! chatId req
       = Some (mkChat (userId req) false history).
Proof.
  intros Hmsg Hne Hu Hlt s'.
  assert (Hgone : chats s' !! chatId req = None).
  { unfold s'. rewrite deleteChat_server. apply lookup_delete_eq. }
  assert (Hchat : chatOf s' req = mkChat (userId req) false []).
  { unfold chatOf. rewrite Hgone. reflexivity. }
  assert (Hval : passesValidation s' req message u).
  { unfold passesValidation, ownershipPasses. rewrite Hchat.
    split; [exact Hmsg|]. split; [exact Hne|]. split; [reflexivity|].
    unfold s'. rewrite deleteChat_server. split; [exact Hu|exact Hlt]. }
  split; [exact Hval|].
  destruct (handle_valid env req s' message u Hval)
    as (llm & new & out & final & Hrun & _ & _ & Hout).
  rewrite Hrun. cbn [fst].
  assert (Hpre : DbCreateChat (chatId req) (userId req) ∈ preamble env s' req message u).
  { unfold preamble. rewrite Hgone. apply elem_of_app. left. apply list_elem_of_here. }
  unfold storedChat in Hout. rewrite Hchat in Hout. cbn [owner ispinned] in Hout.
  destruct out as [r|e]; destruct Hout as [Htrace Hchats]; rewrite Htrace, Hchats;
    (split; [apply elem_of_app; left; exact Hpre|eexists; reflexivity]).
Qed.

Lemma getChat_always_finds_witness :
  reachable (mkState Examples.server0 chatdemo)
  /\ code (snd (getChat None "chat-1" (mkState Examples.server0 chatdemo))) = 200%nat.
Proof.
  assert (H : reachable (mkState Examples.server0 chatdemo)) by (exists None; reflexivity).
  split; [exact H|].
  exact (proj1 (proj2 (proj2 (getChat_always_finds "chat-1"
                                (mkState Examples.server0 chatdemo) H)))).
Defined.

Lemma deleted_conversation_goes_to_the_next_sender_witness :
  passesValidation
    (server (fst (deleteChat None (chatId (Examples.question "u9"))
                    (mkState Examples.server0 chatdemo))))
    (Examples.question "u9") "What is Section 302 IPC?" (mkUser 9)
  /\ DbCreateChat (chatId (Examples.question "u9")) (userId (Examples.question "u9"))
     ∈ trace (fst (handle Examples.chatEnv (Examples.question "u9")
                     (server (fst (deleteChat None (chatId (Examples.question "u9"))
                                     (mkState Examples.server0 chatdemo))))))
  /\ exists history,
       chats (fst (handle Examples.chatEnv (Examples.question "u9")
                     (server (fst (deleteChat None (chatId (Examples.question "u9"))
                                     (mkState Examples.server0 chatdemo))))))
         !! chatId (Examples.question "u9")
       = Some (mkChat (userId (Examples.question "u9")) false history).
Proof.
  apply (deleted_conversation_goes_to_the_next_sender Examples.chatEnv
           (mkState Examples.server0 chatdemo) (Examples.question "u9")
           "What is Section 302 IPC?" (mkUser 9)).
  - reflexivity.
  - discriminate.
  - vm_compute. reflexivity.
  - simpl. lia.
Defined.

End ChatApiFacts.

(* ================================================================== *)
(** * The history handed to the streaming function *)
(* ================================================================== *)

Section HistoryFacts.
Import Pipeline Runs.




End HistoryFacts.

(* ================================================================== *)
(** * The simulated stream of the earlier streaming function *)
(* ================================================================== *)

Section LegacyFacts.
Import Text Legacy.

Lemma splitOn_nonempty sep s : splitOn sep s <> [].
Proof.
  destruct s as [|c r]; simpl; [discriminate|].
  destruct (Ascii.eqb c sep); [discriminate|].
  destruct (splitOn sep r); discriminate.
Qed.

Lemma join_cons sep x xs :
  xs <> [] -> String.concat sep (x :: xs) = x +:+ sep +:+ String.concat sep xs.
Proof. destruct xs; [congruence|reflexivity]. Qed.

Lemma append_empty_r (s : string) : s +:+ "" = s.
Proof.
  induction s as [|c r IH]; [reflexivity|].
  change (String c r +:+ "") with (String c (r +:+ "")). rewrite IH. reflexivity.
Qed.

Lemma append_assoc (a b c : string) : (a +:+ b) +:+ c = a +:+ (b +:+ c).
Proof.
  induction a as [|x a IH]; [reflexivity|].
  change (String x ((a +:+ b) +:+ c) = String x (a +:+ (b +:+ c))).
  rewrite IH. reflexivity.
Qed.

(** [s.split(' ').join(' ')] is [s]. *)
Lemma join_splitOn s : String.concat " " (splitOn " "%char s) = s.
Proof.
  induction s as [|c r IH]; [reflexivity|]. cbn [splitOn].
  destruct (Ascii.eqb_spec c " "%char) as [->|Hc].
  - rewrite join_cons by apply splitOn_nonempty. rewrite IH. reflexivity.
  - pose proof (splitOn_nonempty " "%char r) as Hne.
    destruct (splitOn " "%char r) as [|w ws]; [congruence|].
    rewrite <- IH. destruct ws; reflexivity.
Qed.

Lemma concat_cons x xs : String.concat "" (x :: xs) = x +:+ String.concat "" xs.
Proof. destruct xs; simpl; [rewrite append_empty_r|]; reflexivity. Qed.

(** A chunk and the rest of the words make up the words. *)
Lemma chunk_then_rest (l : list string) :
  l <> [] ->
  (String.concat " " (firstn 3 l) +:+ (if (3 <? length l)%nat then " " else ""))
  +:+ String.concat " " (skipn 3 l)
  = String.concat " " l.
Proof.
  intros Hne.
  destruct l as [|a [|b [|c [|d l]]]]; [congruence| | | |].
  - simpl. rewrite !append_empty_r. reflexivity.
  - simpl. rewrite !append_empty_r. reflexivity.
  - simpl. rewrite !append_empty_r. reflexivity.
  - change (3 <? length (a :: b :: c :: d :: l))%nat with true.
    change (firstn 3 (a :: b :: c :: d :: l)) with [a; b; c].
    change (skipn 3 (a :: b :: c :: d :: l)) with (d :: l).
    rewrite (join_cons " " a (b :: c :: d :: l)) by discriminate.
    rewrite (join_cons " " b (c :: d :: l)) by discriminate.
    rewrite (join_cons " " c (d :: l)) by discriminate.
    rewrite (join_cons " " a [b; c]) by discriminate.
    rewrite (join_cons " " b [c]) by discriminate.
    change (String.concat " " [c]) with c.
    rewrite !append_assoc. reflexivity.
Qed.

Lemma chunkLoop_concat words :
  forall fuel i,
    (length words <= i + fuel)%nat ->
    String.concat "" (chunkLoop fuel i words) = String.concat " " (skipn i words).
Proof.
  induction fuel as [|fuel IH]; intros i Hfuel.
  - rewrite skipn_all2 by lia. reflexivity.
  - cbn [chunkLoop]. destruct (Nat.ltb_spec i (length words)) as [Hi|Hi].
    + rewrite concat_cons, IH by lia. unfold chunkAt.
      replace (i + 3)%nat with (3 + i)%nat by lia.
      rewrite <- skipn_skipn.
      replace (3 + i <? length words)%nat with (3 <? length (skipn i words))%nat.
      * apply chunk_then_rest. intros Hnil.
        apply (f_equal (@length string)) in Hnil. rewrite length_skipn in Hnil.
        simpl in Hnil. lia.
      * rewrite length_skipn.
        destruct (Nat.ltb_spec 3 (length words - i)), (Nat.ltb_spec (3 + i) (length words));
          try reflexivity; lia.
    + rewrite skipn_all2 by lia. reflexivity.
Qed.

(** Further iterations change nothing once the index is past the words. *)
Lemma chunkLoop_fuel words :
  forall fuel fuel' i,
    (length words <= i + fuel)%nat -> (length words <= i + fuel')%nat ->
    chunkLoop fuel i words = chunkLoop fuel' i words.
Proof.
  induction fuel as [|fuel IH]; intros fuel' i H H'.
  - destruct fuel' as [|fuel']; [reflexivity|]. cbn [chunkLoop].
    destruct (Nat.ltb_spec i (length words)); [lia|reflexivity].
  - destruct fuel' as [|fuel']; cbn [chunkLoop].
    + destruct (Nat.ltb_spec i (length words)); [lia|reflexivity].
    + destruct (Nat.ltb_spec i (length words)); [|reflexivity].
      rewrite (IH fuel' (i + 3)%nat) by lia. reflexivity.
Qed.

(** X28.  The simulated stream loses nothing: the chunks written for an
    answer, one after the other, are the answer, character for character;
    at least one chunk is written, and the loop has ended within as many
    iterations as the answer has words. *)
Theorem chunks_reproduce_the_answer answer :
  String.concat "" (chunksOf answer) = answer
  /\ chunksOf answer <> []
  /\ forall fuel,
       (length (wordsOf answer) <= fuel)%nat ->
       chunkLoop fuel 0 (wordsOf answer) = chunksOf answer.
Proof.
  unfold chunksOf. split; [|split].
  - rewrite chunkLoop_concat by lia. apply join_splitOn.
  - pose proof (splitOn_nonempty " "%char answer) as Hne. unfold wordsOf.
    destruct (splitOn " "%char answer) as [|w ws]; [congruence|]. discriminate.
  - intros fuel Hfuel. apply chunkLoop_fuel; lia.
Qed.

End LegacyFacts.
